(** * obsidian-tasks-mcp: the task recogniser and the filter evaluator

    A shallow embedding of [TaskParser.ts] (the task markup recogniser
    [parseTaskLine] and the query evaluator [applyFilter] / [queryTasks]),
    followed by the properties established about it.

    JavaScript strings are sequences of UTF-16 code units; they are modelled
    as [list N].  The regular expressions of the [TaskRegex] class are
    modelled by scanners that follow their structure piece by piece. *)

From Stdlib Require Import List NArith Arith Lia Bool String Ascii.
From Stdlib Require Import Numbers.DecimalString Sorting.Sorted.
From Stdlib Require Numbers.DecimalNat Numbers.DecimalFacts.
Import ListNotations.

Set Implicit Arguments.
Local Open Scope string_scope.
Local Open Scope list_scope.

(* ================================================================== *)
(** * JavaScript strings *)

Module Js.

(** A string is the list of its UTF-16 code units. *)
Definition jsstring := list N.

(** An ASCII literal as a JavaScript string. *)
Definition js (s : string) : jsstring :=
  map N_of_ascii (list_ascii_of_string s).

(** Equality of strings ([===] on two strings). *)
Fixpoint streq (a b : jsstring) : bool :=
  match a, b with
  | [], [] => true
  | x :: a', y :: b' => N.eqb x y && streq a' b'
  | _, _ => false
  end.

(** [a < b] on strings: lexicographic on code units. *)
Fixpoint strlt (a b : jsstring) : bool :=
  match a, b with
  | _, [] => false
  | [], _ :: _ => true
  | x :: a', y :: b' =>
      if N.ltb x y then true
      else if N.eqb x y then strlt a' b' else false
  end.

Definition strgt (a b : jsstring) : bool := strlt b a.

(** Membership in an array of code units / of strings
    ([Array.prototype.includes]). *)
Definition inSet (c : N) (l : list N) : bool := existsb (N.eqb c) l.
Definition arrayIncludes (l : list jsstring) (s : jsstring) : bool :=
  existsb (streq s) l.

(** ECMAScript LineTerminator: LF, CR, LS, PS. *)
Definition isLineTerminator (c : N) : bool :=
  inSet c [10; 13; 8232; 8233]%N.

(** ECMAScript WhiteSpace and LineTerminator: what [\s] matches and what
    [trim] removes. *)
Definition isWhiteSpace (c : N) : bool :=
  inSet c [9; 10; 11; 12; 13; 32; 160; 5760; 8232; 8233; 8239; 8287;
           12288; 65279]%N
  || (N.leb 8192 c && N.leb c 8202).

(** [\d] *)
Definition isDigit (c : N) : bool := N.leb 48 c && N.leb c 57.

Definition isHighSurrogate (c : N) : bool := N.leb 55296 c && N.leb c 56319.
Definition isLowSurrogate (c : N) : bool := N.leb 56320 c && N.leb c 57343.

Fixpoint takeWhile (p : N -> bool) (s : jsstring) : jsstring :=
  match s with
  | [] => []
  | c :: r => if p c then c :: takeWhile p r else []
  end.

Fixpoint dropWhile (p : N -> bool) (s : jsstring) : jsstring :=
  match s with
  | [] => []
  | c :: r => if p c then dropWhile p r else s
  end.

(** [String.prototype.trim] *)
Definition trimStart (s : jsstring) : jsstring := dropWhile isWhiteSpace s.
Definition trimEnd (s : jsstring) : jsstring :=
  rev (dropWhile isWhiteSpace (rev s)).
Definition trim (s : jsstring) : jsstring := trimEnd (trimStart s).

(** [String.prototype.toLowerCase], on the Basic Latin letters [A]-[Z];
    every other code unit is kept.  (The clauses of the filter language and
    all keywords the evaluator tests for are Basic Latin.)  On a text of
    Basic Latin this is the lower-casing of the engine; a statement that
    depends on the lower-casing of other text is made for Basic Latin text,
    or with the lower-casing of the engine as a parameter. *)
Definition lowerUnit (c : N) : N :=
  if N.leb 65 c && N.leb c 90 then (c + 32)%N else c.
Definition toLowerCase (s : jsstring) : jsstring := map lowerUnit s.

(** [s.startsWith(p)] *)
Fixpoint startsWith (s p : jsstring) {struct p} : bool :=
  match p, s with
  | [], _ => true
  | _ :: _, [] => false
  | y :: p', x :: s' => N.eqb x y && startsWith s' p'
  end.

(** [s.includes(sub)] *)
Fixpoint includes (s sub : jsstring) : bool :=
  startsWith s sub ||
  match s with
  | [] => false
  | _ :: r => includes r sub
  end.

(** [s.substring(n)] *)
Definition substring (s : jsstring) (n : nat) : jsstring := skipn n s.

(** [s.split(sep)] for a non-empty separator: the pieces between the
    successive non-overlapping occurrences of [sep], scanning from the
    left.  [skip] counts the code units of a separator still to be passed,
    [cur] holds the current piece in reverse. *)
Fixpoint splitGo (sep : jsstring) (skip : nat) (cur : jsstring)
         (s : jsstring) : list jsstring :=
  match s with
  | [] => [rev cur]
  | c :: r =>
      match skip with
      | S k => splitGo sep k cur r
      | O =>
          if startsWith s sep
          then rev cur :: splitGo sep (List.length sep - 1) [] r
          else splitGo sep 0 (c :: cur) r
      end
  end.

(** With the empty separator [split] yields the code units one by one. *)
Definition split (s sep : jsstring) : list jsstring :=
  match sep with
  | [] => map (fun c => [c]) s
  | _ :: _ => splitGo sep 0 [] s
  end.

(** [s.replace(/^#/, '')] *)
Definition stripHash (s : jsstring) : jsstring :=
  match s with
  | 35%N :: r => r
  | _ => s
  end.

(** A regular expression searched in a string ([s.match(re)] without the
    [g] flag): the match attempt [m] is made at each start position from
    the left, and the first success is returned. *)
Fixpoint search (A : Type) (m : jsstring -> option A) (s : jsstring)
  : option A :=
  match m s with
  | Some a => Some a
  | None => match s with
            | [] => None
            | _ :: r => search m r
            end
  end.

(** A regular expression with the [g] flag matched against a string
    ([s.match(re)]): all the matches, from the left, each search resuming
    where the previous match ended (one code unit further after an empty
    match).  [attempt atStart t] is the match attempt at the position where
    [t] begins, [atStart] telling whether this is the start of the string;
    [skip] counts the code units of the last match still to be passed. *)
Fixpoint matchAllGo (attempt : bool -> jsstring -> option jsstring)
         (skip : nat) (atStart : bool) (s : jsstring) : list jsstring :=
  match s with
  | [] => []
  | _ :: r =>
      match skip with
      | S k => matchAllGo attempt k false r
      | O =>
          match attempt atStart s with
          | Some m => m :: matchAllGo attempt (List.length m - 1) false r
          | None => matchAllGo attempt 0 false r
          end
      end
  end.

Definition matchAll (attempt : bool -> jsstring -> option jsstring)
           (s : jsstring) : list jsstring :=
  matchAllGo attempt 0 true s.

(** The decimal numeral of a natural number (a template literal
    interpolating a non-negative integer). *)
Definition ofNat (n : nat) : jsstring :=
  js (NilZero.string_of_uint (Nat.to_uint n)).

End Js.
Import Js.

(* ================================================================== *)
(** * The regular expressions of [TaskRegex] *)

Module TaskRegex.

(** [[\s\t>]] : a character of the indentation. *)
Definition isIndentChar (c : N) : bool := isWhiteSpace c || N.eqb c 62.

(** [indentationRegex], at the head of [s]: the longest run of indentation
    characters and what follows it. *)
Definition indentationRegex (s : jsstring) : jsstring * jsstring :=
  (takeWhile isIndentChar s, dropWhile isIndentChar s).

(** [listMarkerRegex], at the head of [s]: one of the three bullet
    characters, or digits followed by a full stop or a closing parenthesis;
    the marker and what follows it. *)
Definition listMarkerRegex (s : jsstring) : option (jsstring * jsstring) :=
  match s with
  | [] => None
  | c :: r =>
      if inSet c [45; 42; 43]%N then Some ([c], r)
      else
        match takeWhile isDigit s, dropWhile isDigit s with
        | (_ :: _) as ds, d :: r' =>
            if inSet d [46; 41]%N then Some (ds ++ [d], r') else None
        | _, _ => None
        end
  end.

(** One or more spaces at the head of [s]: what follows them. *)
Definition spacesPlus (s : jsstring) : option jsstring :=
  match takeWhile (N.eqb 32) s with
  | [] => None
  | _ :: _ => Some (dropWhile (N.eqb 32) s)
  end.

(** [.] under the [u] flag: one code point that is no line terminator.  A
    high surrogate followed by a low surrogate is one code point of two
    code units; a lone surrogate is a code point by itself. *)
Definition dotU (s : jsstring) : option (jsstring * jsstring) :=
  match s with
  | [] => None
  | c :: r =>
      if isLineTerminator c then None
      else if isHighSurrogate c then
        match r with
        | d :: r' => if isLowSurrogate d then Some ([c; d], r')
                     else Some ([c], r)
        | [] => Some ([c], r)
        end
      else Some ([c], r)
  end.

(** [checkboxRegex], at the head of [s]: an opening bracket, one code
    point, a closing bracket; the code point and what follows the box. *)
Definition checkboxRegex (s : jsstring) : option (jsstring * jsstring) :=
  match s with
  | 91%N :: r =>
      match dotU r with
      | Some (c, 93%N :: r') => Some (c, r')
      | _ => None
      end
  | _ => None
  end.

(** [afterCheckboxRegex], at the head of [s]: any number of spaces, then
    every code point up to the first line terminator; the captured text. *)
Definition afterCheckboxRegex (s : jsstring) : jsstring :=
  takeWhile (fun x => negb (isLineTerminator x)) (dropWhile (N.eqb 32) s).

(** The groups of a match of [taskRegex]. *)
Record TaskMatch := mkTaskMatch {
  indentation : jsstring;   (* match[1] *)
  marker : jsstring;        (* match[2] *)
  statusChar : jsstring;    (* match[3] *)
  body : jsstring           (* match[4] *)
}.

(** [taskRegex], with the [u] flag: anchored at the start of the line, the
    concatenation of [indentationRegex], [listMarkerRegex], one or more
    spaces, [checkboxRegex] and [afterCheckboxRegex].  Each greedy
    repetition is followed by a piece that cannot begin with a character of
    the repeated class, so the longest repetition is the only one that can
    lead to a match, and the scanners take it. *)
Definition taskRegex (line : jsstring) : option TaskMatch :=
  let (indent, r1) := indentationRegex line in
  match listMarkerRegex r1 with
  | None => None
  | Some (mk, r2) =>
      match spacesPlus r2 with
      | None => None
      | Some r3 =>
          match checkboxRegex r3 with
          | None => None
          | Some (c, r4) =>
              Some (mkTaskMatch indent mk c (afterCheckboxRegex r4))
          end
      end
  end.

(** The characters that end a tag, in the order of the negated class of
    [hashTags]: space, exclamation mark, at sign, hash, dollar, percent,
    caret, ampersand, asterisk, parentheses, comma, full stop, question
    mark, double quote, colon, braces, vertical bar, angle brackets. *)
Definition tagStop : list N :=
  [32; 33; 64; 35; 36; 37; 94; 38; 42; 40; 41; 44; 46; 63; 34; 58; 123;
   125; 124; 60; 62]%N.
Definition isTagChar (c : N) : bool := negb (inSet c tagStop).

(** A hash followed by one or more tag characters, at the head of [s]:
    the matched text. *)
Definition hashRun (s : jsstring) : option jsstring :=
  match s with
  | 35%N :: r =>
      match takeWhile isTagChar r with
      | [] => None
      | (_ :: _) as run => Some (35%N :: run)
      end
  | _ => None
  end.

(** One attempt of [hashTags] at a position: the start of the string or
    one white space (which belongs to the match), then a hash and one or
    more tag characters.  [atStart] tells whether the position is the start
    of the string; the alternative [^] is tried before [\s]. *)
Definition hashTagAt (atStart : bool) (s : jsstring) : option jsstring :=
  match (if atStart then hashRun s else None) with
  | Some m => Some m
  | None =>
      match s with
      | c :: r =>
          if isWhiteSpace c then
            match hashRun r with
            | Some m => Some (c :: m)
            | None => None
            end
          else None
      | [] => None
      end
  end.

(** [s.match(hashTags)], with the [g] flag. *)
Definition hashTags (s : jsstring) : list jsstring := matchAll hashTagAt s.

(** [\d{4}-\d{2}-\d{2}] at the head of [s]: the ten code units and the
    rest. *)
Definition dateAt (s : jsstring) : option (jsstring * jsstring) :=
  match s with
  | y1 :: y2 :: y3 :: y4 :: 45%N :: m1 :: m2 :: 45%N :: d1 :: d2 :: r =>
      if forallb isDigit [y1; y2; y3; y4; m1; m2; d1; d2]
      then Some ([y1; y2; y3; y4; 45; m1; m2; 45; d1; d2]%N, r)
      else None
  | _ => None
  end.

(** [\s?(\d{4}-\d{2}-\d{2})] : a white space is taken when there is one;
    without it a date cannot start there either. *)
Definition optSpaceDate (s : jsstring) : option jsstring :=
  let s' := match s with
            | c :: r => if isWhiteSpace c then r else s
            | [] => s
            end in
  option_map fst (dateAt s').

(** A literal at the head of [s]: what follows it. *)
Fixpoint literal (p s : jsstring) : option jsstring :=
  match p, s with
  | [], _ => Some s
  | _ :: _, [] => None
  | y :: p', x :: s' => if N.eqb x y then literal p' s' else None
  end.

(** [dueDateRegex]: without the [u] flag the class holds the code units
    of the two calendar glyphs and of the variation selector:
    D83D DCC5, D83D DDD3, FE0F. *)
Definition dueDateRegex (s : jsstring) : option jsstring :=
  search (fun t => match t with
                   | c :: r =>
                       if inSet c [55357; 56517; 55357; 56787; 65039]%N
                       then optSpaceDate r else None
                   | [] => None
                   end) s.

Definition afterGlyph (g : jsstring) (s : jsstring) : option jsstring :=
  search (fun t => match literal g t with
                   | Some r => optSpaceDate r
                   | None => None
                   end) s.

(** U+23F3, U+1F6EB (D83D DEEB), U+2795 *)
Definition scheduledDateRegex := afterGlyph [9203%N].
Definition startDateRegex := afterGlyph [55357%N; 57067%N].
Definition createdDateRegex := afterGlyph [10133%N].

(** [recurrenceRegex = /U+1F501\s?(.*?)(?=(\s|$))/]: after the glyph
    (D83D DD01) and an optional white space, the shortest run that is
    followed by a white space or by the end of the string. *)
Definition recurrenceRegex (s : jsstring) : option jsstring :=
  search (fun t => match literal [55357%N; 56577%N] t with
                   | Some r =>
                       let r' := match r with
                                 | c :: q => if isWhiteSpace c then q else r
                                 | [] => r
                                 end in
                       Some (takeWhile (fun x => negb (isWhiteSpace x)) r')
                   | None => None
                   end) s.

(** The priority glyphs: U+23EB twice, U+23EB, U+1F53C (D83D DD3C),
    U+1F53D (D83D DD3D), U+23EC. *)
Definition gHighest : jsstring := [9195; 9195]%N.
Definition gHigh : jsstring := [9195]%N.
Definition gMedium : jsstring := [55357; 56636]%N.
Definition gLow : jsstring := [55357; 56637]%N.
Definition gLowest : jsstring := [9196]%N.

(** One attempt of the alternation of the priority glyphs at a position:
    the alternatives are tried in the order they are written. *)
Definition priorityAt (s : jsstring) : option jsstring :=
  if startsWith s gHighest then Some gHighest
  else if startsWith s gHigh then Some gHigh
  else if startsWith s gMedium then Some gMedium
  else if startsWith s gLow then Some gLow
  else if startsWith s gLowest then Some gLowest
  else None.

(** [s.match(...)] for the alternation of the priority glyphs, with the
    [g] flag: the markers in their order of appearance. *)
Definition priorityMatches (s : jsstring) : list jsstring :=
  matchAll (fun _ => priorityAt) s.

End TaskRegex.

(* ================================================================== *)
(** * Tasks *)

Inductive Status :=
| complete | incomplete | cancelled | in_progress | non_task.

Definition Status_eqb (a b : Status) : bool :=
  match a, b with
  | complete, complete | incomplete, incomplete | cancelled, cancelled
  | in_progress, in_progress | non_task, non_task => true
  | _, _ => false
  end.

(** The [Task] interface.  An optional field is an [option]; [None] is
    [undefined]. *)
Record Task := mkTask {
  id : jsstring;
  description : jsstring;
  status : Status;
  statusSymbol : jsstring;
  filePath : jsstring;
  lineNumber : nat;
  tags : list jsstring;
  dueDate : option jsstring;
  scheduledDate : option jsstring;
  createdDate : option jsstring;
  startDate : option jsstring;
  priority : option jsstring;
  recurrence : option jsstring;
  originalMarkdown : jsstring
}.

(** The status of a task, from the character of its checkbox. *)
Definition statusOf (statusChar : jsstring) : Status :=
  if arrayIncludes [js "x"; js "X"] statusChar then complete
  else if arrayIncludes [js "-"] statusChar then cancelled
  else if arrayIncludes [js "/"] statusChar then in_progress
  else if arrayIncludes [js " "; js ">"; js "<"] statusChar then incomplete
  else non_task.

(** The level of a priority marker. *)
Definition levelOf (firstPriority : jsstring) : option jsstring :=
  if streq firstPriority TaskRegex.gHighest then Some (js "highest")
  else if streq firstPriority TaskRegex.gHigh then Some (js "high")
  else if streq firstPriority TaskRegex.gMedium then Some (js "medium")
  else if streq firstPriority TaskRegex.gLow then Some (js "low")
  else if streq firstPriority TaskRegex.gLowest then Some (js "lowest")
  else None.

(** The priority of a task: the level of the first priority marker
    found. *)
Definition priorityOf (priorityMatches : list jsstring) : option jsstring :=
  match priorityMatches with
  | firstPriority :: _ => levelOf firstPriority
  | [] => None
  end.

(** [parseTaskLine]: a task from a line of text, [None] for [null]. *)
Definition parseTaskLine (line filePath : jsstring) (lineNumber : nat)
  : option Task :=
  match TaskRegex.taskRegex line with
  | None => None
  | Some m =>
      let statusChar := TaskRegex.statusChar m in
      let description := trim (TaskRegex.body m) in
      let tags :=
        filter (fun tag => Nat.ltb 0 (List.length tag))
               (map trim (TaskRegex.hashTags description)) in
      let dueMatch := TaskRegex.dueDateRegex description in
      let scheduledMatch := TaskRegex.scheduledDateRegex description in
      let startMatch := TaskRegex.startDateRegex description in
      let createdMatch := TaskRegex.createdDateRegex description in
      let recurrenceMatch := TaskRegex.recurrenceRegex description in
      let priority := priorityOf (TaskRegex.priorityMatches description) in
      let id := filePath ++ js ":" ++ ofNat lineNumber in
      let status := statusOf statusChar in
      Some {| id := id;
              description := description;
              status := status;
              statusSymbol := statusChar;
              filePath := filePath;
              lineNumber := lineNumber;
              tags := tags;
              dueDate := dueMatch;
              scheduledDate := scheduledMatch;
              startDate := startMatch;
              createdDate := createdMatch;
              priority := priority;
              recurrence := recurrenceMatch;
              originalMarkdown := line |}
  end.

(** [parseTasks]: the tasks of a text, line by line; [i] is the number of
    the first line of [lines]. *)
Fixpoint parseLines (lines : list jsstring) (filePath : jsstring) (i : nat)
  : list Task :=
  match lines with
  | [] => []
  | line :: rest =>
      match parseTaskLine line filePath i with
      | Some task => task :: parseLines rest filePath (S i)
      | None => parseLines rest filePath (S i)
      end
  end.

Definition parseTasks (text filePath : jsstring) : list Task :=
  parseLines (split text [10%N]) filePath 0.

(** [taskToString] *)
Definition taskToString (task : Task) : jsstring := originalMarkdown task.

(* ================================================================== *)
(** * Outcomes of an evaluation *)

(** What a call produces: a value, a [TypeError] (a method called on
    [undefined]), or no answer within the allotted number of nested calls
    (on a call stack with room for that number of calls: the [RangeError]
    of the engine). *)
Inductive result (A : Type) :=
| Ok (a : A)
| TypeError
| OutOfFuel.
Arguments Ok {A} a.
Arguments TypeError {A}.
Arguments OutOfFuel {A}.

Definition bind (A B : Type) (r : result A) (k : A -> result B) : result B :=
  match r with
  | Ok a => k a
  | TypeError => TypeError
  | OutOfFuel => OutOfFuel
  end.

Notation "x <- r ;; k" := (bind r (fun x => k))
  (at level 61, r at next level, right associativity).

(** [Array.prototype.every] and [Array.prototype.some] with a callback that
    may fail: the elements are visited from the left, and the visit stops at
    the first element that decides the answer. *)
Fixpoint every (A : Type) (cb : A -> result bool) (l : list A)
  : result bool :=
  match l with
  | [] => Ok true
  | x :: r => b <- cb x ;; if b then every cb r else Ok false
  end.

Fixpoint some (A : Type) (cb : A -> result bool) (l : list A)
  : result bool :=
  match l with
  | [] => Ok false
  | x :: r => b <- cb x ;; if b then Ok true else some cb r
  end.

(** [Array.prototype.filter] with a callback that may fail. *)
Fixpoint filterR (A : Type) (cb : A -> result bool) (l : list A)
  : result (list A) :=
  match l with
  | [] => Ok []
  | x :: r =>
      b <- cb x ;;
      kept <- filterR cb r ;;
      Ok (if b then x :: kept else kept)
  end.

(** [parts[1]] followed by a method call: [undefined] has no methods. *)
Definition second (parts : list jsstring) : result jsstring :=
  match nth_error parts 1 with
  | Some p => Ok p
  | None => TypeError
  end.

(* ================================================================== *)
(** * The filter evaluator *)

(** [\s+] at the head of [s]: what follows the white space. *)
Definition spaces1 (s : jsstring) : option jsstring :=
  match s with
  | c :: r => if isWhiteSpace c then Some (dropWhile isWhiteSpace r) else None
  | [] => None
  end.

(** A date followed by the end of the string. *)
Definition dateEnd (s : jsstring) : option jsstring :=
  match TaskRegex.dateAt s with
  | Some (d, []) => Some d
  | _ => None
  end.

(** The pattern for a due date given as [due DATE] or [due on DATE],
    anchored at both ends. *)
Definition dueDatePattern (filter : jsstring) : option jsstring :=
  match TaskRegex.literal (js "due") filter with
  | Some r =>
      match spaces1 r with
      | Some r1 =>
          dateEnd match TaskRegex.literal (js "on") r1 with
                  | Some q => match spaces1 q with
                              | Some q' => q'
                              | None => r1
                              end
                  | None => r1
                  end
      | None => None
      end
  | None => None
  end.

(** The patterns for [due before DATE] and [due after DATE], anchored at
    both ends; [word] is [before] or [after]. *)
Definition dueWordPattern (word filter : jsstring) : option jsstring :=
  match TaskRegex.literal (js "due") filter with
  | Some r =>
      match spaces1 r with
      | Some r1 =>
          match TaskRegex.literal word r1 with
          | Some q => match spaces1 q with
                      | Some q' => dateEnd q'
                      | None => None
                      end
          | None => None
          end
      | None => None
      end
  | None => None
  end.

(** [o === s], [o < s] and [o > s] for an optional field [o]; the
    comparisons with [undefined] are guarded in the source. *)
Definition optEq (o : option jsstring) (s : jsstring) : bool :=
  match o with Some d => streq d s | None => false end.
Definition optLt (o : option jsstring) (s : jsstring) : bool :=
  match o with Some d => strlt d s | None => false end.
Definition optGt (o : option jsstring) (s : jsstring) : bool :=
  match o with Some d => strgt d s | None => false end.
Definition isUndefined (A : Type) (o : option A) : bool :=
  match o with Some _ => false | None => true end.

(** The due date filters; [None] when the block is left without a
    [return].  [today] is the current date, formatted [YYYY-MM-DD]. *)
Definition dueFilters (today : jsstring) (task : Task) (filter : jsstring)
  : option bool :=
  if startsWith filter (js "due") || streq filter (js "has due date")
     || streq filter (js "no due date")
  then
    if streq filter (js "due today") then Some (optEq (dueDate task) today)
    else if streq filter (js "due before today")
    then Some (optLt (dueDate task) today)
    else if streq filter (js "due after today")
    then Some (optGt (dueDate task) today)
    else if streq filter (js "no due date")
    then Some (isUndefined (dueDate task))
    else if streq filter (js "has due date")
    then Some (negb (isUndefined (dueDate task)))
    else
      match dueDatePattern filter with
      | Some targetDate => Some (optEq (dueDate task) targetDate)
      | None =>
          match dueWordPattern (js "before") filter with
          | Some targetDate => Some (optLt (dueDate task) targetDate)
          | None =>
              match dueWordPattern (js "after") filter with
              | Some targetDate => Some (optGt (dueDate task) targetDate)
              | None => None
              end
          end
      end
  else None.

(** The priority filter; [None] when the block is left without a
    [return]. *)
Definition priorityFilter (task : Task) (wanted : jsstring) : option bool :=
  if streq wanted (js "highest")
  then Some (optEq (priority task) (js "highest"))
  else if streq wanted (js "high")
  then Some (optEq (priority task) (js "high"))
  else if streq wanted (js "medium")
  then Some (optEq (priority task) (js "medium"))
  else if streq wanted (js "low")
  then Some (optEq (priority task) (js "low"))
  else if streq wanted (js "lowest")
  then Some (optEq (priority task) (js "lowest"))
  else if streq wanted (js "none")
  then Some (isUndefined (priority task))
  else None.

(** The last statement of [applyFilter]: the filter text is looked for in
    the description. *)
Definition descriptionSearch (task : Task) (filter : jsstring) : bool :=
  includes (toLowerCase (description task)) filter.

(** The part of [applyFilter] below the boolean combinations (it makes no
    recursive call); [filter] is already lower-cased and trimmed. *)
Definition applyPredicate (today : jsstring) (task : Task)
           (filter : jsstring) : result bool :=
  (* Status-based filters *)
  if streq filter (js "done")
  then Ok (Status_eqb (status task) complete)
  else if streq filter (js "not done")
  then Ok (Status_eqb (status task) incomplete
           || Status_eqb (status task) in_progress)
  else if streq filter (js "cancelled")
  then Ok (Status_eqb (status task) cancelled)
  else if streq filter (js "in progress")
  then Ok (Status_eqb (status task) in_progress)
  else
  (* Due date filters *)
  match dueFilters today task filter with
  | Some b => Ok b
  | None =>
  (* Tag filters *)
  if streq filter (js "no tags")
  then Ok (Nat.eqb (List.length (tags task)) 0)
  else if streq filter (js "has tags")
  then Ok (Nat.ltb 0 (List.length (tags task)))
  else if startsWith filter (js "tag includes ")
  then
    p <- second (split filter (js "tag includes ")) ;;
    let tagToFind := stripHash (trim p) in
    Ok (existsb (fun tag => includes (stripHash tag) tagToFind) (tags task))
  else if startsWith filter (js "has tag ")
  then
    let tagToFind := stripHash (trim (substring filter 8)) in
    Ok (existsb (fun tag => streq (stripHash tag) tagToFind) (tags task))
  (* Path/filename filters *)
  else if startsWith filter (js "path includes")
  then
    p <- second (split filter (js "includes")) ;;
    let pathToFind := trim p in
    Ok (includes (toLowerCase (filePath task)) (toLowerCase pathToFind))
  else if startsWith filter (js "path does not include")
  then
    p <- second (split filter (js "does not include")) ;;
    let pathToExclude := trim p in
    Ok (negb (includes (toLowerCase (filePath task))
                       (toLowerCase pathToExclude)))
  (* Description filters *)
  else if startsWith filter (js "description includes")
  then
    p <- second (split filter (js "includes")) ;;
    let textToFind := trim p in
    Ok (includes (toLowerCase (description task)) (toLowerCase textToFind))
  else if startsWith filter (js "description does not include")
  then
    p <- second (split filter (js "does not include")) ;;
    let textToExclude := trim p in
    Ok (negb (includes (toLowerCase (description task))
                       (toLowerCase textToExclude)))
  (* Priority filters *)
  else
    let fallback := Ok (descriptionSearch task filter) in
    if startsWith filter (js "priority is")
    then
      p <- second (split filter (js "priority is")) ;;
      match priorityFilter task (trim p) with
      | Some b => Ok b
      | None => fallback
      end
    else fallback
  end.

(** [applyFilter], with a bound [fuel] on the depth of the nested calls. *)
Fixpoint applyFilter_fuel (fuel : nat) (today : jsstring) (task : Task)
         (filter : jsstring) : result bool :=
  match fuel with
  | O => OutOfFuel
  | S fuel' =>
      let filter := trim (toLowerCase filter) in
      let recur := fun part => applyFilter_fuel fuel' today task (trim part) in
      (* Boolean combinations with AND, OR, NOT *)
      if includes filter (js " AND ")
      then every recur (split filter (js " AND "))
      else if includes filter (js " OR ")
      then some recur (split filter (js " OR "))
      (* Case insensitive versions *)
      else if includes filter (js " and ")
      then every recur (split filter (js " and "))
      else if includes filter (js " or ")
      then some recur (split filter (js " or "))
      else if startsWith filter (js "not ")
      then
        let subFilter := substring filter 4 in
        b <- applyFilter_fuel fuel' today task subFilter ;; Ok (negb b)
      else applyPredicate today task filter
  end.

(** [applyFilter], with the stack it needs: every nested call receives a
    strictly shorter text, so a depth of one more than the length of the
    filter is never reached (see [applyFilter_fuel_enough] and
    [applyFilter_fuel_stable]).  What happens on a stack with less room is
    told by [applyFilterWith] below. *)
Definition applyFilter (today : jsstring) (task : Task) (filter : jsstring)
  : result bool :=
  applyFilter_fuel (S (List.length filter)) today task filter.

(** [parseQuery]: the lines of a query, trimmed, without the empty ones and
    the comments. *)
Definition parseQuery (queryText : jsstring) : list jsstring :=
  filter (fun line => negb (Nat.eqb (List.length line) 0)
                      && negb (startsWith line (js "#")))
         (map trim (split queryText [10%N])).

(** The callback of [queryTasks]: the loop over the filters, left at the
    first filter that fails. *)
Fixpoint passesAll (today : jsstring) (task : Task) (filters : list jsstring)
  : result bool :=
  match filters with
  | [] => Ok true
  | filter :: rest =>
      b <- applyFilter today task filter ;;
      if negb b then Ok false else passesAll today task rest
  end.

(** [queryTasks] *)
Definition queryTasks (today : jsstring) (tasks : list Task)
           (queryText : jsstring) : result (list Task) :=
  let filters := parseQuery queryText in
  filterR (fun task => passesAll today task filters) tasks.

(* ================================================================== *)
(** * The evaluator on the engine

    [applyFilter] above is [applyFilter] with the stack it needs and with
    the lower-casing of the Basic Latin letters.  Here both are
    parameters.  [lower] is [String.prototype.toLowerCase], taken as the
    engine has it: it folds every cased letter, and may change the length
    of a text.  [depth] is the number of nested calls of [applyFilter] the
    call stack has room for: a call beyond it throws the [RangeError] of
    the engine, for which [OutOfFuel] stands. *)

Section Engine.

Variable lower : jsstring -> jsstring.

(** The part of [applyFilter] below the boolean combinations; [filter] is
    already lower-cased and trimmed. *)
Definition applyPredicateWith (today : jsstring) (task : Task)
           (filter : jsstring) : result bool :=
  (* Status-based filters *)
  if streq filter (js "done")
  then Ok (Status_eqb (status task) complete)
  else if streq filter (js "not done")
  then Ok (Status_eqb (status task) incomplete
           || Status_eqb (status task) in_progress)
  else if streq filter (js "cancelled")
  then Ok (Status_eqb (status task) cancelled)
  else if streq filter (js "in progress")
  then Ok (Status_eqb (status task) in_progress)
  else
  (* Due date filters *)
  match dueFilters today task filter with
  | Some b => Ok b
  | None =>
  (* Tag filters *)
  if streq filter (js "no tags")
  then Ok (Nat.eqb (List.length (tags task)) 0)
  else if streq filter (js "has tags")
  then Ok (Nat.ltb 0 (List.length (tags task)))
  else if startsWith filter (js "tag includes ")
  then
    p <- second (split filter (js "tag includes ")) ;;
    let tagToFind := stripHash (trim p) in
    Ok (existsb (fun tag => includes (stripHash tag) tagToFind) (tags task))
  else if startsWith filter (js "has tag ")
  then
    let tagToFind := stripHash (trim (substring filter 8)) in
    Ok (existsb (fun tag => streq (stripHash tag) tagToFind) (tags task))
  (* Path/filename filters *)
  else if startsWith filter (js "path includes")
  then
    p <- second (split filter (js "includes")) ;;
    let pathToFind := trim p in
    Ok (includes (lower (filePath task)) (lower pathToFind))
  else if startsWith filter (js "path does not include")
  then
    p <- second (split filter (js "does not include")) ;;
    let pathToExclude := trim p in
    Ok (negb (includes (lower (filePath task)) (lower pathToExclude)))
  (* Description filters *)
  else if startsWith filter (js "description includes")
  then
    p <- second (split filter (js "includes")) ;;
    let textToFind := trim p in
    Ok (includes (lower (description task)) (lower textToFind))
  else if startsWith filter (js "description does not include")
  then
    p <- second (split filter (js "does not include")) ;;
    let textToExclude := trim p in
    Ok (negb (includes (lower (description task)) (lower textToExclude)))
  (* Priority filters *)
  else
    let fallback := Ok (includes (lower (description task)) filter) in
    if startsWith filter (js "priority is")
    then
      p <- second (split filter (js "priority is")) ;;
      match priorityFilter task (trim p) with
      | Some b => Ok b
      | None => fallback
      end
    else fallback
  end.

(** [applyFilter] on a stack with room for [depth] nested calls of it. *)
Fixpoint applyFilterWith (depth : nat) (today : jsstring) (task : Task)
         (filter : jsstring) : result bool :=
  match depth with
  | O => OutOfFuel
  | S depth' =>
      let filter := trim (lower filter) in
      let recur :=
        fun part => applyFilterWith depth' today task (trim part) in
      (* Boolean combinations with AND, OR, NOT *)
      if includes filter (js " AND ")
      then every recur (split filter (js " AND "))
      else if includes filter (js " OR ")
      then some recur (split filter (js " OR "))
      (* Case insensitive versions *)
      else if includes filter (js " and ")
      then every recur (split filter (js " and "))
      else if includes filter (js " or ")
      then some recur (split filter (js " or "))
      else if startsWith filter (js "not ")
      then
        let subFilter := substring filter 4 in
        b <- applyFilterWith depth' today task subFilter ;; Ok (negb b)
      else applyPredicateWith today task filter
  end.

(** The callback of [queryTasks], where every call of [applyFilter] finds
    room for [depth] nested calls. *)
Fixpoint passesAllWith (depth : nat) (today : jsstring) (task : Task)
         (filters : list jsstring) : result bool :=
  match filters with
  | [] => Ok true
  | filter :: rest =>
      b <- applyFilterWith depth today task filter ;;
      if negb b then Ok false else passesAllWith depth today task rest
  end.

(** [queryTasks] *)
Definition queryTasksWith (depth : nat) (today : jsstring)
           (tasks : list Task) (queryText : jsstring) : result (list Task) :=
  let filters := parseQuery queryText in
  filterR (fun task => passesAllWith depth today task filters) tasks.

End Engine.

(* ================================================================== *)
(** * The callers in [index.ts] *)

Module Index.

(** What a function does: it returns, or it throws an [Error] with a
    message. *)
Inductive thrown (A : Type) :=
| Returned (a : A)
| Thrown (message : jsstring).
Arguments Returned {A} a.
Arguments Thrown {A} message.

(** What is written with [console.error]. *)
Inductive logged :=
| ErrorProcessingFile (filePath : jsstring)
| ErrorQueryingTasks.

(** [validateRelativePath]: a path with two dots in a row is refused. *)
Definition validateRelativePath (relativePath : jsstring) : thrown unit :=
  if includes relativePath (js "..")
  then Thrown (js "Access denied - directory traversal detected in path: "
               ++ relativePath)
  else Returned tt.

(** [extractTasksFromFile]: the tasks of a file.  [readFile] is the content
    of the files that can be read, [None] when the read fails; then the
    failure is logged and the file has no tasks. *)
Definition extractTasksFromFile (readFile : jsstring -> option jsstring)
           (filePath : jsstring) : list Task * list logged :=
  match readFile filePath with
  | Some content => (parseTasks content filePath, [])
  | None => ([], [ErrorProcessingFile filePath])
  end.

(** The loop of [findAllTasks] over the files. *)
Fixpoint collectTasks (readFile : jsstring -> option jsstring)
         (markdownFiles : list jsstring) : list Task * list logged :=
  match markdownFiles with
  | [] => ([], [])
  | filePath :: rest =>
      let (tasks, log) := extractTasksFromFile readFile filePath in
      let (allTasks, logs) := collectTasks readFile rest in
      (tasks ++ allTasks, log ++ logs)
  end.

(** [findAllTasks]: the tasks of all the files that
    [findAllMarkdownFiles] (a [glob] of the file system, taken as it is)
    gives for a directory. *)
Definition findAllTasks (findAllMarkdownFiles : jsstring -> list jsstring)
           (readFile : jsstring -> option jsstring)
           (directoryPath : jsstring) : list Task * list logged :=
  collectTasks readFile (findAllMarkdownFiles directoryPath).

(** [queryTasks] of [index.ts]: the query of [TaskParser.ts], with the
    empty list and a logged error when the query throws, be it a
    [TypeError] or the [RangeError] of a full stack.  [lower] and [depth]
    are those of the evaluator on the engine. *)
Definition queryTasks (lower : jsstring -> jsstring) (depth : nat)
           (today : jsstring) (tasks : list Task) (queryText : jsstring)
  : list Task * list logged :=
  match queryTasksWith lower depth today tasks queryText with
  | Ok kept => (kept, [])
  | TypeError | OutOfFuel => ([], [ErrorQueryingTasks])
  end.

End Index.

(* ================================================================== *)
(** * Notions used in the statements *)

(** ** Text that does not begin with a character of a class *)

Definition stopsAt (p : N -> bool) (s : jsstring) : Prop :=
  match s with
  | [] => True
  | c :: _ => p c = false
  end.

(** ** The shape of a task line

    A line has the shape of a task when it is an indentation, a list marker,
    one or more spaces, and a checkbox holding one code point [symbol],
    followed by anything. *)

Definition isListMarker (mk : jsstring) : Prop :=
  (exists c, mk = [c] /\ In c [45; 42; 43]%N)
  \/ (exists ds d, mk = ds ++ [d] /\ ds <> [] /\ forallb isDigit ds = true
                   /\ In d [46; 41]%N).

Definition isCodePoint (symbol : jsstring) : Prop :=
  (exists x, symbol = [x] /\ isLineTerminator x = false)
  \/ (exists h l, symbol = [h; l] /\ isHighSurrogate h = true
                  /\ isLowSurrogate l = true).

Inductive TaskShape (line symbol : jsstring) : Prop :=
| TaskShape_intro (indent mk spaces rest : jsstring) :
    forallb TaskRegex.isIndentChar indent = true ->
    isListMarker mk ->
    spaces <> [] ->
    forallb (N.eqb 32) spaces = true ->
    isCodePoint symbol ->
    line = indent ++ mk ++ spaces ++ [91%N] ++ symbol ++ [93%N] ++ rest ->
    TaskShape line symbol.

(** ** Priority markers in a text *)

(** The five markers with their levels. *)
Definition priorityGlyphs : list (jsstring * jsstring) :=
  [(TaskRegex.gHighest, js "highest"); (TaskRegex.gHigh, js "high");
   (TaskRegex.gMedium, js "medium"); (TaskRegex.gLow, js "low");
   (TaskRegex.gLowest, js "lowest")].

(** The glyph [g] is written in [s] from position [i] on. *)
Definition glyphAt (s : jsstring) (i : nat) (g : jsstring) : Prop :=
  startsWith (skipn i s) g = true.

(** The marker [g] stands at position [i]: a doubled glyph is the marker
    of the highest level, not the marker of the high level. *)
Definition markerAt (s : jsstring) (i : nat) (g : jsstring) : Prop :=
  glyphAt s i g /\ (g = TaskRegex.gHigh -> ~ glyphAt s i TaskRegex.gHighest).

Definition noMarkerAt (s : jsstring) (i : nat) : Prop :=
  forall g, In g (map fst priorityGlyphs) -> ~ glyphAt s i g.

(** ** Tags of a text *)

(** Every substring that starts with a hash preceded by the start of the
    text or by a white space and runs up to a character that ends a tag or
    to the end of the text; [prevOk] tells whether the position is preceded
    by the start of the text or by a white space. *)
Fixpoint tagsFrom (prevOk : bool) (s : jsstring) : list jsstring :=
  match s with
  | [] => []
  | c :: r =>
      (if prevOk && N.eqb c 35
       then [c :: takeWhile TaskRegex.isTagChar r] else [])
      ++ tagsFrom (isWhiteSpace c) r
  end.

Definition tagsOfText (s : jsstring) : list jsstring := tagsFrom true s.

(** The same, for the hashes that are followed by at least one character
    of a tag. *)
Fixpoint namedTagsFrom (prevOk : bool) (s : jsstring) : list jsstring :=
  match s with
  | [] => []
  | c :: r =>
      (if prevOk && N.eqb c 35
          && negb (Nat.eqb (List.length (takeWhile TaskRegex.isTagChar r)) 0)
       then [c :: takeWhile TaskRegex.isTagChar r] else [])
      ++ namedTagsFrom (isWhiteSpace c) r
  end.

Definition namedTagsOfText (s : jsstring) : list jsstring :=
  namedTagsFrom true s.

(** What [parseTaskLine] does with the matches: trimmed, the empty ones
    left out. *)
Definition cleanTags (matches : list jsstring) : list jsstring :=
  filter (fun tag => Nat.ltb 0 (List.length tag)) (map trim matches).

(** The only white space of the text is the space. *)
Definition onlySpaces (s : jsstring) : Prop :=
  forall c, In c s -> isWhiteSpace c = true -> c = 32%N.

(** ** Clauses *)

(** The clause holds a boolean connective. *)
Definition isConnective (f : jsstring) : bool :=
  includes f (js " and ") || includes f (js " or ")
  || startsWith f (js "not ").

(** The clause is one of the due date predicates. *)
Definition isDuePredicate (f : jsstring) : bool :=
  arrayIncludes [js "due today"; js "due before today";
                 js "due after today"; js "no due date"; js "has due date"] f
  || negb (isUndefined (dueDatePattern f))
  || negb (isUndefined (dueWordPattern (js "before") f))
  || negb (isUndefined (dueWordPattern (js "after") f)).

(** The clause is a priority predicate with one of the six levels. *)
Definition isPriorityPredicate (f : jsstring) : bool :=
  startsWith f (js "priority is")
  && match nth_error (split f (js "priority is")) 1 with
     | Some p =>
         arrayIncludes [js "highest"; js "high"; js "medium"; js "low";
                        js "lowest"; js "none"] (trim p)
     | None => false
     end.

(** The clause is one of the predicates of the filter language. *)
Definition isPredicate (f : jsstring) : bool :=
  arrayIncludes [js "done"; js "not done"; js "cancelled"; js "in progress"] f
  || isDuePredicate f
  || arrayIncludes [js "no tags"; js "has tags"] f
  || startsWith f (js "tag includes ")
  || startsWith f (js "has tag ")
  || startsWith f (js "path includes")
  || startsWith f (js "path does not include")
  || startsWith f (js "description includes")
  || startsWith f (js "description does not include")
  || isPriorityPredicate f.

(** The value of an answer, when there is one. *)
Definition holds (r : result bool) : bool :=
  match r with
  | Ok b => b
  | _ => false
  end.

(** The clause [a or b and c] read as [a or (b and c)]. *)
Definition orOfAnd (today : jsstring) (task : Task) : Prop :=
  forall a b c,
    applyFilter today task (js "a") = Ok a ->
    applyFilter today task (js "b") = Ok b ->
    applyFilter today task (js "c") = Ok c ->
    applyFilter today task (js "a or b and c") = Ok (a || (b && c)).

(** The lines of a query that count: trimmed, not empty, no comment. *)
Definition isFilterLine (queryText line : jsstring) : Prop :=
  exists raw, In raw (split queryText [10%N]) /\ line = trim raw
              /\ line <> [] /\ startsWith line (js "#") = false.

(** Every tag of the task carries its leading hash (the invariant of the
    field [tags] in the data model). *)
Definition tagsHashed (task : Task) : Prop :=
  forall tag, In tag (tags task) -> startsWith tag (js "#") = true.

(** The query made of the two lines [done] and [has tag work]. *)
Definition doneAndWork : jsstring :=
  js "done" ++ [10%N] ++ js "has tag work".

(** The task is complete and its tags contain [#work]. *)
Definition completeWithWorkTag (task : Task) : bool :=
  Status_eqb (status task) complete
  && existsb (streq (js "#work")) (tags task).

(** The task is complete and its tags contain [#work] or [work]. *)
Definition completeWithWork (task : Task) : bool :=
  Status_eqb (status task) complete
  && (existsb (streq (js "#work")) (tags task)
      || existsb (streq (js "work")) (tags task)).

(** ** Sublists *)

(** [l] is obtained from [m] by dropping elements. *)
Inductive Sublist (A : Type) : list A -> list A -> Prop :=
| Sublist_nil : Sublist [] []
| Sublist_skip x l m : Sublist l m -> Sublist l (x :: m)
| Sublist_keep x l m : Sublist l m -> Sublist (x :: l) (x :: m).

(** ** Sample tasks *)

(** A symbol that gives the status. *)
Definition symbolOf (st : Status) : jsstring :=
  match st with
  | complete => js "x"
  | incomplete => js " "
  | cancelled => js "-"
  | in_progress => js "/"
  | non_task => js "?"
  end.

(** A task of the file [notes.md] with the given status, description and
    tags, and no other metadata. *)
Definition sampleTask (st : Status) (descr : jsstring)
           (tgs : list jsstring) : Task :=
  {| id := js "notes.md:0"; description := descr; status := st;
     statusSymbol := symbolOf st; filePath := js "notes.md"; lineNumber := 0;
     tags := tgs; dueDate := None; scheduledDate := None;
     createdDate := None; startDate := None; priority := None;
     recurrence := None;
     originalMarkdown := js "- [" ++ symbolOf st ++ js "] " ++ descr |}.

(** ** Notions for the further properties *)

(** A text of the form [YYYY-MM-DD]: ten code units, digits but for the two
    hyphens. *)
Definition isDateText (d : jsstring) : Prop := dateEnd d = Some d.

(** An upper-case Basic Latin letter. *)
Definition isUpper (c : N) : bool := N.leb 65 c && N.leb c 90.

(** The line of a query counts for nothing: it is blank or a comment. *)
Definition isIdleLine (raw : jsstring) : Prop :=
  trim raw = [] \/ startsWith (trim raw) (js "#") = true.

(** Two query texts, one after the other, on separate lines. *)
Definition queryAnd (q1 q2 : jsstring) : jsstring := q1 ++ [10%N] ++ q2.

(** A task to try the filters on: incomplete, with the given due date and
    tags. *)
Definition sampleDueTask (due : option jsstring) (tgs : list jsstring)
  : Task :=
  {| id := js "notes.md:0"; description := js "Pay rent";
     status := incomplete; statusSymbol := js " ";
     filePath := js "notes.md"; lineNumber := 0;
     tags := tgs; dueDate := due; scheduledDate := None;
     createdDate := None; startDate := None; priority := None;
     recurrence := None; originalMarkdown := js "- [ ] Pay rent" |}.

(** The task [t], read from the line [line] instead. *)
Definition withMarkdown (t : Task) (line : jsstring) : Task :=
  {| id := id t; description := description t; status := status t;
     statusSymbol := statusSymbol t; filePath := filePath t;
     lineNumber := lineNumber t; tags := tags t; dueDate := dueDate t;
     scheduledDate := scheduledDate t; createdDate := createdDate t;
     startDate := startDate t; priority := priority t;
     recurrence := recurrence t; originalMarkdown := line |}.

(** A text of Basic Latin: every code unit is below 128.  On such a text
    [toLowerCase] is the lower-casing of the engine. *)
Definition isBasicLatin (s : jsstring) : Prop :=
  forallb (fun c => N.ltb c 128) s = true.

(** What the evaluator on the engine needs of the lower-casing to come to
    an end: a text that is written in a lower-cased text is left as it is
    (no cased letter is left in it to fold). *)
Definition fixesLowered (lower : jsstring -> jsstring) : Prop :=
  forall s t, includes (lower s) t = true -> lower t = t.

(** The clause holds a connective in either case. *)
Definition isAnyConnective (f : jsstring) : bool :=
  includes f (js " AND ") || includes f (js " OR ") || isConnective f.

(** The clause [f] under [n] negations: [not not ... f]. *)
Fixpoint nestedNot (n : nat) (f : jsstring) : jsstring :=
  match n with
  | O => f
  | S k => js "not " ++ nestedNot k f
  end.

(** A word: a text that is not empty and holds no white space. *)
Definition isWord (w : jsstring) : Prop :=
  w <> [] /\ forallb (fun c => negb (isWhiteSpace c)) w = true.

(** Exactly one of three answers is [true]. *)
Definition exactlyOne (a b c : bool) : Prop :=
  In (a, b, c) [(true, false, false); (false, true, false);
                (false, false, true)].

(* ================================================================== *)
(** * Facts about strings *)

Unset Implicit Arguments.

Section JsFacts.

Lemma streq_eq (a b : jsstring) : streq a b = true <-> a = b.
Proof.
  revert b; induction a as [|x a IH]; intros [|y b]; simpl;
    try (split; (discriminate || reflexivity)).
  rewrite andb_true_iff, N.eqb_eq, IH.
  split; [intros [-> ->]; reflexivity | intros [= -> ->]; auto].
Qed.

Lemma streq_refl (a : jsstring) : streq a a = true.
Proof. apply streq_eq; reflexivity. Qed.

Lemma streq_neq (a b : jsstring) : streq a b = false <-> a <> b.
Proof.
  rewrite <- streq_eq. destruct (streq a b); split; congruence.
Qed.

Lemma inSet_In (c : N) (l : list N) : inSet c l = true <-> In c l.
Proof.
  unfold inSet. rewrite existsb_exists. split.
  - intros [x [Hx He]]. apply N.eqb_eq in He. subst; assumption.
  - intros H. exists c. split; [assumption | apply N.eqb_refl].
Qed.

Lemma arrayIncludes_In (l : list jsstring) (s : jsstring) :
  arrayIncludes l s = true <-> In s l.
Proof.
  unfold arrayIncludes. rewrite existsb_exists. split.
  - intros [x [Hx He]]. apply streq_eq in He. subst; assumption.
  - intros H. exists s. split; [assumption | apply streq_refl].
Qed.

Variable p : N -> bool.

Lemma takeWhile_dropWhile (s : jsstring) :
  takeWhile p s ++ dropWhile p s = s.
Proof.
  induction s as [|c r IH]; simpl; [reflexivity|].
  destruct (p c); simpl; [rewrite IH|]; reflexivity.
Qed.

Lemma takeWhile_forallb (s : jsstring) : forallb p (takeWhile p s) = true.
Proof.
  induction s as [|c r IH]; simpl; [reflexivity|].
  destruct (p c) eqn:E; simpl; [rewrite E, IH|]; reflexivity.
Qed.

Lemma dropWhile_head (s : jsstring) (c : N) (r : jsstring) :
  dropWhile p s = c :: r -> p c = false.
Proof.
  induction s as [|x s IH]; simpl; [discriminate|].
  destruct (p x) eqn:E; [assumption|].
  intros [= <- <-]; assumption.
Qed.

(** A run of [p]-characters followed by something that does not start
    with one is split exactly there. *)
Lemma takeWhile_app (a b : jsstring) :
  forallb p a = true -> stopsAt p b -> takeWhile p (a ++ b) = a.
Proof.
  induction a as [|x a IH]; simpl; intros Ha Hb.
  - destruct b as [|c b]; simpl in *; [reflexivity | rewrite Hb; reflexivity].
  - apply andb_true_iff in Ha as [Hx Ha]. rewrite Hx, IH; auto.
Qed.

Lemma dropWhile_app (a b : jsstring) :
  forallb p a = true -> stopsAt p b -> dropWhile p (a ++ b) = b.
Proof.
  induction a as [|x a IH]; simpl; intros Ha Hb.
  - destruct b as [|c b]; simpl in *; [reflexivity | rewrite Hb; reflexivity].
  - apply andb_true_iff in Ha as [Hx Ha]. rewrite Hx, IH; auto.
Qed.

Lemma dropWhile_stops (s : jsstring) : stopsAt p (dropWhile p s).
Proof.
  destruct (dropWhile p s) as [|c r] eqn:E; simpl; [exact I|].
  eapply dropWhile_head; eassumption.
Qed.

Lemma dropWhile_length (s : jsstring) :
  List.length (dropWhile p s) <= List.length s.
Proof.
  induction s as [|c r IH]; simpl; [lia|].
  destruct (p c); simpl; lia.
Qed.

Lemma dropWhile_In (s : jsstring) (c : N) :
  In c (dropWhile p s) -> In c s.
Proof.
  induction s as [|x r IH]; simpl; [tauto|].
  destruct (p x); simpl; tauto.
Qed.

Lemma takeWhile_In (s : jsstring) (c : N) :
  In c (takeWhile p s) -> In c s.
Proof.
  induction s as [|x r IH]; simpl; [tauto|].
  destruct (p x); simpl; tauto.
Qed.

Lemma dropWhile_none (s : jsstring) :
  forallb (fun c => negb (p c)) s = true -> dropWhile p s = s.
Proof.
  destruct s as [|c r]; simpl; [reflexivity|].
  intros H. apply andb_true_iff in H as [H _].
  destruct (p c); [discriminate | reflexivity].
Qed.

End JsFacts.

Lemma trim_length (s : jsstring) : List.length (trim s) <= List.length s.
Proof.
  unfold trim, trimEnd, trimStart.
  rewrite length_rev.
  etransitivity; [apply dropWhile_length|].
  rewrite length_rev. apply dropWhile_length.
Qed.

Lemma trim_In (s : jsstring) (c : N) : In c (trim s) -> In c s.
Proof.
  unfold trim, trimEnd, trimStart. intros H.
  apply in_rev, dropWhile_In, in_rev in H.
  eapply dropWhile_In; eassumption.
Qed.

Lemma toLowerCase_length (s : jsstring) :
  List.length (toLowerCase s) = List.length s.
Proof. apply length_map. Qed.

Lemma startsWith_nil (s : jsstring) : startsWith s [] = true.
Proof. destruct s; reflexivity. Qed.

Lemma startsWith_prefix (s q : jsstring) :
  startsWith s q = true <-> exists r, s = q ++ r.
Proof.
  revert s; induction q as [|y q IH]; intros s.
  - rewrite startsWith_nil. split; [eexists; reflexivity | reflexivity].
  - destruct s as [|x s]; simpl.
    + split; [discriminate | intros [r [=]]].
    + rewrite andb_true_iff, N.eqb_eq, IH. split.
      * intros [-> [r ->]]. exists r; reflexivity.
      * intros [r [= -> ->]]. split; [reflexivity | exists r; reflexivity].
  Qed.

Lemma startsWith_app (s a b : jsstring) :
  startsWith s (a ++ b) = true ->
  startsWith s a = true /\ startsWith (skipn (List.length a) s) b = true.
Proof.
  rewrite !startsWith_prefix. intros [r ->]. split.
  - exists (b ++ r). rewrite app_assoc; reflexivity.
  - exists r.
    rewrite <- app_assoc, skipn_app, skipn_all, Nat.sub_diag. reflexivity.
Qed.

Lemma includes_cons (x : N) (s sub : jsstring) :
  includes (x :: s) sub = startsWith (x :: s) sub || includes s sub.
Proof. reflexivity. Qed.

Lemma includes_nil (sub : jsstring) : includes [] sub = startsWith [] sub.
Proof. simpl. apply orb_false_r. Qed.

Lemma startsWith_includes (s sub : jsstring) :
  startsWith s sub = true -> includes s sub = true.
Proof.
  intros H. destruct s.
  - rewrite includes_nil; assumption.
  - rewrite includes_cons, H; reflexivity.
Qed.

Lemma includes_skipn (s sub : jsstring) (n : nat) :
  includes (skipn n s) sub = true -> includes s sub = true.
Proof.
  revert s; induction n as [|n IH]; intros s; [trivial|].
  destruct s as [|x s]; [trivial|]. simpl skipn. intros H.
  apply IH in H. rewrite includes_cons, H. apply orb_true_r.
Qed.

(** A literal that begins a string has each of its parts among the
    substrings of that string. *)
Lemma startsWith_app_includes (s a b : jsstring) :
  startsWith s (a ++ b) = true -> includes s b = true.
Proof.
  intros H. apply startsWith_app in H as [_ H].
  eapply includes_skipn, startsWith_includes, H.
Qed.

Lemma includes_In (s sub : jsstring) (c : N) :
  includes s sub = true -> In c sub -> In c s.
Proof.
  induction s as [|x s IH]; intros H Hc.
  - rewrite includes_nil in H. destruct sub; [destruct Hc | discriminate].
  - rewrite includes_cons in H. apply orb_true_iff in H as [H | H].
    + apply startsWith_prefix in H as [r H]. rewrite H.
      apply in_or_app; left; assumption.
    + right. apply IH; assumption.
Qed.

Lemma includes_nonempty (sub : jsstring) :
  sub <> [] -> includes [] sub = false.
Proof. destruct sub; [congruence | reflexivity]. Qed.

(** ** [split] *)

Lemma splitGo_nonempty (sep : jsstring) (skip : nat) (cur s : jsstring) :
  splitGo sep skip cur s <> [].
Proof.
  revert skip cur; induction s as [|c r IH]; intros skip cur; cbn [splitGo].
  - discriminate.
  - destruct skip; [|apply IH].
    destruct (startsWith (c :: r) sep); [discriminate | apply IH].
Qed.

Lemma splitGo_length (sep : jsstring) (s : jsstring) :
  forall skip cur part,
    In part (splitGo sep skip cur s) ->
    List.length part <= List.length cur + List.length s.
Proof.
  induction s as [|c r IH]; intros skip cur part; cbn [splitGo].
  - intros [<- | []]. rewrite length_rev. lia.
  - cbn [List.length]. destruct skip.
    + destruct (startsWith (c :: r) sep).
      * intros [<- | H].
        -- rewrite length_rev. lia.
        -- apply IH in H. cbn [List.length] in H. lia.
      * intros H. apply IH in H. cbn [List.length] in H. lia.
    + intros H. apply IH in H. lia.
Qed.

(** When the separator occurs, every piece is strictly shorter than the
    string. *)
Lemma splitGo_shorter (sep : jsstring) (s : jsstring) :
  sep <> [] ->
  forall cur part,
    includes s sep = true ->
    In part (splitGo sep 0 cur s) ->
    List.length part < List.length cur + List.length s.
Proof.
  intros Hsep. induction s as [|c r IH]; intros cur part Hin.
  - rewrite includes_nonempty in Hin by assumption. discriminate.
  - cbn [splitGo]. rewrite includes_cons in Hin.
    destruct (startsWith (c :: r) sep).
    + intros [<- | H].
      * rewrite length_rev. cbn [List.length]. lia.
      * apply splitGo_length in H. cbn [List.length] in *. lia.
    + simpl in Hin. intros H. apply IH in H; [cbn [List.length] in *; lia | assumption].
Qed.

Lemma split_shorter (s sep part : jsstring) :
  sep <> [] -> includes s sep = true -> In part (split s sep) ->
  List.length part < List.length s.
Proof.
  intros Hsep Hin H. destruct sep as [|y sep]; [congruence|].
  unfold split in H. eapply splitGo_shorter in H; eauto.
Qed.

(** When the separator occurs, there is a second piece. *)
Lemma splitGo_second (sep : jsstring) (s : jsstring) :
  sep <> [] ->
  forall cur,
    includes s sep = true ->
    exists part, nth_error (splitGo sep 0 cur s) 1 = Some part.
Proof.
  intros Hsep. induction s as [|c r IH]; intros cur Hin.
  - rewrite includes_nonempty in Hin by assumption. discriminate.
  - cbn [splitGo]. rewrite includes_cons in Hin.
    destruct (startsWith (c :: r) sep).
    + simpl. destruct (splitGo sep (List.length sep - 1) [] r) eqn:E.
      * exfalso. eapply splitGo_nonempty; eassumption.
      * eexists; reflexivity.
    + simpl in Hin. apply IH; assumption.
Qed.

Lemma second_ok (s sep : jsstring) :
  sep <> [] -> includes s sep = true ->
  exists part, second (split s sep) = Ok part.
Proof.
  intros Hsep Hin. destruct sep as [|y sep]; [congruence|].
  unfold second, split.
  destruct (splitGo_second (y :: sep) s Hsep [] Hin) as [part ->].
  exists part; reflexivity.
Qed.

(* ================================================================== *)
(** * Facts about outcomes *)

Section ResultFacts.

Variable A : Type.
Variables cb cb' : A -> result bool.

Lemma every_ok (l : list A) :
  (forall x, In x l -> exists b, cb x = Ok b) ->
  exists b, every cb l = Ok b.
Proof.
  induction l as [|x l IH]; intros H; cbn [every].
  - eexists; reflexivity.
  - destruct (H x (or_introl eq_refl)) as [b ->]. cbn [bind].
    destruct b; [|eexists; reflexivity].
    apply IH. intros y Hy. apply H. right; assumption.
Qed.

Lemma some_ok (l : list A) :
  (forall x, In x l -> exists b, cb x = Ok b) ->
  exists b, some cb l = Ok b.
Proof.
  induction l as [|x l IH]; intros H; cbn [some].
  - eexists; reflexivity.
  - destruct (H x (or_introl eq_refl)) as [b ->]. cbn [bind].
    destruct b; [eexists; reflexivity|].
    apply IH. intros y Hy. apply H. right; assumption.
Qed.

Lemma every_ext (l : list A) :
  (forall x, In x l -> cb x = cb' x) -> every cb l = every cb' l.
Proof.
  induction l as [|x l IH]; intros H; cbn [every]; [reflexivity|].
  rewrite (H x (or_introl eq_refl)), IH; [reflexivity|].
  intros y Hy. apply H. right; assumption.
Qed.

Lemma some_ext (l : list A) :
  (forall x, In x l -> cb x = cb' x) -> some cb l = some cb' l.
Proof.
  induction l as [|x l IH]; intros H; cbn [some]; [reflexivity|].
  rewrite (H x (or_introl eq_refl)), IH; [reflexivity|].
  intros y Hy. apply H. right; assumption.
Qed.

(** A callback that always answers makes [filterR] the ordinary
    [filter]. *)
Lemma filterR_total (keep : A -> bool) (l : list A) :
  (forall x, In x l -> cb x = Ok (keep x)) ->
  filterR cb l = Ok (filter keep l).
Proof.
  induction l as [|x l IH]; intros H; cbn [filterR filter]; [reflexivity|].
  rewrite (H x (or_introl eq_refl)), IH.
  - reflexivity.
  - intros y Hy. apply H. right; assumption.
Qed.

End ResultFacts.

(* ================================================================== *)
(** * With room enough for the nested calls the evaluator answers *)

(** After [toLowerCase] no upper-case Basic Latin letter is left, so the
    tests for the upper-case connectives never succeed. *)
Lemma toLowerCase_no_upper (s : jsstring) (c : N) :
  In c (toLowerCase s) -> (65 <= c <= 90)%N -> False.
Proof.
  unfold toLowerCase. rewrite in_map_iff. intros [x [Hx _]] Hc.
  unfold lowerUnit in Hx.
  destruct (N.leb 65 x && N.leb x 90) eqn:E.
  - apply andb_true_iff in E as [E1 E2].
    apply N.leb_le in E1, E2. lia.
  - subst x. apply andb_false_iff in E as [E | E]; apply N.leb_gt in E; lia.
Qed.

Lemma lowered_no_upper (filter sub : jsstring) (c : N) :
  In c sub -> (65 <= c <= 90)%N ->
  includes (trim (toLowerCase filter)) sub = false.
Proof.
  intros Hc Hr.
  destruct (includes (trim (toLowerCase filter)) sub) eqn:E; [|reflexivity].
  exfalso. eapply toLowerCase_no_upper; [|exact Hr].
  eapply trim_In, includes_In; eassumption.
Qed.

Lemma lowered_no_AND (filter : jsstring) :
  includes (trim (toLowerCase filter)) (js " AND ") = false.
Proof.
  apply (lowered_no_upper filter (js " AND ") 65%N); [simpl; tauto | lia].
Qed.

Lemma lowered_no_OR (filter : jsstring) :
  includes (trim (toLowerCase filter)) (js " OR ") = false.
Proof.
  apply (lowered_no_upper filter (js " OR ") 79%N); [simpl; tauto | lia].
Qed.

(** The literal [whole], which begins [filter], contains the separator
    [sep]: then [filter.split(sep)[1]] is defined. *)
Ltac second_defined H pre sep :=
  match goal with
  | |- context [second (split ?f sep)] =>
      let part := fresh "part" in
      let E := fresh "E" in
      destruct (second_ok f sep ltac:(discriminate)
                  (startsWith_app_includes f pre sep H)) as [part E];
      rewrite E; cbn [bind]
  end.

Lemma applyPredicate_ok (today : jsstring) (task : Task) (filter : jsstring) :
  exists b, applyPredicate today task filter = Ok b.
Proof.
  unfold applyPredicate.
  repeat lazymatch goal with
  | |- exists b, Ok _ = Ok b => eexists; reflexivity
  | |- exists b, match dueFilters ?x ?y ?z with _ => _ end = _ =>
      destruct (dueFilters x y z)
  | |- exists b, match priorityFilter ?x ?y with _ => _ end = _ =>
      destruct (priorityFilter x y)
  | H : startsWith _ (js "tag includes ") = true |- _ =>
      second_defined H (@nil N) (js "tag includes "); clear H
  | H : startsWith _ (js "path includes") = true |- _ =>
      second_defined H (js "path ") (js "includes"); clear H
  | H : startsWith _ (js "path does not include") = true |- _ =>
      second_defined H (js "path ") (js "does not include"); clear H
  | H : startsWith _ (js "description includes") = true |- _ =>
      second_defined H (js "description ") (js "includes"); clear H
  | H : startsWith _ (js "description does not include") = true |- _ =>
      second_defined H (js "description ") (js "does not include"); clear H
  | H : startsWith _ (js "priority is") = true |- _ =>
      second_defined H (@nil N) (js "priority is"); clear H
  | |- exists b, (if ?c then _ else _) = Ok b => destruct c eqn:?
  end.
Qed.

Lemma substring_length (s : jsstring) (n : nat) :
  List.length (substring s n) = List.length s - n.
Proof. apply length_skipn. Qed.

Lemma startsWith_length (s q : jsstring) :
  startsWith s q = true -> List.length q <= List.length s.
Proof.
  intros H. apply startsWith_prefix in H as [r ->].
  rewrite length_app. lia.
Qed.

(** The texts handed to the nested calls are shorter than the filter. *)
Lemma part_shorter (filter sep part : jsstring) :
  sep <> [] ->
  includes (trim (toLowerCase filter)) sep = true ->
  In part (split (trim (toLowerCase filter)) sep) ->
  List.length (trim part) < List.length filter.
Proof.
  intros Hsep Hin Hp.
  pose proof (split_shorter _ _ _ Hsep Hin Hp).
  pose proof (trim_length part).
  pose proof (trim_length (toLowerCase filter)).
  rewrite toLowerCase_length in *. lia.
Qed.

Lemma subFilter_shorter (filter : jsstring) :
  startsWith (trim (toLowerCase filter)) (js "not ") = true ->
  List.length (substring (trim (toLowerCase filter)) 4)
  < List.length filter.
Proof.
  intros H. apply startsWith_length in H. cbn in H.
  rewrite substring_length.
  pose proof (trim_length (toLowerCase filter)).
  rewrite toLowerCase_length in *. lia.
Qed.

(** With more fuel than the filter is long, [applyFilter_fuel] returns a
    boolean. *)
Lemma applyFilter_fuel_enough (fuel : nat) :
  forall today task filter,
    List.length filter < fuel ->
    exists b, applyFilter_fuel fuel today task filter = Ok b.
Proof.
  induction fuel as [|fuel IH]; intros today task filter Hlen; [lia|].
  cbn [applyFilter_fuel].
  assert (Hpart : forall sep part,
             sep <> [] ->
             includes (trim (toLowerCase filter)) sep = true ->
             In part (split (trim (toLowerCase filter)) sep) ->
             exists b, applyFilter_fuel fuel today task (trim part) = Ok b).
  { intros sep part Hs Hi Hp. apply IH.
    pose proof (part_shorter filter sep part Hs Hi Hp). lia. }
  destruct (includes _ (js " AND ")) eqn:E1.
  { apply every_ok. intros part. apply Hpart; [discriminate | assumption]. }
  destruct (includes _ (js " OR ")) eqn:E2.
  { apply some_ok. intros part. apply Hpart; [discriminate | assumption]. }
  destruct (includes _ (js " and ")) eqn:E3.
  { apply every_ok. intros part. apply Hpart; [discriminate | assumption]. }
  destruct (includes _ (js " or ")) eqn:E4.
  { apply some_ok. intros part. apply Hpart; [discriminate | assumption]. }
  destruct (startsWith _ (js "not ")) eqn:E5.
  { destruct (IH today task (substring (trim (toLowerCase filter)) 4))
      as [b ->].
    - pose proof (subFilter_shorter filter E5). lia.
    - eexists; reflexivity. }
  apply applyPredicate_ok.
Qed.

(** Beyond that amount the fuel does not matter. *)
Lemma applyFilter_fuel_stable (n : nat) :
  forall m today task filter,
    List.length filter < n -> List.length filter < m ->
    applyFilter_fuel n today task filter
    = applyFilter_fuel m today task filter.
Proof.
  induction n as [|n IH]; intros m today task filter Hn Hm; [lia|].
  destruct m as [|m]; [lia|].
  cbn [applyFilter_fuel].
  assert (Hpart : forall sep part,
             sep <> [] ->
             includes (trim (toLowerCase filter)) sep = true ->
             In part (split (trim (toLowerCase filter)) sep) ->
             applyFilter_fuel n today task (trim part)
             = applyFilter_fuel m today task (trim part)).
  { intros sep part Hs Hi Hp.
    pose proof (part_shorter filter sep part Hs Hi Hp). apply IH; lia. }
  destruct (includes _ (js " AND ")) eqn:E1.
  { apply every_ext. intros part. apply Hpart; [discriminate | assumption]. }
  destruct (includes _ (js " OR ")) eqn:E2.
  { apply some_ext. intros part. apply Hpart; [discriminate | assumption]. }
  destruct (includes _ (js " and ")) eqn:E3.
  { apply every_ext. intros part. apply Hpart; [discriminate | assumption]. }
  destruct (includes _ (js " or ")) eqn:E4.
  { apply some_ext. intros part. apply Hpart; [discriminate | assumption]. }
  destruct (startsWith _ (js "not ")) eqn:E5; [|reflexivity].
  pose proof (subFilter_shorter filter E5).
  rewrite (IH m); [reflexivity | lia | lia].
Qed.

Lemma applyFilter_fuel_applyFilter (fuel : nat) (today : jsstring)
      (task : Task) (filter : jsstring) :
  List.length filter < fuel ->
  applyFilter_fuel fuel today task filter = applyFilter today task filter.
Proof.
  intros H. unfold applyFilter. apply applyFilter_fuel_stable; lia.
Qed.

Lemma applyFilter_ok (today : jsstring) (task : Task) (filter : jsstring) :
  exists b, applyFilter today task filter = Ok b.
Proof. apply applyFilter_fuel_enough. lia. Qed.

(* ================================================================== *)
(** * The defining equation of [applyFilter] *)

(** [applyFilter] satisfies the recursive equation of the source, with the
    nested calls made to [applyFilter] itself. *)
Lemma applyFilter_unfold (today : jsstring) (task : Task)
      (filter : jsstring) :
  applyFilter today task filter =
  let f := trim (toLowerCase filter) in
  let recur := fun part => applyFilter today task (trim part) in
  if includes f (js " AND ") then every recur (split f (js " AND "))
  else if includes f (js " OR ") then some recur (split f (js " OR "))
  else if includes f (js " and ") then every recur (split f (js " and "))
  else if includes f (js " or ") then some recur (split f (js " or "))
  else if startsWith f (js "not ")
  then b <- applyFilter today task (substring f 4) ;; Ok (negb b)
  else applyPredicate today task f.
Proof.
  unfold applyFilter at 1. cbn [applyFilter_fuel]. cbv zeta.
  assert (Hpart : forall sep part,
             sep <> [] ->
             includes (trim (toLowerCase filter)) sep = true ->
             In part (split (trim (toLowerCase filter)) sep) ->
             applyFilter_fuel (List.length filter) today task (trim part)
             = applyFilter today task (trim part)).
  { intros sep part Hs Hi Hp. apply applyFilter_fuel_applyFilter.
    exact (part_shorter filter sep part Hs Hi Hp). }
  destruct (includes _ (js " AND ")) eqn:E1.
  { apply every_ext. intros part. apply Hpart; [discriminate | assumption]. }
  destruct (includes _ (js " OR ")) eqn:E2.
  { apply some_ext. intros part. apply Hpart; [discriminate | assumption]. }
  destruct (includes _ (js " and ")) eqn:E3.
  { apply every_ext. intros part. apply Hpart; [discriminate | assumption]. }
  destruct (includes _ (js " or ")) eqn:E4.
  { apply some_ext. intros part. apply Hpart; [discriminate | assumption]. }
  destruct (startsWith _ (js "not ")) eqn:E5; [|reflexivity].
  rewrite applyFilter_fuel_applyFilter; [reflexivity|].
  exact (subFilter_shorter filter E5).
Qed.

Section Connectives.

Variables (today : jsstring) (task : Task).
Variables (filter f : jsstring).
Hypothesis Hf : trim (toLowerCase filter) = f.

(** A clause with [ and ] is the conjunction of its pieces. *)
Lemma applyFilter_and :
  includes f (js " and ") = true ->
  applyFilter today task filter
  = every (fun part => applyFilter today task (trim part))
          (split f (js " and ")).
Proof.
  intros H. rewrite applyFilter_unfold. cbv zeta.
  rewrite lowered_no_AND, lowered_no_OR, Hf, H. reflexivity.
Qed.

(** A clause with [ or ] and without [ and ] is the disjunction of its
    pieces. *)
Lemma applyFilter_or :
  includes f (js " and ") = false ->
  includes f (js " or ") = true ->
  applyFilter today task filter
  = some (fun part => applyFilter today task (trim part))
         (split f (js " or ")).
Proof.
  intros H1 H2. rewrite applyFilter_unfold. cbv zeta.
  rewrite lowered_no_AND, lowered_no_OR, Hf, H1, H2. reflexivity.
Qed.

(** A clause without connective that begins with [not ] is the negation
    of the rest. *)
Lemma applyFilter_not :
  includes f (js " and ") = false ->
  includes f (js " or ") = false ->
  startsWith f (js "not ") = true ->
  applyFilter today task filter
  = b <- applyFilter today task (substring f 4) ;; Ok (negb b).
Proof.
  intros H1 H2 H3. rewrite applyFilter_unfold. cbv zeta.
  rewrite lowered_no_AND, lowered_no_OR, Hf, H1, H2, H3. reflexivity.
Qed.

(** Any other clause is a predicate. *)
Lemma applyFilter_predicate :
  includes f (js " and ") = false ->
  includes f (js " or ") = false ->
  startsWith f (js "not ") = false ->
  applyFilter today task filter = applyPredicate today task f.
Proof.
  intros H1 H2 H3. rewrite applyFilter_unfold. cbv zeta.
  rewrite lowered_no_AND, lowered_no_OR, Hf, H1, H2, H3. reflexivity.
Qed.

End Connectives.

(* ================================================================== *)
(** * The status predicates *)

Lemma applyFilter_done (today : jsstring) (task : Task) :
  applyFilter today task (js "done")
  = Ok (Status_eqb (status task) complete).
Proof.
  rewrite (applyFilter_predicate today task (js "done") (js "done"))
    by reflexivity.
  reflexivity.
Qed.

(** The branch of the predicates written for [not done] would answer as its
    comment says: only for the tasks that are incomplete or in progress. *)
Lemma applyPredicate_not_done (today : jsstring) (task : Task) :
  applyPredicate today task (js "not done")
  = Ok (Status_eqb (status task) incomplete
        || Status_eqb (status task) in_progress).
Proof. reflexivity. Qed.

(** C1.  The clause [not done] does not reach the branch written for it: it
    begins with [not ], so it is evaluated as the negation of [done], and
    the answer is true for every task whose status is not [complete].  In
    particular it is true for the cancelled task of the line
    [- [-] Cancelled task], where the claim (and the comment in the source)
    asks for false. *)
Theorem C1_not_done_negates_done :
  (forall today task,
      applyFilter today task (js "not done")
      = Ok (negb (Status_eqb (status task) complete)))
  /\ (exists task,
         parseTaskLine (js "- [-] Cancelled task") (js "notes.md") 2
         = Some task
         /\ status task = cancelled
         /\ applyFilter (js "2025-04-18") task (js "not done") = Ok true).
Proof.
  assert (H : forall today task,
             applyFilter today task (js "not done")
             = Ok (negb (Status_eqb (status task) complete))).
  { intros today task.
    rewrite (applyFilter_not today task (js "not done") (js "not done"))
      by reflexivity.
    change (substring (js "not done") 4) with (js "done").
    rewrite applyFilter_done. reflexivity. }
  split; [exact H|].
  eexists. split; [reflexivity|]. split; [reflexivity|].
  rewrite H. reflexivity.
Qed.

(* ================================================================== *)
(** * Mixed connectives *)

(** C2, as stated, fails for a task whose description is [a]: the
    sub-clause [a] holds, [b] and [c] do not, and the clause is false. *)
Lemma C2_or_of_and_fails :
  ~ orOfAnd (js "2025-04-18") (sampleTask incomplete (js "a") []).
Proof.
  intros H.
  specialize (H true false false eq_refl eq_refl eq_refl).
  vm_compute in H. discriminate H.
Qed.

(** C2, amended.  The test for [ and ] comes first: the clause
    [a or b and c] is split on [ and ] into [a or b] and [c], and the left
    piece is then split on [ or ]; the result is (a OR b) AND c. *)
Theorem C2_and_of_or (today : jsstring) (task : Task) (a b c : bool) :
  applyFilter today task (js "a") = Ok a ->
  applyFilter today task (js "b") = Ok b ->
  applyFilter today task (js "c") = Ok c ->
  split (js "a or b and c") (js " and ") = [js "a or b"; js "c"]
  /\ split (js "a or b") (js " or ") = [js "a"; js "b"]
  /\ applyFilter today task (js "a or b and c") = Ok ((a || b) && c).
Proof.
  intros Ha Hb Hc.
  split; [reflexivity|]. split; [reflexivity|].
  rewrite (applyFilter_and today task (js "a or b and c")
             (js "a or b and c")) by reflexivity.
  change (split (js "a or b and c") (js " and "))
    with [js "a or b"; js "c"].
  cbn [every].
  change (trim (js "a or b")) with (js "a or b").
  change (trim (js "c")) with (js "c").
  rewrite (applyFilter_or today task (js "a or b") (js "a or b"))
    by reflexivity.
  change (split (js "a or b") (js " or ")) with [js "a"; js "b"].
  cbn [some].
  change (trim (js "a")) with (js "a").
  change (trim (js "b")) with (js "b").
  rewrite Ha, Hb, Hc. destruct a, b, c; reflexivity.
Qed.

Lemma C2_and_of_or_witness :
  applyFilter (js "2025-04-18") (sampleTask incomplete (js "a") [])
              (js "a or b and c")
  = Ok ((true || false) && false).
Proof.
  apply (C2_and_of_or (js "2025-04-18")
           (sampleTask incomplete (js "a") []) true false false);
    reflexivity.
Defined.

(* ================================================================== *)
(** * The fallback *)

Ltac split_orb :=
  repeat match goal with
         | H : _ || _ = false |- _ =>
             apply orb_false_iff in H; destruct H
         end.

Lemma isUndefined_false (A : Type) (o : option A) :
  negb (isUndefined o) = false -> o = None.
Proof. destruct o; [discriminate | reflexivity]. Qed.

Lemma dueFilters_none (today : jsstring) (task : Task) (f : jsstring) :
  isDuePredicate f = false -> dueFilters today task f = None.
Proof.
  unfold isDuePredicate, arrayIncludes. cbn [existsb]. intros H.
  split_orb. unfold dueFilters.
  repeat match goal with
         | E : negb (isUndefined _) = false |- _ =>
             apply isUndefined_false in E; rewrite E
         | E : streq f _ = false |- _ => rewrite E; clear E
         end.
  destruct (_ || _); reflexivity.
Qed.

Lemma priority_falls_through (task : Task) (wanted : jsstring) :
  arrayIncludes [js "highest"; js "high"; js "medium"; js "low";
                 js "lowest"; js "none"] wanted = false ->
  priorityFilter task wanted = None.
Proof.
  unfold arrayIncludes. cbn [existsb]. intros H.
  split_orb. unfold priorityFilter.
  repeat match goal with
         | E : streq wanted _ = false |- _ => rewrite E; clear E
         end.
  reflexivity.
Qed.

(** A clause that is no predicate of the filter language is looked for in
    the lower-cased description, whatever the lower-casing is. *)
Lemma applyPredicateWith_fallback (lower : jsstring -> jsstring)
      (today : jsstring) (task : Task) (f : jsstring) :
  isPredicate f = false ->
  applyPredicateWith lower today task f
  = Ok (includes (lower (description task)) f).
Proof.
  unfold isPredicate, arrayIncludes. cbn [existsb]. intros H.
  split_orb. unfold applyPredicateWith.
  rewrite (dueFilters_none today task f) by assumption.
  repeat match goal with
         | E : streq f _ = false |- _ => rewrite E; clear E
         | E : startsWith f _ = false |- _ => rewrite E; clear E
         end.
  cbv zeta.
  destruct (startsWith f (js "priority is")) eqn:E; [|reflexivity].
  destruct (second_ok f (js "priority is") ltac:(discriminate)
              (startsWith_includes _ _ E)) as [part Hp].
  rewrite Hp. cbn [bind].
  unfold isPriorityPredicate in *. rewrite E in *.
  unfold second in Hp.
  destruct (nth_error (split f (js "priority is")) 1) as [q|];
    [|discriminate].
  injection Hp as ->.
  rewrite priority_falls_through; [reflexivity|].
  match goal with X : true && _ = false |- _ => exact X end.
Qed.


(* ================================================================== *)
(** * The recogniser and the shape of a task line *)

Lemma parseTaskLine_inv (line fp : jsstring) (n : nat) (t : Task) :
  parseTaskLine line fp n = Some t ->
  exists m,
    TaskRegex.taskRegex line = Some m
    /\ statusSymbol t = TaskRegex.statusChar m
    /\ status t = statusOf (TaskRegex.statusChar m)
    /\ description t = trim (TaskRegex.body m)
    /\ tags t = filter (fun tag => Nat.ltb 0 (List.length tag))
                       (map trim (TaskRegex.hashTags (trim (TaskRegex.body m))))
    /\ priority t
       = priorityOf (TaskRegex.priorityMatches (trim (TaskRegex.body m)))
    /\ originalMarkdown t = line.
Proof.
  unfold parseTaskLine.
  destruct (TaskRegex.taskRegex line) as [m|]; [|discriminate].
  intros [= <-]. exists m. cbn. repeat split; reflexivity.
Qed.

Lemma digit_cases (x : N) :
  isDigit x = true ->
  In x [48; 49; 50; 51; 52; 53; 54; 55; 56; 57]%N.
Proof.
  unfold isDigit. intros H. apply andb_true_iff in H as [H1 H2].
  apply N.leb_le in H1, H2. simpl.
  assert (x = 48 \/ x = 49 \/ x = 50 \/ x = 51 \/ x = 52 \/ x = 53
          \/ x = 54 \/ x = 55 \/ x = 56 \/ x = 57)%N by lia.
  intuition auto.
Qed.

(** A list marker begins with a character that is no indentation. *)
Lemma listMarker_stops_indent (mk rest : jsstring) :
  isListMarker mk -> stopsAt TaskRegex.isIndentChar (mk ++ rest).
Proof.
  intros [[c [-> Hc]] | [ds [d [-> [Hne [Hds _]]]]]].
  - simpl in Hc. cbn [app stopsAt].
    destruct Hc as [<- | [<- | [<- | []]]]; reflexivity.
  - destruct ds as [|x ds]; [congruence|]. cbn [app stopsAt].
    cbn [forallb] in Hds. apply andb_true_iff in Hds as [Hx _].
    apply digit_cases in Hx. simpl in Hx.
    repeat (destruct Hx as [<- | Hx]; [reflexivity|]). destruct Hx.
Qed.

Lemma listMarker_sound (s mk r : jsstring) :
  TaskRegex.listMarkerRegex s = Some (mk, r) -> isListMarker mk /\ s = mk ++ r.
Proof.
  unfold TaskRegex.listMarkerRegex. destruct s as [|c r0]; [discriminate|].
  destruct (inSet c [45; 42; 43]%N) eqn:E.
  - intros [= <- <-]. split; [|reflexivity].
    left. exists c. split; [reflexivity | apply inSet_In; assumption].
  - pose proof (takeWhile_dropWhile isDigit (c :: r0)) as Hsplit.
    pose proof (takeWhile_forallb isDigit (c :: r0)) as Hdig.
    destruct (takeWhile isDigit (c :: r0)) as [|x ds]; [discriminate|].
    destruct (dropWhile isDigit (c :: r0)) as [|d r']; [discriminate|].
    destruct (inSet d [46; 41]%N) eqn:Ed; [|discriminate].
    intros [= <- <-]. split.
    + right. exists (x :: ds), d.
      repeat split; [discriminate | assumption | apply inSet_In; assumption].
    + rewrite <- Hsplit. cbn [app]. f_equal.
      rewrite <- app_assoc. reflexivity.
Qed.

Lemma listMarker_complete (mk r : jsstring) :
  isListMarker mk -> TaskRegex.listMarkerRegex (mk ++ r) = Some (mk, r).
Proof.
  intros [[c [-> Hc]] | [ds [d [-> [Hne [Hds Hd]]]]]].
  - apply inSet_In in Hc. cbn [app TaskRegex.listMarkerRegex]. rewrite Hc.
    reflexivity.
  - assert (Hstop : stopsAt isDigit ([d] ++ r)).
    { simpl in Hd. cbn [app stopsAt].
      destruct Hd as [<- | [<- | []]]; reflexivity. }
    rewrite <- app_assoc.
    pose proof (takeWhile_app isDigit ds ([d] ++ r) Hds Hstop) as Ht.
    pose proof (dropWhile_app isDigit ds ([d] ++ r) Hds Hstop) as Hdr.
    destruct ds as [|x ds]; [congruence|].
    unfold TaskRegex.listMarkerRegex. cbn [app] in *.
    assert (Hx : inSet x [45; 42; 43]%N = false).
    { cbn [forallb] in Hds. apply andb_true_iff in Hds as [Hx _].
      apply digit_cases in Hx. simpl in Hx.
      repeat (destruct Hx as [<- | Hx]; [reflexivity|]). destruct Hx. }
    rewrite Hx, Ht, Hdr.
    apply inSet_In in Hd. rewrite Hd. reflexivity.
Qed.

Lemma dotU_sound (s c r : jsstring) :
  TaskRegex.dotU s = Some (c, r) -> isCodePoint c /\ s = c ++ r.
Proof.
  unfold TaskRegex.dotU. destruct s as [|x s]; [discriminate|].
  destruct (isLineTerminator x) eqn:El; [discriminate|].
  assert (Hone : isCodePoint [x]) by (left; exists x; auto).
  destruct (isHighSurrogate x) eqn:Eh.
  - destruct s as [|d s'].
    + intros [= <- <-]. auto.
    + destruct (isLowSurrogate d) eqn:Ed; intros [= <- <-]; [|auto].
      split; [|reflexivity]. right. exists x, d. auto.
  - intros [= <- <-]. auto.
Qed.

Lemma dotU_complete (c rest : jsstring) :
  isCodePoint c ->
  TaskRegex.dotU (c ++ 93%N :: rest) = Some (c, 93%N :: rest).
Proof.
  intros [[x [-> Hx]] | [h [l [-> [Hh Hl]]]]];
    unfold TaskRegex.dotU; cbn [app].
  - rewrite Hx. destruct (isHighSurrogate x); reflexivity.
  - assert (Hlt : isLineTerminator h = false).
    { unfold isHighSurrogate in Hh. apply andb_true_iff in Hh as [H1 H2].
      apply N.leb_le in H1, H2.
      unfold isLineTerminator, inSet. cbn [existsb].
      repeat (apply orb_false_iff; split); try reflexivity;
        apply N.eqb_neq; lia. }
    rewrite Hlt, Hh, Hl. reflexivity.
Qed.

Lemma checkboxRegex_sound (s c r : jsstring) :
  TaskRegex.checkboxRegex s = Some (c, r) ->
  isCodePoint c /\ s = [91%N] ++ c ++ [93%N] ++ r.
Proof.
  unfold TaskRegex.checkboxRegex.
  destruct s as [|b r0]; [discriminate|].
  destruct (N.eq_dec b 91) as [-> | Hb].
  2:{ intros H. exfalso. destruct b as [|b']; [discriminate H|].
      repeat (destruct b' as [b'|b'|]; try discriminate H); congruence. }
  destruct (TaskRegex.dotU r0) as [[c' r1]|] eqn:Ec; [|discriminate].
  apply dotU_sound in Ec as [Hc ->].
  destruct r1 as [|e r2]; [discriminate|].
  destruct (N.eq_dec e 93) as [-> | He].
  2:{ intros H. exfalso. destruct e as [|e']; [discriminate H|].
      repeat (destruct e' as [e'|e'|]; try discriminate H); congruence. }
  intros [= <- <-]. split; [assumption | reflexivity].
Qed.

Lemma checkboxRegex_complete (c rest : jsstring) :
  isCodePoint c ->
  TaskRegex.checkboxRegex ([91%N] ++ c ++ [93%N] ++ rest) = Some (c, rest).
Proof.
  intros Hc. cbn [app TaskRegex.checkboxRegex].
  rewrite dotU_complete by assumption. reflexivity.
Qed.

Lemma spacesPlus_sound (s r : jsstring) :
  TaskRegex.spacesPlus s = Some r ->
  exists sp, sp <> [] /\ forallb (N.eqb 32) sp = true /\ s = sp ++ r.
Proof.
  unfold TaskRegex.spacesPlus.
  pose proof (takeWhile_dropWhile (N.eqb 32) s) as Hs.
  pose proof (takeWhile_forallb (N.eqb 32) s) as Hsp.
  destruct (takeWhile (N.eqb 32) s) as [|s0 sp]; [discriminate|].
  intros [= <-]. exists (s0 :: sp).
  repeat split; [discriminate | assumption | symmetry; assumption].
Qed.

Lemma spacesPlus_complete (sp r : jsstring) :
  sp <> [] -> forallb (N.eqb 32) sp = true -> stopsAt (N.eqb 32) r ->
  TaskRegex.spacesPlus (sp ++ r) = Some r.
Proof.
  intros Hne Hsp Hr. unfold TaskRegex.spacesPlus.
  rewrite (takeWhile_app _ sp r Hsp Hr), (dropWhile_app _ sp r Hsp Hr).
  destruct sp; [congruence | reflexivity].
Qed.

(** A match of [taskRegex] decomposes the line in the shape of a task. *)
Lemma taskRegex_sound (line : jsstring) (m : TaskRegex.TaskMatch) :
  TaskRegex.taskRegex line = Some m ->
  TaskShape line (TaskRegex.statusChar m).
Proof.
  unfold TaskRegex.taskRegex, TaskRegex.indentationRegex.
  pose proof (takeWhile_dropWhile TaskRegex.isIndentChar line) as Hline.
  pose proof (takeWhile_forallb TaskRegex.isIndentChar line) as Hind.
  destruct (TaskRegex.listMarkerRegex _) as [[mk r2]|] eqn:Emk;
    [|discriminate].
  apply listMarker_sound in Emk as [Hmk Hr1].
  destruct (TaskRegex.spacesPlus r2) as [r3|] eqn:Esp; [|discriminate].
  apply spacesPlus_sound in Esp as [sp [Hne [Hsp ->]]].
  destruct (TaskRegex.checkboxRegex r3) as [[c r4]|] eqn:Ec; [|discriminate].
  apply checkboxRegex_sound in Ec as [Hc ->].
  intros [= <-]. cbn [TaskRegex.statusChar].
  apply TaskShape_intro
    with (indent := takeWhile TaskRegex.isIndentChar line) (mk := mk)
         (spaces := sp) (rest := r4);
    try assumption.
  rewrite <- Hline at 1. rewrite Hr1. reflexivity.
Qed.

(** A line in the shape of a task is matched by [taskRegex], and the
    symbol of the shape is the captured character. *)
Lemma taskRegex_complete (line symbol : jsstring) :
  TaskShape line symbol ->
  exists m, TaskRegex.taskRegex line = Some m
            /\ TaskRegex.statusChar m = symbol.
Proof.
  intros [indent mk sp rest Hind Hmk Hne Hsp Hc ->].
  unfold TaskRegex.taskRegex, TaskRegex.indentationRegex.
  pose proof (listMarker_stops_indent mk
                (sp ++ [91%N] ++ symbol ++ [93%N] ++ rest) Hmk) as Hstop.
  rewrite (dropWhile_app _ indent _ Hind Hstop).
  rewrite (takeWhile_app _ indent _ Hind Hstop).
  rewrite listMarker_complete by assumption.
  rewrite spacesPlus_complete by (assumption || reflexivity).
  rewrite checkboxRegex_complete by assumption.
  eexists. split; reflexivity.
Qed.

(** C3.  The status of a recognised line is the image of its status symbol
    under a fixed table: [x] and [X] give complete, [-] cancelled, [/]
    in progress, the space, [>] and [<] incomplete, and every other symbol
    non_task.  A line in the shape of a task is returned as a task whatever
    code point its checkbox holds. *)
Theorem C3_status_from_symbol (line fp : jsstring) (n : nat) :
  (forall t,
      parseTaskLine line fp n = Some t ->
      status t = statusOf (statusSymbol t)
      /\ (statusSymbol t = js "x" \/ statusSymbol t = js "X" ->
          status t = complete)
      /\ (statusSymbol t = js "-" -> status t = cancelled)
      /\ (statusSymbol t = js "/" -> status t = in_progress)
      /\ (statusSymbol t = js " " \/ statusSymbol t = js ">"
          \/ statusSymbol t = js "<" -> status t = incomplete)
      /\ (~ In (statusSymbol t)
               [js "x"; js "X"; js "-"; js "/"; js " "; js ">"; js "<"] ->
          status t = non_task))
  /\ (forall symbol,
         TaskShape line symbol ->
         exists t, parseTaskLine line fp n = Some t
                   /\ statusSymbol t = symbol).
Proof.
  split.
  - intros t Ht.
    destruct (parseTaskLine_inv _ _ _ _ Ht) as [m [_ [Hsym [Hst _]]]].
    rewrite <- Hsym in Hst. rewrite Hst.
    split; [reflexivity|].
    repeat split.
    + intros [-> | ->]; reflexivity.
    + intros ->; reflexivity.
    + intros ->; reflexivity.
    + intros [-> | [-> | ->]]; reflexivity.
    + intros Hnot. unfold statusOf.
      repeat match goal with
             | |- (if arrayIncludes ?l ?s then _ else _) = _ =>
                 let E := fresh "E" in
                 destruct (arrayIncludes l s) eqn:E;
                 [exfalso; apply Hnot; apply arrayIncludes_In in E;
                  simpl in E |- *; intuition auto |]
             end.
      reflexivity.
  - intros symbol Hshape.
    destruct (taskRegex_complete _ _ Hshape) as [m [Hm Hsym]].
    unfold parseTaskLine. rewrite Hm. eexists. split; [reflexivity|].
    exact Hsym.
Qed.

Lemma C3_status_from_symbol_witness :
  exists t,
    parseTaskLine (js "- [?] Question task") (js "notes.md") 6 = Some t
    /\ status t = non_task.
Proof.
  destruct (C3_status_from_symbol (js "- [?] Question task")
              (js "notes.md") 6) as [Htable Hkept].
  destruct (Hkept (js "?")) as [t [Ht Hsym]].
  { apply TaskShape_intro
      with (indent := []) (mk := js "-") (spaces := js " ")
           (rest := js " Question task").
    - reflexivity.
    - left. exists 45%N. split; [reflexivity | simpl; tauto].
    - discriminate.
    - reflexivity.
    - left. exists 63%N. split; reflexivity.
    - reflexivity. }
  exists t. split; [exact Ht|].
  apply (Htable t Ht). rewrite Hsym. simpl.
  intros H. repeat (destruct H as [H | H]; [discriminate H|]). exact H.
Defined.

(** C8.  A line that is not in the shape of a task (indentation, list
    marker, spaces, checkbox) is answered by [null]: no task, no error. *)
Theorem C8_no_shape_no_task (line fp : jsstring) (n : nat) :
  (forall symbol, ~ TaskShape line symbol) ->
  parseTaskLine line fp n = None.
Proof.
  intros Hno.
  destruct (parseTaskLine line fp n) as [t|] eqn:Ht; [|reflexivity].
  destruct (parseTaskLine_inv _ _ _ _ Ht) as [m [Hm _]].
  exfalso. exact (Hno _ (taskRegex_sound _ _ Hm)).
Qed.

Lemma C8_no_shape_no_task_witness :
  parseTaskLine (js "- a list item without checkbox") (js "notes.md") 3
  = None.
Proof.
  apply C8_no_shape_no_task. intros symbol Hshape.
  destruct (taskRegex_complete _ _ Hshape) as [m [Hm _]].
  vm_compute in Hm. discriminate Hm.
Defined.

(** C9.  The task recognised on a line keeps the line as it was in its
    field [originalMarkdown], and [taskToString] gives the line back. *)
Theorem C9_round_trip (line fp : jsstring) (n : nat) (t : Task) :
  parseTaskLine line fp n = Some t ->
  originalMarkdown t = line /\ taskToString t = line.
Proof.
  intros Ht.
  destruct (parseTaskLine_inv _ _ _ _ Ht) as [m [_ [_ [_ [_ [_ [_ H]]]]]]].
  split; [exact H | exact H].
Qed.

Lemma C9_round_trip_witness :
  exists t,
    parseTaskLine (js "  - [x] Water the plants #home") (js "notes.md") 4
    = Some t
    /\ taskToString t = js "  - [x] Water the plants #home".
Proof.
  eexists. split; [reflexivity|].
  eapply (C9_round_trip (js "  - [x] Water the plants #home")
            (js "notes.md") 4).
  reflexivity.
Defined.

(* ================================================================== *)
(** * The first priority marker *)

Section Search.

Variable A : Type.
Variable m : jsstring -> option A.

Lemma search_unfold (s : jsstring) :
  search m s = match m s with
               | Some a => Some a
               | None => match s with
                         | [] => None
                         | _ :: r => search m r
                         end
               end.
Proof. destruct s; reflexivity. Qed.

(** The search answers with the attempt at the first position where an
    attempt succeeds. *)
Lemma search_first (i : nat) :
  forall s a,
    (forall j, j < i -> m (skipn j s) = None) ->
    m (skipn i s) = Some a ->
    search m s = Some a.
Proof.
  induction i as [|i IH]; intros s a Hbefore Hat; rewrite search_unfold.
  - cbn [skipn] in Hat. rewrite Hat. reflexivity.
  - pose proof (Hbefore 0 (Nat.lt_0_succ i)) as H0. cbn [skipn] in H0.
    rewrite H0. destruct s as [|x r].
    + cbn [skipn] in Hat. congruence.
    + apply IH.
      * intros j Hj. apply (Hbefore (S j)). lia.
      * exact Hat.
Qed.

Lemma search_none (s : jsstring) :
  (forall i, m (skipn i s) = None) -> search m s = None.
Proof.
  induction s as [|x r IH]; intros H; rewrite search_unfold;
    pose proof (H 0) as H0; cbn [skipn] in H0; rewrite H0; [reflexivity|].
  apply IH. intros i. apply (H (S i)).
Qed.

End Search.

Lemma priorityAt_marker (s g level : jsstring) :
  In (g, level) priorityGlyphs ->
  startsWith s g = true ->
  (g = TaskRegex.gHigh -> startsWith s TaskRegex.gHighest <> true) ->
  TaskRegex.priorityAt s = Some g /\ levelOf g = Some level.
Proof.
  intros Hin Hg Htie. simpl in Hin.
  destruct Hin as [E | [E | [E | [E | [E | []]]]]];
    injection E as <- <-; (split; [|reflexivity]);
    unfold TaskRegex.priorityAt.
  - rewrite Hg. reflexivity.
  - destruct (startsWith s TaskRegex.gHighest) eqn:E1.
    + exfalso. apply Htie; reflexivity.
    + rewrite Hg. reflexivity.
  - apply startsWith_prefix in Hg as [r ->]. reflexivity.
  - apply startsWith_prefix in Hg as [r ->]. reflexivity.
  - apply startsWith_prefix in Hg as [r ->].
    destruct r as [|y r]; [reflexivity|].
    cbn. destruct (N.eqb y 9195); reflexivity.
Qed.

Lemma priorityAt_none (s : jsstring) :
  (forall g, In g (map fst priorityGlyphs) -> startsWith s g <> true) ->
  TaskRegex.priorityAt s = None.
Proof.
  intros H. unfold TaskRegex.priorityAt.
  repeat match goal with
         | |- (if startsWith s ?g then _ else _) = _ =>
             let E := fresh "E" in
             destruct (startsWith s g) eqn:E;
             [exfalso; apply (H g); [simpl; tauto | exact E] |]
         end.
  reflexivity.
Qed.

(** The first of all the matches is the match found by one search. *)
Lemma matchAll_head (attempt : jsstring -> option jsstring) (s : jsstring) :
  attempt [] = None ->
  forall atStart,
    hd_error (matchAllGo (fun _ => attempt) 0 atStart s) = search attempt s.
Proof.
  intros Hnil. induction s as [|c r IH]; intros atStart;
    rewrite search_unfold.
  - rewrite Hnil. reflexivity.
  - cbn [matchAllGo].
    destruct (attempt (c :: r)) as [m|]; [reflexivity | apply IH].
Qed.

Lemma priorityOf_search (s : jsstring) :
  priorityOf (TaskRegex.priorityMatches s)
  = match search TaskRegex.priorityAt s with
    | Some g => levelOf g
    | None => None
    end.
Proof.
  unfold TaskRegex.priorityMatches, matchAll.
  rewrite <- (matchAll_head TaskRegex.priorityAt s eq_refl true).
  destruct (matchAllGo _ 0 true s); reflexivity.
Qed.

(** C4.  The priority of a recognised line is the level of the marker that
    stands leftmost in the description, whatever the levels of the markers
    after it; a doubled glyph counts as the one marker of the highest
    level.  Without any marker the priority is absent. *)
Theorem C4_first_marker_decides
        (line fp : jsstring) (n : nat) (t : Task) :
  parseTaskLine line fp n = Some t ->
  (forall i g level,
      In (g, level) priorityGlyphs ->
      markerAt (description t) i g ->
      (forall j, j < i -> noMarkerAt (description t) j) ->
      priority t = Some level)
  /\ ((forall i, noMarkerAt (description t) i) -> priority t = None).
Proof.
  intros Ht.
  destruct (parseTaskLine_inv _ _ _ _ Ht)
    as [m [_ [_ [_ [Hd [_ [Hp _]]]]]]].
  rewrite <- Hd in Hp. rewrite Hp, priorityOf_search. split.
  - intros i g level Hin [Hat Htie] Hbefore.
    destruct (priorityAt_marker (skipn i (description t)) g level Hin Hat)
      as [Hm Hl].
    { intros Hg. apply Htie. exact Hg. }
    rewrite (search_first _ _ i (description t) g); [exact Hl | | exact Hm].
    intros j Hj. apply priorityAt_none. intros g' Hg'.
    exact (Hbefore j Hj g' Hg').
  - intros Hnone. rewrite search_none; [reflexivity|].
    intros i. apply priorityAt_none. exact (Hnone i).
Qed.

Lemma C4_first_marker_decides_witness :
  exists t,
    parseTaskLine (js "- [ ] Pay rent " ++ TaskRegex.gMedium ++ js " then "
                   ++ TaskRegex.gHighest) (js "notes.md") 5 = Some t
    /\ priority t = Some (js "medium").
Proof.
  eexists. split; [reflexivity|].
  eapply (proj1 (C4_first_marker_decides
                   (js "- [ ] Pay rent " ++ TaskRegex.gMedium ++ js " then "
                    ++ TaskRegex.gHighest) (js "notes.md") 5 _ eq_refl))
    with (i := 9) (g := TaskRegex.gMedium).
  - simpl. tauto.
  - split; [reflexivity | discriminate].
  - intros j Hj g Hg.
    do 9 (destruct j as [|j];
          [simpl in Hg;
           repeat (destruct Hg as [<- | Hg]; [discriminate|]); destruct Hg|]).
    lia.
Defined.

(* ================================================================== *)
(** * Queries *)

Lemma passesAll_forallb (today : jsstring) (task : Task)
      (filters : list jsstring) :
  passesAll today task filters
  = Ok (forallb (fun f => holds (applyFilter today task f)) filters).
Proof.
  induction filters as [|f fs IH]; cbn [passesAll forallb]; [reflexivity|].
  destruct (applyFilter_ok today task f) as [b Hb]. rewrite Hb.
  cbn [bind holds]. destruct b; cbn [negb andb]; [exact IH | reflexivity].
Qed.

(** [queryTasks], with the stack it needs, answers with the tasks that pass
    every filter. *)
Lemma queryTasks_filter (today : jsstring) (tasks : list Task)
      (queryText : jsstring) :
  queryTasks today tasks queryText
  = Ok (filter (fun t => forallb (fun f => holds (applyFilter today t f))
                                 (parseQuery queryText)) tasks).
Proof.
  unfold queryTasks. apply filterR_total.
  intros t _. apply passesAll_forallb.
Qed.

Lemma parseQuery_In (queryText line : jsstring) :
  In line (parseQuery queryText) <-> isFilterLine queryText line.
Proof.
  unfold parseQuery, isFilterLine.
  rewrite filter_In, in_map_iff, andb_true_iff, !negb_true_iff. split.
  - intros [[raw [<- Hraw]] [Hne Hc]]. exists raw.
    repeat split; try assumption.
    intros E. rewrite E in Hne. discriminate Hne.
  - intros [raw [Hraw [-> [Hne Hc]]]]. split; [exists raw; auto|].
    split; [|assumption].
    destruct (trim raw); [congruence | reflexivity].
Qed.

Lemma holds_true (r : result bool) : holds r = true <-> r = Ok true.
Proof.
  destruct r as [[|]| |]; cbn; split; congruence.
Qed.

Lemma streq_sym (a b : jsstring) : streq a b = streq b a.
Proof.
  destruct (streq a b) eqn:E.
  - apply streq_eq in E. subst. symmetry. apply streq_refl.
  - symmetry. apply streq_neq. apply streq_neq in E. congruence.
Qed.

Lemma existsb_ext_in (A : Type) (f g : A -> bool) (l : list A) :
  (forall x, In x l -> f x = g x) -> existsb f l = existsb g l.
Proof.
  induction l as [|x l IH]; intros H; cbn [existsb]; [reflexivity|].
  rewrite (H x (or_introl eq_refl)), IH; [reflexivity|].
  intros y Hy. apply H. right; assumption.
Qed.

Lemma applyFilter_has_tag_work (today : jsstring) (task : Task) :
  applyFilter today task (js "has tag work")
  = Ok (existsb (fun tag => streq (stripHash tag) (js "work")) (tags task)).
Proof.
  rewrite (applyFilter_predicate today task (js "has tag work")
             (js "has tag work")) by reflexivity.
  reflexivity.
Qed.

(** Matching [work] once a leading hash is removed is being [#work] or
    [work]. *)
Lemma stripHash_work (tag : jsstring) :
  streq (stripHash tag) (js "work")
  = streq (js "#work") tag || streq (js "work") tag.
Proof.
  destruct tag as [|c r]; [reflexivity|].
  destruct (N.eq_dec c 35) as [-> | Hc].
  - cbn [stripHash].
    change (js "#work") with (35%N :: js "work").
    change (streq (35%N :: js "work") (35%N :: r))
      with (N.eqb 35 35 && streq (js "work") r).
    change (streq (js "work") (35%N :: r)) with (false && streq (js "ork") r).
    cbn [N.eqb Pos.eqb andb]. rewrite orb_false_r. apply streq_sym.
  - assert (E : stripHash (c :: r) = c :: r).
    { destruct c as [|c]; [reflexivity|].
      cbn [stripHash].
      repeat (destruct c as [c|c|]; try reflexivity). congruence. }
    rewrite E.
    change (js "#work") with (35%N :: js "work").
    change (streq (35%N :: js "work") (c :: r))
      with (N.eqb 35 c && streq (js "work") r).
    apply N.eqb_neq in Hc. rewrite N.eqb_sym in Hc.
    rewrite Hc. cbn [andb orb]. apply streq_sym.
Qed.

Lemma existsb_orb (A : Type) (f g : A -> bool) (l : list A) :
  existsb (fun x => f x || g x) l = existsb f l || existsb g l.
Proof.
  induction l as [|x l IH]; cbn [existsb]; [reflexivity|].
  rewrite IH. destruct (f x), (g x), (existsb f l); reflexivity.
Qed.

(** A tag that carries its hash is not [work]. *)
Lemma hashed_tag_not_work (tag : jsstring) :
  startsWith tag (js "#") = true -> streq (js "work") tag = false.
Proof.
  intros H. apply startsWith_prefix in H as [r ->]. reflexivity.
Qed.

(** Outside the data model: a task built by hand with the tag [work],
    written without hash, is kept by [has tag work], which compares the
    tags with their leading hash removed. *)
Example tag_without_hash_is_kept :
  queryTasks (js "2025-04-18")
             [sampleTask complete (js "File taxes") [js "work"]]
             doneAndWork
  = Ok [sampleTask complete (js "File taxes") [js "work"]].
Proof. reflexivity. Qed.

(** C5.  [queryTasks] keeps exactly the tasks for which every line of the
    query that counts (trimmed, not empty, not a comment) evaluates to
    true: a conjunction over the lines.  For the query made of the lines
    [done] and [has tag work] these are the complete tasks whose tags
    contain [#work] or [work]; the tags of a task carry their hash (the
    data model says so, and recognised lines have such tags, see
    [parseTaskLine_tagsHashed]), and then these are exactly the complete
    tasks whose tags contain [#work]. *)
Theorem C5_query_is_conjunction_of_lines
        (today : jsstring) (tasks : list Task) (queryText : jsstring) :
  (exists keep : Task -> bool,
      queryTasks today tasks queryText = Ok (filter keep tasks)
      /\ forall t,
          keep t = true
          <-> (forall line, isFilterLine queryText line ->
                            applyFilter today t line = Ok true))
  /\ queryTasks today tasks doneAndWork = Ok (filter completeWithWork tasks)
  /\ ((forall t, In t tasks -> tagsHashed t) ->
      queryTasks today tasks doneAndWork
      = Ok (filter completeWithWorkTag tasks)).
Proof.
  assert (Hq : queryTasks today tasks doneAndWork
               = Ok (filter completeWithWork tasks)).
  { rewrite queryTasks_filter. f_equal.
    apply filter_ext. intros t.
    change (parseQuery doneAndWork) with [js "done"; js "has tag work"].
    cbn [forallb]. rewrite applyFilter_done, applyFilter_has_tag_work.
    cbn [holds]. rewrite andb_true_r. unfold completeWithWork. f_equal.
    rewrite <- existsb_orb. apply existsb_ext_in.
    intros tag _. apply stripHash_work. }
  split; [|split; [exact Hq|]].
  - eexists. split; [apply queryTasks_filter|].
    intros t. cbv beta. rewrite forallb_forall. split.
    + intros H line Hl. apply holds_true, H, parseQuery_In, Hl.
    + intros H line Hl. apply holds_true, H, parseQuery_In, Hl.
  - intros Hwf. rewrite Hq. f_equal.
    apply filter_ext_in. intros t Ht.
    unfold completeWithWork, completeWithWorkTag. f_equal.
    destruct (existsb (streq (js "work")) (tags t)) eqn:E;
      [|apply orb_false_r].
    apply existsb_exists in E as [tag [Htag E]].
    rewrite (hashed_tag_not_work tag (Hwf t Ht tag Htag)) in E.
    discriminate E.
Qed.

Lemma C5_query_is_conjunction_of_lines_witness :
  queryTasks (js "2025-04-18")
             [sampleTask complete (js "File taxes #work") [js "#work"];
              sampleTask incomplete (js "Call Ann #work") [js "#work"];
              sampleTask complete (js "Mow lawn #home") [js "#home"]]
             doneAndWork
  = Ok [sampleTask complete (js "File taxes #work") [js "#work"]].
Proof.
  apply (proj2 (proj2 (C5_query_is_conjunction_of_lines (js "2025-04-18")
                  [sampleTask complete (js "File taxes #work") [js "#work"];
                   sampleTask incomplete (js "Call Ann #work") [js "#work"];
                   sampleTask complete (js "Mow lawn #home") [js "#home"]]
                  []))).
  intros t Ht tag Htag. simpl in Ht.
  destruct Ht as [<- | [<- | [<- | []]]]; simpl in Htag;
    destruct Htag as [<- | []]; reflexivity.
Defined.

(* ================================================================== *)
(** * The result of a query is a sublist of the tasks *)

Lemma filter_Sublist (A : Type) (keep : A -> bool) (l : list A) :
  Sublist (filter keep l) l.
Proof.
  induction l as [|x l IH]; cbn [filter]; [constructor|].
  destruct (keep x); constructor; exact IH.
Qed.

Lemma Sublist_In (A : Type) (l m : list A) :
  Sublist l m -> forall x, In x l -> In x m.
Proof.
  induction 1 as [|x l m _ IH|x l m _ IH]; intros y; simpl; [tauto| |].
  - intros H. right. apply IH, H.
  - intros [-> | H]; [left; reflexivity | right; apply IH, H].
Qed.

Lemma Sublist_count (A : Type) (l m : list A) (p : A -> bool) :
  Sublist l m -> List.length (filter p l) <= List.length (filter p m).
Proof.
  induction 1 as [|x l m _ IH|x l m _ IH]; cbn [filter]; [lia| |];
    destruct (p x); cbn [List.length]; lia.
Qed.

(** C10.  The answer of [queryTasks] is the list of tasks with some
    elements dropped: the tasks kept stand in their original order, each is
    an element of the input, unchanged, and none occurs more often than in
    the input (whatever property [p] is used to tell occurrences). *)
Theorem C10_query_result_is_sublist
        (today : jsstring) (tasks : list Task) (queryText : jsstring) :
  exists kept,
    queryTasks today tasks queryText = Ok kept
    /\ Sublist kept tasks
    /\ (forall t, In t kept -> In t tasks)
    /\ (forall p : Task -> bool,
           List.length (filter p kept) <= List.length (filter p tasks)).
Proof.
  eexists. split; [apply queryTasks_filter|].
  pose proof (filter_Sublist Task
                (fun t => forallb (fun f => holds (applyFilter today t f))
                                  (parseQuery queryText)) tasks) as H.
  split; [exact H|]. split.
  - apply Sublist_In, H.
  - intros p. apply Sublist_count, H.
Qed.

(* ================================================================== *)
(** * Tags *)

Lemma dropWhile_app_stop (p : N -> bool) (a : jsstring) (x : N)
      (b : jsstring) :
  p x = false -> dropWhile p (a ++ x :: b) = dropWhile p a ++ x :: b.
Proof.
  intros Hx. induction a as [|y a IH]; cbn [app dropWhile].
  - rewrite Hx. reflexivity.
  - destruct (p y); [exact IH | reflexivity].
Qed.

Lemma trimEnd_cons (x : N) (s : jsstring) :
  isWhiteSpace x = false -> trimEnd (x :: s) = x :: trimEnd s.
Proof.
  intros Hx. unfold trimEnd. cbn [rev].
  rewrite dropWhile_app_stop by assumption.
  rewrite rev_app_distr. reflexivity.
Qed.

Lemma trimEnd_clean (s : jsstring) :
  forallb (fun c => negb (isWhiteSpace c)) s = true -> trimEnd s = s.
Proof.
  induction s as [|x s IH]; [reflexivity|]. cbn [forallb].
  intros H. apply andb_true_iff in H as [Hx Hs].
  apply negb_true_iff in Hx. rewrite trimEnd_cons, IH; auto.
Qed.

(** The text of a match of [hashTags]: a hash and the tag characters that
    follow it, at least one. *)
Lemma hashRun_some (r : jsstring) :
  takeWhile TaskRegex.isTagChar r <> [] ->
  TaskRegex.hashRun (35%N :: r)
  = Some (35%N :: takeWhile TaskRegex.isTagChar r).
Proof.
  intros H. cbn [TaskRegex.hashRun].
  destruct (takeWhile TaskRegex.isTagChar r); [congruence | reflexivity].
Qed.

Lemma hashRun_inv (s m : jsstring) :
  TaskRegex.hashRun s = Some m ->
  exists r, s = 35%N :: r
            /\ takeWhile TaskRegex.isTagChar r <> []
            /\ m = 35%N :: takeWhile TaskRegex.isTagChar r.
Proof.
  destruct s as [|c r]; [discriminate|].
  destruct (N.eq_dec c 35) as [-> | Hc].
  - cbn [TaskRegex.hashRun].
    destruct (takeWhile TaskRegex.isTagChar r) as [|x run] eqn:E;
      [discriminate|].
    intros [= <-]. exists r. rewrite E. repeat split; discriminate.
  - intros H. exfalso. destruct c as [|c]; [discriminate H|].
    cbn [TaskRegex.hashRun] in H.
    repeat (destruct c as [c|c|]; try discriminate H). congruence.
Qed.

Lemma hashRun_none (c : N) (r : jsstring) :
  TaskRegex.hashRun (c :: r) = None ->
  N.eqb c 35
  && negb (Nat.eqb (List.length (takeWhile TaskRegex.isTagChar r)) 0)
  = false.
Proof.
  intros H. destruct (N.eqb c 35) eqn:E; [|reflexivity].
  apply N.eqb_eq in E. subst c. cbn [TaskRegex.hashRun] in H.
  destruct (takeWhile TaskRegex.isTagChar r); [reflexivity | discriminate].
Qed.

(** Passing over the rest of a match is resuming the search after it. *)
Lemma hashTagsGo_skipn (k : nat) :
  forall s, matchAllGo TaskRegex.hashTagAt k false s
            = matchAllGo TaskRegex.hashTagAt 0 false (skipn k s).
Proof.
  induction k as [|k IH]; intros s; [reflexivity|].
  destruct s as [|x r]; [reflexivity|].
  cbn [matchAllGo skipn]. apply IH.
Qed.

Lemma isTagChar_not_hash (c : N) :
  TaskRegex.isTagChar c = true -> N.eqb c 35 = false.
Proof.
  intros H. destruct (N.eqb c 35) eqn:E; [|reflexivity].
  apply N.eqb_eq in E. subst c. discriminate H.
Qed.

Section OnlySpaces.

(** In a text whose only white space is the space, a tag character is no
    white space. *)
Lemma tagChar_not_space (s : jsstring) (c : N) :
  onlySpaces s -> In c s -> TaskRegex.isTagChar c = true ->
  isWhiteSpace c = false.
Proof.
  intros Hs Hc Ht. destruct (isWhiteSpace c) eqn:E; [|reflexivity].
  rewrite (Hs c Hc E) in Ht. discriminate Ht.
Qed.

Lemma onlySpaces_tail (c : N) (s : jsstring) :
  onlySpaces (c :: s) -> onlySpaces s.
Proof. intros H x Hx. apply H. right; assumption. Qed.

Lemma onlySpaces_dropWhile (p : N -> bool) (s : jsstring) :
  onlySpaces s -> onlySpaces (dropWhile p s).
Proof. intros H x Hx. apply H. eapply dropWhile_In; eassumption. Qed.

Lemma run_clean (s : jsstring) :
  onlySpaces s ->
  forallb (fun c => negb (isWhiteSpace c))
          (takeWhile TaskRegex.isTagChar s) = true.
Proof.
  intros Hs. apply forallb_forall. intros c Hc.
  apply negb_true_iff. apply (tagChar_not_space s c Hs).
  - eapply takeWhile_In; eassumption.
  - pose proof (takeWhile_forallb TaskRegex.isTagChar s) as H.
    rewrite forallb_forall in H. apply H, Hc.
Qed.

(** The positions inside a tag name start no tag. *)
Lemma namedTagsFrom_run (run : jsstring) :
  forall b rest,
    forallb TaskRegex.isTagChar run = true ->
    forallb (fun c => negb (isWhiteSpace c)) run = true ->
    namedTagsFrom b (run ++ rest)
    = namedTagsFrom (match run with [] => b | _ :: _ => false end) rest.
Proof.
  induction run as [|c run IH]; intros b rest Ht Hw; [reflexivity|].
  cbn [forallb] in Ht, Hw.
  apply andb_true_iff in Ht as [Hc Ht].
  apply andb_true_iff in Hw as [Hcw Hw]. apply negb_true_iff in Hcw.
  cbn [app namedTagsFrom].
  rewrite (isTagChar_not_hash c Hc), andb_false_r. cbn [andb app].
  rewrite Hcw, IH by assumption. destruct run; reflexivity.
Qed.

(** After a hash: the tag, if it has a name, and then the tags of the
    text behind the name. *)
Lemma namedTagsFrom_hash (r : jsstring) :
  onlySpaces r ->
  namedTagsFrom true (35%N :: r)
  = (match takeWhile TaskRegex.isTagChar r with
     | [] => []
     | _ :: _ => [35%N :: takeWhile TaskRegex.isTagChar r]
     end)
    ++ namedTagsFrom false (dropWhile TaskRegex.isTagChar r).
Proof.
  intros Hr. cbn [namedTagsFrom]. cbn [N.eqb Pos.eqb andb].
  change (isWhiteSpace 35) with false.
  rewrite <- (takeWhile_dropWhile TaskRegex.isTagChar r) at 3.
  rewrite namedTagsFrom_run
    by (apply takeWhile_forallb || apply run_clean; assumption).
  destruct (takeWhile TaskRegex.isTagChar r); reflexivity.
Qed.

Lemma namedTagsFrom_no_hash (s : jsstring) :
  TaskRegex.hashRun s = None ->
  namedTagsFrom true s = namedTagsFrom false s.
Proof.
  destruct s as [|c r]; [reflexivity|]. intros H.
  apply hashRun_none in H. cbn [namedTagsFrom].
  rewrite <- andb_assoc, H. reflexivity.
Qed.

Lemma trim_hash_run (r : jsstring) :
  onlySpaces r ->
  trim (35%N :: takeWhile TaskRegex.isTagChar r)
  = 35%N :: takeWhile TaskRegex.isTagChar r.
Proof.
  intros Hr. unfold trim.
  change (trimStart (35%N :: takeWhile TaskRegex.isTagChar r))
    with (35%N :: takeWhile TaskRegex.isTagChar r).
  rewrite trimEnd_cons by reflexivity.
  rewrite trimEnd_clean by (apply run_clean; assumption). reflexivity.
Qed.

Lemma trim_space_hash_run (c : N) (r : jsstring) :
  isWhiteSpace c = true -> onlySpaces r ->
  trim (c :: 35%N :: takeWhile TaskRegex.isTagChar r)
  = 35%N :: takeWhile TaskRegex.isTagChar r.
Proof.
  intros Hc Hr. rewrite <- (trim_hash_run r Hr) at 2.
  unfold trim. f_equal. unfold trimStart. cbn [dropWhile].
  rewrite Hc. reflexivity.
Qed.

Lemma skipn_run (r : jsstring) :
  skipn (List.length (takeWhile TaskRegex.isTagChar r)) r
  = dropWhile TaskRegex.isTagChar r.
Proof.
  rewrite <- (takeWhile_dropWhile TaskRegex.isTagChar r) at 2.
  rewrite skipn_app, skipn_all, Nat.sub_diag. reflexivity.
Qed.

(** The matches found from a position that is not the start of the text
    are the named tags that begin after that position. *)
Lemma hashTags_inner (n : nat) :
  forall s,
    List.length s <= n -> onlySpaces s ->
    cleanTags (matchAllGo TaskRegex.hashTagAt 0 false s) = namedTagsFrom false s.
Proof.
  induction n as [|n IH]; intros s Hn Hs.
  - destruct s; [reflexivity | cbn in Hn; lia].
  - destruct s as [|c r]; [reflexivity|].
    cbn [List.length] in Hn.
    pose proof (onlySpaces_tail c r Hs) as Hr.
    cbn [matchAllGo namedTagsFrom andb app].
    unfold TaskRegex.hashTagAt.
    destruct (isWhiteSpace c) eqn:Ec.
    + destruct (TaskRegex.hashRun r) as [m|] eqn:Em.
      * apply hashRun_inv in Em as [r' [-> [Hne ->]]].
        pose proof (onlySpaces_tail _ _ Hr) as Hr'.
        rewrite namedTagsFrom_hash by assumption.
        unfold cleanTags. cbn [map filter].
        rewrite trim_space_hash_run by assumption.
        destruct (takeWhile TaskRegex.isTagChar r') as [|x run] eqn:E;
          [congruence|].
        cbn [List.length Nat.ltb Nat.leb app]. f_equal.
        rewrite hashTagsGo_skipn.
        replace (S (S (S (List.length run))) - 1)
          with (S (List.length (x :: run))) by (cbn; lia).
        cbn [skipn]. rewrite <- E, skipn_run.
        apply IH.
        -- pose proof (dropWhile_length TaskRegex.isTagChar r').
           cbn [List.length] in Hn. lia.
        -- apply onlySpaces_dropWhile; assumption.
      * rewrite namedTagsFrom_no_hash by assumption.
        apply IH; [lia | assumption].
    + apply IH; [lia | assumption].
Qed.

(** The matches found from the start of the text are its named tags. *)
Lemma hashTags_named (s : jsstring) :
  onlySpaces s ->
  cleanTags (TaskRegex.hashTags s) = namedTagsOfText s.
Proof.
  intros Hs. unfold TaskRegex.hashTags, matchAll, namedTagsOfText.
  destruct s as [|c r]; [reflexivity|].
  destruct (TaskRegex.hashRun (c :: r)) as [m|] eqn:Em.
  - apply hashRun_inv in Em as [r' [E [Hne ->]]].
    injection E as -> <-.
    pose proof (onlySpaces_tail _ _ Hs) as Hr.
    rewrite namedTagsFrom_hash by assumption.
    cbn [matchAllGo]. unfold TaskRegex.hashTagAt.
    rewrite hashRun_some by assumption.
    unfold cleanTags. cbn [map filter].
    rewrite trim_hash_run by assumption.
    destruct (takeWhile TaskRegex.isTagChar r) as [|x run] eqn:E;
      [congruence|].
    cbn [List.length Nat.ltb Nat.leb app]. f_equal.
    rewrite hashTagsGo_skipn.
    replace (S (S (List.length run)) - 1)
      with (List.length (x :: run)) by (cbn; lia).
    rewrite <- E, skipn_run.
    apply (hashTags_inner (List.length r)).
    + apply dropWhile_length.
    + apply onlySpaces_dropWhile; assumption.
  - rewrite namedTagsFrom_no_hash by assumption.
    rewrite <- (hashTags_inner (List.length (c :: r)) (c :: r))
      by (auto; lia).
    cbn [matchAllGo]. unfold TaskRegex.hashTagAt.
    rewrite Em. reflexivity.
Qed.

End OnlySpaces.

(** C7, as stated, fails on the line [- [ ] # #a<TAB>#b]: the lone hash has
    no name and is no tag; the tab belongs to the match of [#a] and is then
    trimmed away; and [#b], although preceded by a white space, is not
    found, because that white space is already part of the previous
    match. *)
Lemma C7_every_hash_substring_fails :
  exists t,
    parseTaskLine (js "- [ ] # #a" ++ [9%N] ++ js "#b") (js "notes.md") 0
    = Some t
    /\ tags t = [js "#a"]
    /\ tagsOfText (description t) = [js "#"; js "#a" ++ [9%N]; js "#b"]
    /\ tags t <> tagsOfText (description t).
Proof.
  eexists. split; [reflexivity|].
  split; [reflexivity|]. split; [reflexivity|]. discriminate.
Qed.

(** C7, amended.  When the only white space of the description is the
    space, the tags are the substrings that start with a hash preceded by
    the start of the description or by a space, followed by at least one
    character that does not end a tag, and that run up to a character that
    ends a tag or to the end; each with its hash, in the order of the text,
    repetitions kept.  The description [#a #a/b text] has the tags [#a] and
    [#a/b], in that order. *)
Theorem C7_tags_of_description
        (line fp : jsstring) (n : nat) (t : Task) :
  parseTaskLine line fp n = Some t ->
  (onlySpaces (description t) ->
   tags t = namedTagsOfText (description t))
  /\ (description t = js "#a #a/b text" ->
      tags t = [js "#a"; js "#a/b"]).
Proof.
  intros Ht.
  destruct (parseTaskLine_inv _ _ _ _ Ht)
    as [m [_ [_ [_ [Hd [Htags _]]]]]].
  rewrite <- Hd in Htags. rewrite Htags. split.
  - intros Hs. apply (hashTags_named _ Hs).
  - intros ->. reflexivity.
Qed.

Lemma C7_tags_of_description_witness :
  exists t,
    parseTaskLine (js "- [ ] #a #a/b text #a") (js "notes.md") 7 = Some t
    /\ tags t = [js "#a"; js "#a/b"; js "#a"].
Proof.
  eexists. split; [reflexivity|].
  eapply eq_trans.
  - apply (proj1 (C7_tags_of_description (js "- [ ] #a #a/b text #a")
                    (js "notes.md") 7 _ eq_refl)).
    intros c Hc Hw. simpl in Hc.
    repeat (destruct Hc as [<- | Hc]; [first [reflexivity | discriminate Hw]|]).
    destruct Hc.
  - reflexivity.
Defined.

(* ================================================================== *)
(** * The recogniser gives tags that carry their hash *)

Lemma hashTagAt_inv (a : bool) (s m : jsstring) :
  TaskRegex.hashTagAt a s = Some m ->
  exists r, m = 35%N :: r
            \/ exists c, m = c :: 35%N :: r /\ isWhiteSpace c = true.
Proof.
  unfold TaskRegex.hashTagAt.
  destruct (if a then TaskRegex.hashRun s else None) as [m'|] eqn:E.
  - intros [= <-]. destruct a; [|discriminate].
    apply hashRun_inv in E as [r [_ [_ ->]]]. eexists. left. reflexivity.
  - destruct s as [|c r]; [discriminate|].
    destruct (isWhiteSpace c) eqn:Ec; [|discriminate].
    destruct (TaskRegex.hashRun r) as [m'|] eqn:Em; [|discriminate].
    intros [= <-]. apply hashRun_inv in Em as [r' [_ [_ ->]]].
    eexists. right. exists c. split; [reflexivity | assumption].
Qed.

Lemma hashTagsGo_inv (s : jsstring) :
  forall k a m,
    In m (matchAllGo TaskRegex.hashTagAt k a s) ->
    exists r, m = 35%N :: r
              \/ exists c, m = c :: 35%N :: r /\ isWhiteSpace c = true.
Proof.
  induction s as [|x s IH]; intros k a m; cbn [matchAllGo];
    [intros []|].
  destruct k as [|k]; [|apply IH].
  destruct (TaskRegex.hashTagAt a (x :: s)) as [m'|] eqn:E; [|apply IH].
  intros [<- | H]; [eapply hashTagAt_inv; eassumption | eapply IH, H].
Qed.

Lemma parseTaskLine_tagsHashed (line fp : jsstring) (n : nat) (t : Task) :
  parseTaskLine line fp n = Some t -> tagsHashed t.
Proof.
  intros Ht tag Htag.
  destruct (parseTaskLine_inv _ _ _ _ Ht)
    as [m [_ [_ [_ [_ [Htags _]]]]]].
  rewrite Htags in Htag. apply filter_In in Htag as [Htag _].
  apply in_map_iff in Htag as [mt [<- Hmt]].
  apply hashTagsGo_inv in Hmt as [r [-> | [c [-> Hc]]]].
  - unfold trim.
    change (trimStart (35%N :: r)) with (35%N :: r).
    rewrite trimEnd_cons by reflexivity. reflexivity.
  - unfold trim, trimStart. cbn [dropWhile]. rewrite Hc.
    change (isWhiteSpace 35) with false. cbv iota.
    rewrite trimEnd_cons by reflexivity. reflexivity.
Qed.

(* ================================================================== *)
(** * The embedding on the lines of the test suite *)

(** The statuses expected by the status tests. *)
Example status_lines :
  map (fun line => option_map status (parseTaskLine line (js "s.md") 0))
      [js "- [ ] Incomplete task"; js "- [x] Completed task";
       js "- [-] Cancelled task"; js "- [/] In progress task";
       js "- [>] Forward task (incomplete)";
       js "- [<] Backward task (incomplete)";
       js "- [?] Question task (non-task)";
       js "- [!] Important task (non-task)";
       js "- [X] Completed task (capital X)"]
  = [Some incomplete; Some complete; Some cancelled; Some in_progress;
     Some incomplete; Some incomplete; Some non_task; Some non_task;
     Some complete].
Proof. reflexivity. Qed.

(** The tags expected by the tag tests. *)
Example tag_lines :
  map (fun line => option_map tags (parseTaskLine line (js "t.md") 0))
      [js "- [ ] Basic task with no tags";
       js "- [ ] Task with #multiple #tags";
       js "- [ ] Task with #project/subtag hierarchy";
       js "- [ ] Task with #tag-with-dashes";
       js "- [ ] Task with #123 numeric tag"]
  = [Some []; Some [js "#multiple"; js "#tags"];
     Some [js "#project/subtag"]; Some [js "#tag-with-dashes"];
     Some [js "#123"]].
Proof. reflexivity. Qed.

(** A line with a due date (U+1F5D3 U+FE0F), a scheduled date (U+23F3), a
    tag and a priority (U+23EB). *)
Example report_line :
  exists t,
    parseTaskLine (js "- [ ] Report " ++ [55357; 56787; 65039]%N
                   ++ js " 2025-05-01 " ++ [9203%N] ++ js " 2025-04-25 #work "
                   ++ [9195%N]) (js "r.md") 0 = Some t
    /\ status t = incomplete
    /\ dueDate t = Some (js "2025-05-01")
    /\ scheduledDate t = Some (js "2025-04-25")
    /\ tags t = [js "#work"]
    /\ priority t = Some (js "high")
    /\ id t = js "r.md:0".
Proof. eexists. repeat split; reflexivity. Qed.

(** The filters of the description, path and priority tests. *)
Example filter_samples :
  let t := {| id := js "file1:3";
              description := js "Task with high priority";
              status := incomplete; statusSymbol := js " ";
              filePath := js "/path/to/file1.md"; lineNumber := 3;
              tags := [js "#tag"]; dueDate := Some (js "2025-04-18");
              scheduledDate := None; createdDate := None;
              startDate := None; priority := Some (js "high");
              recurrence := None; originalMarkdown := [] |} in
  map (applyFilter (js "2025-04-18") t)
      [js "description includes priority";
       js "description does not include priority";
       js "path includes file1"; js "path does not include file1";
       js "priority is high"; js "priority is none"; js "has tag tag";
       js "tag includes ta"; js "no tags"; js "due today";
       js "due before 2025-05-01"; js "due after 2025-05-01";
       js "done or cancelled"; js "not done and has tags";
       js "HIGH PRIORITY"]
  = map Ok [true; false; true; false; true; false; true; true; false; true;
            true; false; false; true; true].
Proof. reflexivity. Qed.

(* ================================================================== *)
(** * Identifiers and line numbers *)

Lemma js_inj (s s' : string) : js s = js s' -> s = s'.
Proof.
  unfold js. revert s'. induction s as [|a s IH]; intros [|a' s']; cbn;
    try discriminate; [reflexivity|].
  intros [= Ha Hs]. f_equal; [|apply IH, Hs].
  rewrite <- (ascii_N_embedding a), <- (ascii_N_embedding a'), Ha.
  reflexivity.
Qed.

Lemma string_of_uint_digits (d : Decimal.uint) :
  forallb isDigit (js (NilEmpty.string_of_uint d)) = true.
Proof. induction d; cbn; auto. Qed.

Lemma ofNat_digits (n : nat) : forallb isDigit (ofNat n) = true.
Proof.
  unfold ofNat, NilZero.string_of_uint.
  destruct (Nat.to_uint n) eqn:E; rewrite <- ?E;
    [reflexivity | apply string_of_uint_digits ..].
Qed.

Lemma to_uint_nonnil (n : nat) : Nat.to_uint n <> Decimal.Nil.
Proof.
  rewrite <- (DecimalNat.Unsigned.of_to n) at 1.
  rewrite DecimalNat.Unsigned.to_of. apply DecimalFacts.unorm_nonnil.
Qed.

(** Two numbers with the same decimal numeral are the same. *)
Lemma ofNat_inj (n n' : nat) : ofNat n = ofNat n' -> n = n'.
Proof.
  unfold ofNat. intros H. apply js_inj in H.
  apply DecimalNat.Unsigned.to_uint_inj.
  apply (f_equal NilZero.uint_of_string) in H.
  rewrite !NilZero.usu in H by apply to_uint_nonnil.
  congruence.
Qed.

Lemma forallb_rev (p : N -> bool) (s : jsstring) :
  forallb p s = true -> forallb p (rev s) = true.
Proof.
  rewrite !forallb_forall. intros H x Hx. apply H, in_rev, Hx.
Qed.

(** An identifier [path:number] is cut at its last colon: it determines
    the path and the number. *)
Lemma id_inj (fp fp' : jsstring) (n n' : nat) :
  fp ++ js ":" ++ ofNat n = fp' ++ js ":" ++ ofNat n' ->
  fp = fp' /\ n = n'.
Proof.
  intros H.
  assert (Hn : ofNat n = ofNat n').
  { apply (f_equal (@rev N)) in H.
    rewrite !rev_app_distr, <- !app_assoc in H.
    apply (f_equal (takeWhile isDigit)) in H.
    rewrite !takeWhile_app in H
      by (try (apply forallb_rev, ofNat_digits); reflexivity).
    apply (f_equal (@rev N)) in H. rewrite !rev_involutive in H. exact H. }
  split; [|apply ofNat_inj, Hn].
  rewrite Hn in H. apply app_inv_tail in H. exact H.
Qed.

Lemma parseTaskLine_provenance (line fp : jsstring) (n : nat) (t : Task) :
  parseTaskLine line fp n = Some t ->
  filePath t = fp /\ lineNumber t = n
  /\ id t = fp ++ js ":" ++ ofNat n /\ originalMarkdown t = line.
Proof.
  unfold parseTaskLine.
  destruct (TaskRegex.taskRegex line) as [m|]; [|discriminate].
  intros [= <-]. cbn. repeat split; reflexivity.
Qed.

(** X1.  The identifier of a recognised task determines where the task
    comes from: two tasks with the same identifier have the same file path
    and the same line number, even when the path itself holds colons or
    digits. *)
Theorem id_determines_provenance
        (line1 fp1 line2 fp2 : jsstring) (n1 n2 : nat) (t1 t2 : Task) :
  parseTaskLine line1 fp1 n1 = Some t1 ->
  parseTaskLine line2 fp2 n2 = Some t2 ->
  id t1 = id t2 ->
  fp1 = fp2 /\ n1 = n2
  /\ filePath t1 = filePath t2 /\ lineNumber t1 = lineNumber t2.
Proof.
  intros H1 H2 Hid.
  destruct (parseTaskLine_provenance _ _ _ _ H1) as [Hf1 [Hn1 [Hi1 _]]].
  destruct (parseTaskLine_provenance _ _ _ _ H2) as [Hf2 [Hn2 [Hi2 _]]].
  rewrite Hi1, Hi2 in Hid. apply id_inj in Hid as [-> ->].
  repeat split; congruence.
Qed.

Lemma id_determines_provenance_witness :
  js "a:1.md" = js "a:1.md" /\ 12 = 12.
Proof.
  pose proof (id_determines_provenance
                (js "- [ ] one") (js "a:1.md") (js "- [x] two")
                (js "a:1.md") 12 12 _ _ eq_refl eq_refl eq_refl) as H.
  exact (conj (proj1 H) (proj1 (proj2 H))).
Defined.

(** The tasks of some lines: each comes from one of the lines, numbered
    from [i] on. *)
Lemma parseLines_In (lines : list jsstring) (fp : jsstring) :
  forall i t,
    In t (parseLines lines fp i)
    <-> exists k line, nth_error lines k = Some line
                       /\ parseTaskLine line fp (i + k) = Some t.
Proof.
  induction lines as [|l lines IH]; intros i t; cbn [parseLines].
  - split; [intros [] | intros [k [line [H _]]]; destruct k; discriminate H].
  - assert (Hrest : In t (parseLines lines fp (S i))
                    <-> exists k line, nth_error lines k = Some line
                          /\ parseTaskLine line fp (i + S k) = Some t).
    { rewrite IH. split; intros [k [line [H1 H2]]]; exists k, line;
        (split; [exact H1|]);
        [rewrite Nat.add_succ_r | rewrite Nat.add_succ_r in H2]; exact H2. }
    split.
    + intros H.
      assert (Hc : Some t = parseTaskLine l fp i
                   \/ In t (parseLines lines fp (S i))).
      { destruct (parseTaskLine l fp i); [destruct H as [<- | H]|]; auto. }
      destruct Hc as [Hc | Hc].
      * exists 0, l. rewrite Nat.add_0_r. auto.
      * apply Hrest in Hc as [k [line [H1 H2]]]. exists (S k), line. auto.
    + intros [[|k] [line [H1 H2]]].
      * cbn in H1. injection H1 as ->. rewrite Nat.add_0_r in H2.
        rewrite H2. left; reflexivity.
      * cbn in H1.
        assert (Hin : In t (parseLines lines fp (S i)))
          by (apply Hrest; eauto).
        destruct (parseTaskLine l fp i); [right|]; exact Hin.
Qed.

(** X2.  [parseTasks] gives exactly the tasks recognised on the lines of
    the text, each with the number of its line (counted from 0) and the
    path it was given. *)
Theorem parseTasks_In (text fp : jsstring) (t : Task) :
  In t (parseTasks text fp)
  <-> exists n line, nth_error (split text [10%N]) n = Some line
                     /\ parseTaskLine line fp n = Some t.
Proof. unfold parseTasks. apply parseLines_In. Qed.

Lemma parseLines_numbers (lines : list jsstring) (fp : jsstring) :
  forall i,
    StronglySorted lt (map lineNumber (parseLines lines fp i))
    /\ Forall (fun t => i <= lineNumber t
                        /\ id t = fp ++ js ":" ++ ofNat (lineNumber t))
              (parseLines lines fp i).
Proof.
  induction lines as [|l lines IH]; intros i; cbn [parseLines].
  - split; constructor.
  - destruct (IH (S i)) as [Hs Hf].
    assert (Hf' : Forall (fun t => i <= lineNumber t
                           /\ id t = fp ++ js ":" ++ ofNat (lineNumber t))
                         (parseLines lines fp (S i))).
    { eapply Forall_impl; [|exact Hf]. cbv beta. intros a [H1 H2].
      split; [lia | exact H2]. }
    destruct (parseTaskLine l fp i) as [t|] eqn:E; [|split; assumption].
    destruct (parseTaskLine_provenance _ _ _ _ E) as [_ [Hn [Hi _]]].
    split.
    + cbn [map]. constructor; [exact Hs|].
      rewrite Forall_map. eapply Forall_impl; [|exact Hf].
      cbv beta. intros a [H1 _]. lia.
    + constructor; [|exact Hf'].
      rewrite Hn. split; [lia | exact Hi].
Qed.

(** Within one file no two tasks have the same [id]. *)
Lemma parseLines_ids_NoDup (lines : list jsstring) (fp : jsstring)
      (i : nat) :
  NoDup (map id (parseLines lines fp i)).
Proof.
  destruct (parseLines_numbers lines fp i) as [Hs Hf].
  induction (parseLines lines fp i) as [|t l IH]; [constructor|].
  cbn [map] in *. apply StronglySorted_inv in Hs as [Hs Hlt].
  apply Forall_cons_iff in Hf as [[_ Hid] Hf].
  constructor; [|apply IH; assumption].
  intros Hin. apply in_map_iff in Hin as [t' [Heq Ht']].
  rewrite Forall_forall in Hf. destruct (Hf t' Ht') as [_ Hid'].
  rewrite Hid, Hid' in Heq. apply id_inj in Heq as [_ Heq].
  rewrite Forall_map, Forall_forall in Hlt. specialize (Hlt t' Ht'). lia.
Qed.

(** X3.  The tasks of a text stand in the order of their lines, with
    strictly increasing line numbers, and no two of them have the same
    identifier. *)
Theorem parseTasks_ids_unique (text fp : jsstring) :
  StronglySorted lt (map lineNumber (parseTasks text fp))
  /\ NoDup (map id (parseTasks text fp)).
Proof.
  unfold parseTasks. split.
  - apply parseLines_numbers.
  - apply parseLines_ids_NoDup.
Qed.

(** X4.  Writing the tasks of a text back with [taskToString] gives the
    lines of the text that are tasks, in their order, each as it was. *)
Theorem parseTasks_round_trip (text fp : jsstring) :
  map taskToString (parseTasks text fp)
  = filter (fun line => negb (isUndefined (TaskRegex.taskRegex line)))
           (split text [10%N]).
Proof.
  unfold parseTasks. generalize 0 as i.
  induction (split text [10%N]) as [|l lines IH]; intros i;
    cbn [parseLines filter]; [reflexivity|].
  destruct (parseTaskLine l fp i) as [t|] eqn:E.
  - destruct (parseTaskLine_provenance _ _ _ _ E) as [_ [_ [_ Ho]]].
    unfold parseTaskLine in E.
    destruct (TaskRegex.taskRegex l); [|discriminate].
    cbn [isUndefined negb map]. unfold taskToString at 1.
    rewrite Ho, IH. reflexivity.
  - unfold parseTaskLine in E.
    destruct (TaskRegex.taskRegex l); [discriminate|].
    cbn [isUndefined negb]. apply IH.
Qed.

(** X5.  A recognised task is recognised again, and is the same, when the
    text that [taskToString] gives for it is parsed with the path and the
    line number the task holds. *)
Theorem taskToString_parses_back
        (line fp : jsstring) (n : nat) (t : Task) :
  parseTaskLine line fp n = Some t ->
  parseTaskLine (taskToString t) (filePath t) (lineNumber t) = Some t.
Proof.
  intros Ht.
  destruct (parseTaskLine_provenance _ _ _ _ Ht) as [-> [-> [_ Ho]]].
  unfold taskToString. rewrite Ho. exact Ht.
Qed.

Lemma taskToString_parses_back_witness :
  exists t,
    parseTaskLine (js "* [/] Draft report #work") (js "notes.md") 3 = Some t
    /\ parseTaskLine (taskToString t) (filePath t) (lineNumber t) = Some t.
Proof.
  eexists. split; [reflexivity|].
  eapply (taskToString_parses_back (js "* [/] Draft report #work")
            (js "notes.md") 3).
  reflexivity.
Defined.

(* ================================================================== *)
(** * Substrings *)

Lemma includes_iff (s sub : jsstring) :
  includes s sub = true <-> exists a b, s = a ++ sub ++ b.
Proof.
  split.
  - induction s as [|x s IH]; intros H.
    + rewrite includes_nil in H. apply startsWith_prefix in H as [r H].
      exists [], r. exact H.
    + rewrite includes_cons in H. apply orb_true_iff in H as [H | H].
      * apply startsWith_prefix in H as [r H]. exists [], r. exact H.
      * destruct (IH H) as [a [b ->]]. exists (x :: a), b. reflexivity.
  - intros [a [b ->]]. induction a as [|x a IH].
    + apply startsWith_includes, startsWith_prefix. exists b. reflexivity.
    + cbn [app]. rewrite includes_cons, IH. apply orb_true_r.
Qed.

Lemma includes_trans (s m sub : jsstring) :
  includes s m = true -> includes m sub = true -> includes s sub = true.
Proof.
  rewrite !includes_iff. intros [a [b ->]] [a' [b' ->]].
  exists (a ++ a'), (b' ++ b). rewrite <- !app_assoc. reflexivity.
Qed.

Lemma trimEnd_decomp (s : jsstring) :
  s = trimEnd s ++ rev (takeWhile isWhiteSpace (rev s)).
Proof.
  unfold trimEnd. rewrite <- rev_app_distr, takeWhile_dropWhile.
  symmetry. apply rev_involutive.
Qed.

(** The trimmed text is a substring of the text. *)
Lemma trim_includes (s : jsstring) : includes s (trim s) = true.
Proof.
  apply includes_iff. unfold trim, trimStart.
  exists (takeWhile isWhiteSpace s),
         (rev (takeWhile isWhiteSpace (rev (dropWhile isWhiteSpace s)))).
  rewrite <- trimEnd_decomp. symmetry. apply takeWhile_dropWhile.
Qed.

Lemma includes_skipn_self (s : jsstring) (i : nat) :
  includes s (skipn i s) = true.
Proof.
  apply includes_iff. exists (firstn i s), [].
  rewrite app_nil_r. symmetry. apply firstn_skipn.
Qed.

Lemma dropWhile_idem (p : N -> bool) (s : jsstring) :
  dropWhile p (dropWhile p s) = dropWhile p s.
Proof.
  pose proof (dropWhile_stops p s) as H.
  destruct (dropWhile p s) as [|c r]; [reflexivity|].
  cbn in H |- *. rewrite H. reflexivity.
Qed.

Lemma trimEnd_idem (s : jsstring) : trimEnd (trimEnd s) = trimEnd s.
Proof.
  unfold trimEnd. rewrite rev_involutive, dropWhile_idem. reflexivity.
Qed.

Lemma trimStart_trimEnd (s : jsstring) :
  stopsAt isWhiteSpace s -> trimStart (trimEnd s) = trimEnd s.
Proof.
  destruct s as [|c r]; [reflexivity|]. cbn [stopsAt]. intros H.
  rewrite trimEnd_cons by assumption.
  unfold trimStart. cbn [dropWhile]. rewrite H. reflexivity.
Qed.

(** Trimming twice is trimming once. *)
Lemma trim_idem (s : jsstring) : trim (trim s) = trim s.
Proof.
  unfold trim at 1.
  assert (H : trimStart (trim s) = trim s).
  { unfold trim. apply trimStart_trimEnd. apply dropWhile_stops. }
  rewrite H. unfold trim. apply trimEnd_idem.
Qed.

Section SearchInv.

Variable A : Type.
Variable m : jsstring -> option A.

(** A search that succeeds succeeds at some position. *)
Lemma search_some (s : jsstring) (a : A) :
  search m s = Some a -> exists i, m (skipn i s) = Some a.
Proof.
  induction s as [|x r IH]; rewrite search_unfold.
  - destruct (m []) eqn:E; [|discriminate].
    intros [= <-]. exists 0. exact E.
  - destruct (m (x :: r)) eqn:E.
    + intros [= <-]. exists 0. exact E.
    + intros H. destruct (IH H) as [i Hi]. exists (S i). exact Hi.
Qed.

(** A search that fails fails at every position. *)
Lemma search_none_inv (s : jsstring) :
  search m s = None -> forall i, m (skipn i s) = None.
Proof.
  induction s as [|x r IH]; rewrite search_unfold.
  - destruct (m []) eqn:E; [discriminate|]. intros _ [|i]; exact E.
  - destruct (m (x :: r)) eqn:E; [discriminate|].
    intros H [|i]; [exact E | exact (IH H i)].
Qed.

End SearchInv.

(* ================================================================== *)
(** * The fields of a recognised task *)

Lemma parseTaskLine_fields (line fp : jsstring) (n : nat) (t : Task) :
  parseTaskLine line fp n = Some t ->
  exists m,
    TaskRegex.taskRegex line = Some m
    /\ statusSymbol t = TaskRegex.statusChar m
    /\ description t = trim (TaskRegex.body m)
    /\ tags t = cleanTags (TaskRegex.hashTags (description t))
    /\ dueDate t = TaskRegex.dueDateRegex (description t)
    /\ scheduledDate t = TaskRegex.scheduledDateRegex (description t)
    /\ startDate t = TaskRegex.startDateRegex (description t)
    /\ createdDate t = TaskRegex.createdDateRegex (description t)
    /\ recurrence t = TaskRegex.recurrenceRegex (description t)
    /\ priority t = priorityOf (TaskRegex.priorityMatches (description t)).
Proof.
  unfold parseTaskLine.
  destruct (TaskRegex.taskRegex line) as [m|]; [|discriminate].
  intros [= <-]. exists m. cbn. repeat split; reflexivity.
Qed.

(** The spaces after the checkbox are among what trimming removes. *)
Lemma trim_afterCheckbox (rest : jsstring) :
  trim (TaskRegex.afterCheckboxRegex rest)
  = trim (takeWhile (fun x => negb (isLineTerminator x)) rest).
Proof.
  unfold TaskRegex.afterCheckboxRegex.
  induction rest as [|c r IH]; [reflexivity|]. cbn [dropWhile].
  destruct (N.eqb 32 c) eqn:E; [|reflexivity].
  apply N.eqb_eq in E. subst c. rewrite IH. reflexivity.
Qed.

(** A match of [taskRegex] with the text behind the checkbox. *)
Lemma taskRegex_body (line : jsstring) (m : TaskRegex.TaskMatch) :
  TaskRegex.taskRegex line = Some m ->
  exists indent mk spaces rest,
    forallb TaskRegex.isIndentChar indent = true
    /\ isListMarker mk
    /\ spaces <> [] /\ forallb (N.eqb 32) spaces = true
    /\ line = indent ++ mk ++ spaces ++ [91%N] ++ TaskRegex.statusChar m
              ++ [93%N] ++ rest
    /\ TaskRegex.body m = TaskRegex.afterCheckboxRegex rest.
Proof.
  unfold TaskRegex.taskRegex, TaskRegex.indentationRegex.
  pose proof (takeWhile_dropWhile TaskRegex.isIndentChar line) as Hline.
  pose proof (takeWhile_forallb TaskRegex.isIndentChar line) as Hind.
  destruct (TaskRegex.listMarkerRegex _) as [[mk r2]|] eqn:Emk;
    [|discriminate].
  apply listMarker_sound in Emk as [Hmk Hr1].
  destruct (TaskRegex.spacesPlus r2) as [r3|] eqn:Esp; [|discriminate].
  apply spacesPlus_sound in Esp as [sp [Hne [Hsp ->]]].
  destruct (TaskRegex.checkboxRegex r3) as [[c r4]|] eqn:Ec; [|discriminate].
  apply checkboxRegex_sound in Ec as [Hc ->].
  intros [= <-]. cbn [TaskRegex.statusChar TaskRegex.body].
  exists (takeWhile TaskRegex.isIndentChar line), mk, sp, r4.
  repeat split; try assumption.
  rewrite <- Hline at 1. rewrite Hr1. reflexivity.
Qed.

Lemma trimEnd_In (s : jsstring) (c : N) : In c (trimEnd s) -> In c s.
Proof.
  unfold trimEnd. intros H. apply in_rev, dropWhile_In, in_rev in H.
  exact H.
Qed.

(** X6.  The description of a recognised task is the text that follows
    the checkbox, up to the first line terminator, without the white space
    around it: it has no white space at either end and holds no line
    terminator. *)
Theorem description_after_checkbox
        (line fp : jsstring) (n : nat) (t : Task) :
  parseTaskLine line fp n = Some t ->
  (exists indent mk spaces rest,
      forallb TaskRegex.isIndentChar indent = true
      /\ isListMarker mk
      /\ spaces <> [] /\ forallb (N.eqb 32) spaces = true
      /\ line = indent ++ mk ++ spaces ++ [91%N] ++ statusSymbol t
                ++ [93%N] ++ rest
      /\ description t
         = trim (takeWhile (fun x => negb (isLineTerminator x)) rest))
  /\ trim (description t) = description t
  /\ forallb (fun x => negb (isLineTerminator x)) (description t) = true.
Proof.
  intros Ht.
  destruct (parseTaskLine_fields _ _ _ _ Ht) as [m [Hm [Hs [Hd _]]]].
  destruct (taskRegex_body _ _ Hm)
    as [indent [mk [sp [rest [H1 [H2 [H3 [H4 [H5 H6]]]]]]]]].
  rewrite Hd, H6, trim_afterCheckbox. split; [|split].
  - exists indent, mk, sp, rest. rewrite Hs. repeat split; assumption.
  - apply trim_idem.
  - apply forallb_forall. intros c Hc. apply trim_In in Hc.
    pose proof (takeWhile_forallb (fun x => negb (isLineTerminator x)) rest)
      as H.
    rewrite forallb_forall in H. apply H, Hc.
Qed.

Lemma description_after_checkbox_witness :
  exists t,
    parseTaskLine (js "  3) [x]   Pay rent  ") (js "notes.md") 0 = Some t
    /\ trim (description t) = description t.
Proof.
  eexists. split; [reflexivity|].
  eapply (description_after_checkbox (js "  3) [x]   Pay rent  ")
            (js "notes.md") 0).
  reflexivity.
Defined.

(* ------------------------------------------------------------------ *)
(** ** Tags *)

Lemma hashTagAt_run (a : bool) (s m : jsstring) :
  TaskRegex.hashTagAt a s = Some m ->
  (exists rest, s = m ++ rest)
  /\ exists run,
      forallb TaskRegex.isTagChar run = true
      /\ (m = 35%N :: run
          \/ exists c, m = c :: 35%N :: run /\ isWhiteSpace c = true).
Proof.
  unfold TaskRegex.hashTagAt.
  destruct (if a then TaskRegex.hashRun s else None) as [m'|] eqn:E.
  - intros [= <-]. destruct a; [|discriminate].
    apply hashRun_inv in E as [r [-> [_ ->]]]. split.
    + exists (dropWhile TaskRegex.isTagChar r). cbn [app].
      rewrite takeWhile_dropWhile. reflexivity.
    + exists (takeWhile TaskRegex.isTagChar r).
      split; [apply takeWhile_forallb | left; reflexivity].
  - destruct s as [|c r]; [discriminate|].
    destruct (isWhiteSpace c) eqn:Ec; [|discriminate].
    destruct (TaskRegex.hashRun r) as [m'|] eqn:Em; [|discriminate].
    intros [= <-]. apply hashRun_inv in Em as [r' [-> [_ ->]]]. split.
    + exists (dropWhile TaskRegex.isTagChar r'). cbn [app].
      rewrite takeWhile_dropWhile. reflexivity.
    + exists (takeWhile TaskRegex.isTagChar r').
      split; [apply takeWhile_forallb|].
      right. exists c. split; [reflexivity | assumption].
Qed.

(** Every match of a global search is a substring of the text, and is
    the result of an attempt. *)
Lemma matchAllGo_In (attempt : bool -> jsstring -> option jsstring)
      (s : jsstring) :
  (forall a t m, attempt a t = Some m -> exists rest, t = m ++ rest) ->
  forall k a m,
    In m (matchAllGo attempt k a s) ->
    includes s m = true /\ exists a' t, attempt a' t = Some m.
Proof.
  intros Hpre. induction s as [|x s IH]; intros k a m; cbn [matchAllGo];
    [intros []|].
  assert (Hr : forall k', In m (matchAllGo attempt k' false s) ->
               includes (x :: s) m = true
               /\ exists a' t, attempt a' t = Some m).
  { intros k' H. apply IH in H as [H1 H2].
    split; [rewrite includes_cons, H1; apply orb_true_r | exact H2]. }
  destruct k as [|k]; [|apply Hr].
  destruct (attempt a (x :: s)) as [m0|] eqn:E; [|apply Hr].
  intros [<- | H]; [|exact (Hr _ H)].
  split; [|eauto]. apply startsWith_includes, startsWith_prefix.
  exact (Hpre _ _ _ E).
Qed.

(** X7.  Every tag of a recognised task is a hash followed only by
    characters that do not end a tag; it has no white space at either end
    and it is written in the description. *)
Theorem tags_are_hash_names
        (line fp : jsstring) (n : nat) (t : Task) (tag : jsstring) :
  parseTaskLine line fp n = Some t ->
  In tag (tags t) ->
  (exists name, tag = 35%N :: name
                /\ forallb TaskRegex.isTagChar name = true)
  /\ trim tag = tag
  /\ includes (description t) tag = true.
Proof.
  intros Ht Htag.
  destruct (parseTaskLine_fields _ _ _ _ Ht) as [m [_ [_ [_ [Htags _]]]]].
  rewrite Htags in Htag. unfold cleanTags in Htag.
  apply filter_In in Htag as [Htag _].
  apply in_map_iff in Htag as [mt [<- Hmt]].
  unfold TaskRegex.hashTags, matchAll in Hmt.
  apply matchAllGo_In in Hmt as [Hinc [a' [s' Hat]]];
    [|intros a0 t0 m0 H0; exact (proj1 (hashTagAt_run _ _ _ H0))].
  split; [|split].
  - destruct (proj2 (hashTagAt_run _ _ _ Hat)) as [run [Hrun Hm]].
    assert (Hname : forallb TaskRegex.isTagChar (trimEnd run) = true).
    { rewrite forallb_forall in Hrun |- *.
      intros c Hc. apply Hrun, trimEnd_In, Hc. }
    exists (trimEnd run). split; [|exact Hname].
    destruct Hm as [-> | [c [-> Hc]]]; unfold trim, trimStart;
      cbn [dropWhile]; rewrite ?Hc;
      change (isWhiteSpace 35) with false; cbv iota;
      apply trimEnd_cons; reflexivity.
  - apply trim_idem.
  - eapply includes_trans; [exact Hinc | apply trim_includes].
Qed.

Lemma tags_are_hash_names_witness :
  includes (js "Call Ann #work/boss, then #home")
           (js "#work/boss") = true.
Proof.
  eapply (tags_are_hash_names
            (js "- [ ] Call Ann #work/boss, then #home") (js "notes.md") 1 _
            (js "#work/boss") eq_refl).
  left. reflexivity.
Defined.

(* ------------------------------------------------------------------ *)
(** ** Dates *)

(** The code unit [x], on which a match of [H] depends, is [k]. *)
Ltac code_unit_is H x k :=
  destruct (N.eq_dec x k) as [-> | ?];
  [| exfalso; destruct x as [|?p]; [discriminate H|];
     repeat (match goal with q : positive |- _ =>
                               destruct q as [q|q|]; try discriminate H
             end);
     congruence ].

Lemma dateAt_inv (s d r : jsstring) :
  TaskRegex.dateAt s = Some (d, r) ->
  s = d ++ r /\ isDateText d /\ List.length d = 10.
Proof.
  unfold isDateText, dateEnd. intros H.
  destruct s as [|y1 s]; [discriminate H|].
  destruct s as [|y2 s]; [discriminate H|].
  destruct s as [|y3 s]; [discriminate H|].
  destruct s as [|y4 s]; [discriminate H|].
  destruct s as [|h1 s]; [discriminate H|].
  code_unit_is H h1 45%N.
  destruct s as [|m1 s]; [discriminate H|].
  destruct s as [|m2 s]; [discriminate H|].
  destruct s as [|h2 s]; [discriminate H|].
  code_unit_is H h2 45%N.
  destruct s as [|d1 s]; [discriminate H|].
  destruct s as [|d2 s]; [discriminate H|].
  cbn [TaskRegex.dateAt] in H.
  destruct (forallb isDigit [y1; y2; y3; y4; m1; m2; d1; d2]) eqn:E;
    [|discriminate H].
  injection H as <- <-. split; [reflexivity|]. split; [|reflexivity].
  cbn [TaskRegex.dateAt]. rewrite E. reflexivity.
Qed.

Lemma isDateText_length (d : jsstring) : isDateText d -> List.length d = 10.
Proof.
  unfold isDateText, dateEnd. intros H.
  destruct (TaskRegex.dateAt d) as [[d' r]|] eqn:E; [|discriminate].
  destruct r; [|discriminate]. injection H as ->.
  apply dateAt_inv in E. apply E.
Qed.

Lemma literal_inv (p s r : jsstring) :
  TaskRegex.literal p s = Some r -> s = p ++ r.
Proof.
  revert s. induction p as [|y p IH]; intros s; cbn [TaskRegex.literal].
  - destruct s; intros [= <-]; reflexivity.
  - destruct s as [|x s]; [discriminate|].
    destruct (N.eqb x y) eqn:E; [|discriminate].
    apply N.eqb_eq in E. subst. intros H. rewrite (IH _ H). reflexivity.
Qed.

Lemma literal_app (p r : jsstring) : TaskRegex.literal p (p ++ r) = Some r.
Proof.
  induction p as [|y p IH]; cbn [app TaskRegex.literal].
  - destruct r; reflexivity.
  - rewrite N.eqb_refl. exact IH.
Qed.

Lemma optSpaceDate_inv (s d : jsstring) :
  TaskRegex.optSpaceDate s = Some d ->
  isDateText d /\ includes s d = true.
Proof.
  unfold TaskRegex.optSpaceDate.
  set (s' := match s with
             | [] => s
             | c :: r => if isWhiteSpace c then r else s
             end).
  assert (Hs' : includes s s' = true).
  { subst s'. destruct s as [|c r]; [reflexivity|].
    destruct (isWhiteSpace c).
    - apply (includes_skipn_self (c :: r) 1).
    - apply (includes_skipn_self (c :: r) 0). }
  destruct (TaskRegex.dateAt s') as [[d' r]|] eqn:E; [|discriminate].
  cbn. intros [= <-]. apply dateAt_inv in E as [E [Hd _]].
  split; [exact Hd|]. eapply includes_trans; [exact Hs'|].
  apply includes_iff. exists [], r. exact E.
Qed.

Lemma dueDateRegex_inv (s d : jsstring) :
  TaskRegex.dueDateRegex s = Some d -> isDateText d /\ includes s d = true.
Proof.
  unfold TaskRegex.dueDateRegex. intros H.
  apply search_some in H as [i H].
  destruct (skipn i s) as [|c r] eqn:E; [discriminate|].
  destruct (inSet c _); [|discriminate].
  apply optSpaceDate_inv in H as [Hd H]. split; [exact Hd|].
  apply (includes_skipn s d i). rewrite E, includes_cons, H.
  apply orb_true_r.
Qed.

Lemma afterGlyph_inv (g s d : jsstring) :
  TaskRegex.afterGlyph g s = Some d -> isDateText d /\ includes s d = true.
Proof.
  unfold TaskRegex.afterGlyph. intros H.
  apply search_some in H as [i H].
  destruct (TaskRegex.literal g (skipn i s)) as [r|] eqn:E; [|discriminate].
  apply literal_inv in E.
  apply optSpaceDate_inv in H as [Hd H]. split; [exact Hd|].
  apply (includes_skipn s d i). eapply includes_trans; [|exact H].
  apply includes_iff. exists g, []. rewrite app_nil_r. exact E.
Qed.

(** X8.  Each date of a recognised task (due, scheduled, start, created),
    when present, has the form [YYYY-MM-DD] (four digits, a hyphen, two
    digits, a hyphen, two digits) and is written in the description. *)
Theorem dates_are_date_texts
        (line fp : jsstring) (n : nat) (t : Task) (d : jsstring) :
  parseTaskLine line fp n = Some t ->
  dueDate t = Some d \/ scheduledDate t = Some d
  \/ startDate t = Some d \/ createdDate t = Some d ->
  isDateText d /\ List.length d = 10 /\ includes (description t) d = true.
Proof.
  intros Ht Hd.
  destruct (parseTaskLine_fields _ _ _ _ Ht)
    as [m [_ [_ [_ [_ [H1 [H2 [H3 [H4 _]]]]]]]]].
  assert (H : isDateText d /\ includes (description t) d = true).
  { destruct Hd as [Hd | [Hd | [Hd | Hd]]].
    - rewrite H1 in Hd. apply dueDateRegex_inv, Hd.
    - rewrite H2 in Hd. eapply afterGlyph_inv, Hd.
    - rewrite H3 in Hd. eapply afterGlyph_inv, Hd.
    - rewrite H4 in Hd. eapply afterGlyph_inv, Hd. }
  destruct H as [Hdate Hinc]. repeat split; try assumption.
  apply isDateText_length, Hdate.
Qed.

Lemma dates_are_date_texts_witness :
  isDateText (js "2025-04-25").
Proof.
  eapply (dates_are_date_texts
            (js "- [ ] Report " ++ [9203%N] ++ js " 2025-04-25 #work")
            (js "notes.md") 0 _ (js "2025-04-25") eq_refl).
  right. left. reflexivity.
Defined.

(* ------------------------------------------------------------------ *)
(** ** Recurrence *)

(** A search that succeeds succeeds at a first position. *)
Lemma search_some_first (A : Type) (m : jsstring -> option A)
      (s : jsstring) (a : A) :
  search m s = Some a ->
  exists i, m (skipn i s) = Some a
            /\ forall j, j < i -> m (skipn j s) = None.
Proof.
  induction s as [|x r IH]; rewrite search_unfold.
  - destruct (m []) eqn:E; [|discriminate].
    intros [= <-]. exists 0. split; [exact E | intros j Hj; lia].
  - destruct (m (x :: r)) eqn:E.
    + intros [= <-]. exists 0. split; [exact E | intros j Hj; lia].
    + intros H. destruct (IH H) as [i [Hi Hbefore]]. exists (S i).
      split; [exact Hi|]. intros [|j] Hj; [exact E|].
      apply Hbefore. lia.
Qed.

Lemma literal_none (p s : jsstring) :
  TaskRegex.literal p s = None -> startsWith s p = false.
Proof.
  intros H. destruct (startsWith s p) eqn:E; [|reflexivity].
  apply startsWith_prefix in E as [r ->]. rewrite literal_app in H.
  discriminate H.
Qed.

(** X9.  A recognised task has a recurrence exactly when the recurrence
    glyph (U+1F501) is written in its description.  The recurrence is then
    the word that follows the first glyph: after that glyph and one white
    space, when there is one, it runs up to the next white space or to the
    end of the description, and holds no white space itself. *)
Theorem recurrence_is_one_word
        (line fp : jsstring) (n : nat) (t : Task) :
  parseTaskLine line fp n = Some t ->
  ((exists r, recurrence t = Some r)
   <-> includes (description t) [55357%N; 56577%N] = true)
  /\ (forall r,
         recurrence t = Some r ->
         exists before sp rest,
           description t = before ++ [55357%N; 56577%N] ++ sp ++ r ++ rest
           /\ (forall j, j < List.length before ->
                         startsWith (skipn j (description t))
                                    [55357%N; 56577%N] = false)
           /\ (sp = [] \/ exists c, sp = [c] /\ isWhiteSpace c = true)
           /\ (sp = [] -> stopsAt isWhiteSpace (r ++ rest))
           /\ forallb (fun x => negb (isWhiteSpace x)) r = true
           /\ (rest = [] \/ exists c q, rest = c :: q
                                        /\ isWhiteSpace c = true)).
Proof.
  intros Ht.
  destruct (parseTaskLine_fields _ _ _ _ Ht)
    as [m [_ [_ [_ [_ [_ [_ [_ [_ [Hr _]]]]]]]]]].
  rewrite Hr. unfold TaskRegex.recurrenceRegex.
  match goal with
  | |- context [search ?f (description t)] => set (attempt := f)
  end.
  split.
  - split.
    + intros [r H]. apply search_some in H as [i H]. subst attempt.
      cbv beta in H.
      destruct (TaskRegex.literal _ (skipn i (description t))) as [r0|] eqn:E;
        [|discriminate].
      apply literal_inv in E.
      apply (includes_skipn _ _ i), includes_iff. exists [], r0. exact E.
    + intros H. apply includes_iff in H as [a [b H]].
      destruct (search attempt (description t)) as [r|] eqn:E;
        [exists r; reflexivity|].
      exfalso. pose proof (search_none_inv _ _ _ E (List.length a)) as Hn.
      rewrite H, skipn_app, skipn_all, Nat.sub_diag in Hn.
      change (attempt ([55357%N; 56577%N] ++ b) = None) in Hn.
      subst attempt. cbv beta in Hn.
      rewrite (literal_app [55357%N; 56577%N] b) in Hn. discriminate Hn.
  - intros r H. apply search_some_first in H as [i [H Hbefore]].
    subst attempt. cbv beta in H, Hbefore.
    destruct (TaskRegex.literal _ (skipn i (description t))) as [r0|] eqn:E;
      [|discriminate].
    apply literal_inv in E. injection H as H.
    assert (Hi : i < List.length (description t)).
    { destruct (Nat.lt_ge_cases i (List.length (description t)))
        as [Hlt | Hge]; [exact Hlt|].
      rewrite skipn_all2 in E by exact Hge. discriminate E. }
    set (r' := match r0 with
               | [] => r0
               | c :: q => if isWhiteSpace c then q else r0
               end) in H.
    exists (firstn i (description t)),
           (match r0 with
            | [] => []
            | c :: _ => if isWhiteSpace c then [c] else []
            end),
           (dropWhile (fun x => negb (isWhiteSpace x)) r').
    assert (Hsplit : r0 = match r0 with
                          | [] => []
                          | c :: _ => if isWhiteSpace c then [c] else []
                          end ++ r').
    { subst r'. destruct r0 as [|c q]; [reflexivity|].
      destruct (isWhiteSpace c); reflexivity. }
    split; [|split; [|split; [|split; [|split]]]].
    + rewrite <- H, takeWhile_dropWhile, <- Hsplit, <- E.
      symmetry. apply firstn_skipn.
    + intros j Hj. rewrite length_firstn, Nat.min_l in Hj by lia.
      specialize (Hbefore j Hj).
      destruct (TaskRegex.literal _ (skipn j (description t))) eqn:Ej;
        [discriminate Hbefore|].
      apply literal_none, Ej.
    + destruct r0 as [|c q]; [left; reflexivity|].
      destruct (isWhiteSpace c) eqn:Ec; [right | left; reflexivity].
      exists c. split; [reflexivity | exact Ec].
    + intros Hsp. rewrite <- H, takeWhile_dropWhile. subst r'.
      destruct r0 as [|c q]; [exact I|].
      destruct (isWhiteSpace c) eqn:Ec; [discriminate Hsp | exact Ec].
    + rewrite <- H. apply takeWhile_forallb.
    + destruct (dropWhile (fun x => negb (isWhiteSpace x)) r')
        as [|c q] eqn:Ed; [left; reflexivity|].
      right. exists c, q. split; [reflexivity|].
      apply dropWhile_head in Ed. apply negb_false_iff, Ed.
Qed.

Lemma recurrence_is_one_word_witness :
  exists before sp rest,
    js "Water plants " ++ [55357%N; 56577%N] ++ js " every week"
    = before ++ [55357%N; 56577%N] ++ sp ++ js "every" ++ rest
    /\ (rest = [] \/ exists c q, rest = c :: q /\ isWhiteSpace c = true).
Proof.
  destruct (proj2 (recurrence_is_one_word
                     (js "- [ ] Water plants " ++ [55357%N; 56577%N]
                      ++ js " every week") (js "notes.md") 0 _ eq_refl)
                  (js "every") eq_refl)
    as [before [sp [rest [H1 [_ [_ [_ [_ H2]]]]]]]].
  exists before, sp, rest. split; [exact H1 | exact H2].
Defined.

(* ------------------------------------------------------------------ *)
(** ** Priority *)

(** The six words of the priority filter. *)
Lemma priority_filter_value (today : jsstring) (task : Task)
      (level : jsstring) :
  In level [js "highest"; js "high"; js "medium"; js "low"; js "lowest";
            js "none"] ->
  applyFilter today task (js "priority is " ++ level)
  = Ok (if streq level (js "none") then isUndefined (priority task)
        else optEq (priority task) level).
Proof.
  intros H. simpl in H.
  repeat (destruct H as [<- | H];
          [match goal with
           | |- applyFilter _ _ ?f = _ =>
               rewrite (applyFilter_predicate today task f f)
                 by reflexivity
           end; reflexivity|]).
  destruct H.
Qed.

Lemma levelOf_range (g level : jsstring) :
  levelOf g = Some level ->
  In level [js "highest"; js "high"; js "medium"; js "low"; js "lowest"].
Proof.
  unfold levelOf.
  repeat match goal with
         | |- (if ?c then _ else _) = _ -> _ =>
             destruct c; [intros [= <-]; simpl; tauto|]
         end.
  discriminate.
Qed.

(** X10.  The priority of a recognised task is absent or one of the five
    levels, so exactly one of the six priority filters ([priority is
    highest], ..., [priority is none]) holds for it. *)
Theorem one_priority_filter_holds
        (today line fp : jsstring) (n : nat) (t : Task) :
  parseTaskLine line fp n = Some t ->
  exists level,
    In level [js "highest"; js "high"; js "medium"; js "low"; js "lowest";
              js "none"]
    /\ (priority t = None /\ level = js "none"
        \/ priority t = Some level /\ level <> js "none")
    /\ forall level',
        In level' [js "highest"; js "high"; js "medium"; js "low";
                   js "lowest"; js "none"] ->
        (applyFilter today t (js "priority is " ++ level') = Ok true
         <-> level' = level).
Proof.
  intros Ht.
  destruct (parseTaskLine_fields _ _ _ _ Ht)
    as [m [_ [_ [_ [_ [_ [_ [_ [_ [_ Hp]]]]]]]]]].
  assert (Hcases : priority t = None
                   \/ exists level, priority t = Some level
                        /\ In level [js "highest"; js "high"; js "medium";
                                     js "low"; js "lowest"]).
  { rewrite Hp. unfold priorityOf.
    destruct (TaskRegex.priorityMatches (description t)) as [|g l];
      [left; reflexivity|].
    destruct (levelOf g) as [level|] eqn:E; [right | left; reflexivity].
    exists level. split; [reflexivity | apply levelOf_range in E; exact E]. }
  clear Hp.
  assert (Hval : forall level',
             In level' [js "highest"; js "high"; js "medium"; js "low";
                        js "lowest"; js "none"] ->
             applyFilter today t (js "priority is " ++ level')
             = Ok (if streq level' (js "none")
                   then isUndefined (priority t)
                   else optEq (priority t) level'))
    by (intros; apply priority_filter_value; assumption).
  destruct Hcases as [Hnone | [level [Hsome Hin]]].
  - exists (js "none"). split; [simpl; tauto|]. split; [left; auto|].
    intros level' Hl. rewrite (Hval level' Hl), Hnone. simpl in Hl.
    repeat (destruct Hl as [<- | Hl];
            [split; intros H; first [reflexivity | discriminate H]|]).
    destruct Hl.
  - exists level. split; [simpl in Hin |- *; tauto|].
    split.
    { right. split; [exact Hsome|]. simpl in Hin.
      repeat (destruct Hin as [<- | Hin]; [discriminate|]). destruct Hin. }
    intros level' Hl. rewrite (Hval level' Hl), Hsome.
    simpl in Hin, Hl.
    repeat (destruct Hin as [<- | Hin];
            [repeat (destruct Hl as [<- | Hl];
                     [split; intros H;
                      first [reflexivity | discriminate H]|]);
             destruct Hl|]).
    destruct Hin.
Qed.

Lemma one_priority_filter_holds_witness :
  exists t,
    parseTaskLine (js "- [ ] Pay rent " ++ TaskRegex.gLow)
                  (js "notes.md") 0 = Some t
    /\ exists level,
        priority t = Some level
        /\ (applyFilter (js "2025-04-18") t (js "priority is low") = Ok true
            <-> js "low" = level).
Proof.
  eexists. split; [reflexivity|].
  destruct (one_priority_filter_holds (js "2025-04-18")
              (js "- [ ] Pay rent " ++ TaskRegex.gLow)
              (js "notes.md") 0 _ eq_refl) as [level [_ [Hp H]]].
  exists level. split.
  - destruct Hp as [[Hn _] | [Hs _]]; [discriminate Hn | exact Hs].
  - apply (H (js "low")). simpl. tauto.
Defined.

(* ------------------------------------------------------------------ *)
(** ** The filter text is read without its case and its padding *)

Lemma isWhiteSpace_false_range (x : N) :
  (33 <= x <= 159)%N -> isWhiteSpace x = false.
Proof.
  intros H. unfold isWhiteSpace, inSet. cbn [existsb].
  repeat match goal with
         | |- context [N.eqb x ?b] =>
             replace (N.eqb x b) with false
               by (symmetry; apply N.eqb_neq; lia)
         end.
  replace (N.leb 8192 x) with false by (symmetry; apply N.leb_gt; lia).
  reflexivity.
Qed.

Lemma lowerUnit_cases (c : N) :
  (65 <= c <= 90)%N /\ lowerUnit c = (c + 32)%N
  \/ ~ (65 <= c <= 90)%N /\ lowerUnit c = c.
Proof.
  unfold lowerUnit. destruct (N.leb 65 c && N.leb c 90) eqn:E.
  - left. apply andb_true_iff in E as [E1 E2].
    apply N.leb_le in E1, E2. split; [lia | reflexivity].
  - right. split; [|reflexivity].
    apply andb_false_iff in E as [E | E]; apply N.leb_gt in E; lia.
Qed.

Lemma lowerUnit_idem (c : N) : lowerUnit (lowerUnit c) = lowerUnit c.
Proof.
  destruct (lowerUnit_cases c) as [[H E] | [H E]]; rewrite E.
  - destruct (lowerUnit_cases (c + 32)) as [[H' _] | [_ E']];
      [lia | exact E'].
  - exact E.
Qed.

Lemma isWhiteSpace_lowerUnit (c : N) :
  isWhiteSpace (lowerUnit c) = isWhiteSpace c.
Proof.
  destruct (lowerUnit_cases c) as [[H E] | [H E]]; rewrite E;
    [|reflexivity].
  rewrite !isWhiteSpace_false_range by lia. reflexivity.
Qed.

Lemma toLowerCase_idem (s : jsstring) :
  toLowerCase (toLowerCase s) = toLowerCase s.
Proof.
  unfold toLowerCase. rewrite map_map. apply map_ext, lowerUnit_idem.
Qed.

Lemma dropWhile_toLowerCase (s : jsstring) :
  dropWhile isWhiteSpace (toLowerCase s)
  = toLowerCase (dropWhile isWhiteSpace s).
Proof.
  induction s as [|c r IH]; [reflexivity|].
  cbn [toLowerCase map dropWhile]. rewrite isWhiteSpace_lowerUnit.
  destruct (isWhiteSpace c); [exact IH | reflexivity].
Qed.

Lemma trim_toLowerCase (s : jsstring) :
  trim (toLowerCase s) = toLowerCase (trim s).
Proof.
  unfold trim, trimEnd, trimStart. rewrite dropWhile_toLowerCase.
  unfold toLowerCase at 1. rewrite <- map_rev.
  fold (toLowerCase (rev (dropWhile isWhiteSpace s))).
  rewrite dropWhile_toLowerCase. unfold toLowerCase. symmetry. apply map_rev.
Qed.

(** The answer depends on the lower-cased, trimmed text only. *)
Lemma applyFilter_normal (today : jsstring) (task : Task)
      (f g : jsstring) :
  trim (toLowerCase f) = trim (toLowerCase g) ->
  applyFilter today task f = applyFilter today task g.
Proof.
  intros H. rewrite !applyFilter_unfold. cbv zeta. rewrite H. reflexivity.
Qed.

(** X11.  [applyFilter] reads its filter without the case of the letters
    A-Z and without the white space around it: lower-casing the filter, or
    trimming it, or both, never changes the answer. *)
Theorem applyFilter_ignores_case_and_padding
        (today : jsstring) (task : Task) (filter : jsstring) :
  applyFilter today task (toLowerCase filter) = applyFilter today task filter
  /\ applyFilter today task (trim filter) = applyFilter today task filter
  /\ applyFilter today task (trim (toLowerCase filter))
     = applyFilter today task filter.
Proof.
  repeat split; apply applyFilter_normal.
  - rewrite toLowerCase_idem. reflexivity.
  - rewrite !trim_toLowerCase, trim_idem. reflexivity.
  - rewrite !trim_toLowerCase, toLowerCase_idem, trim_idem. reflexivity.
Qed.

(* ------------------------------------------------------------------ *)
(** ** Filters made of keywords and one word *)

Ltac eval_js :=
  repeat match goal with
         | |- context [js ?s] =>
             let v := eval vm_compute in (js s) in change (js s) with v
         end.

Lemma forallb_app_word (a b : jsstring) :
  forallb (fun c => negb (isWhiteSpace c)) (a ++ b) = true ->
  forallb (fun c => negb (isWhiteSpace c)) a = true
  /\ forallb (fun c => negb (isWhiteSpace c)) b = true.
Proof. rewrite forallb_app. apply andb_true_iff. Qed.

Lemma word_no_space (q : jsstring) :
  forallb (fun c => negb (isWhiteSpace c)) q = true ->
  existsb isWhiteSpace q = true -> False.
Proof.
  induction q as [|x q IH]; cbn [forallb existsb]; [discriminate|].
  intros H1 H2. apply andb_true_iff in H1 as [Hx Hq].
  apply orb_true_iff in H2 as [H2 | H2]; [|exact (IH Hq H2)].
  rewrite H2 in Hx. discriminate Hx.
Qed.

(** A text with a white space neither begins a word nor is written in
    it. *)
Lemma startsWith_word (w q : jsstring) :
  forallb (fun c => negb (isWhiteSpace c)) w = true ->
  existsb isWhiteSpace q = true -> startsWith w q = false.
Proof.
  intros Hw Hq. destruct (startsWith w q) eqn:E; [|reflexivity].
  exfalso. apply startsWith_prefix in E as [r E]. rewrite E in Hw.
  apply forallb_app_word in Hw as [Hw _]. exact (word_no_space q Hw Hq).
Qed.

Lemma includes_word (w q : jsstring) :
  forallb (fun c => negb (isWhiteSpace c)) w = true ->
  existsb isWhiteSpace q = true -> includes w q = false.
Proof.
  intros Hw Hq. destruct (includes w q) eqn:E; [|reflexivity].
  exfalso. apply includes_iff in E as [a [b E]]. rewrite E in Hw.
  apply forallb_app_word in Hw as [_ Hw].
  apply forallb_app_word in Hw as [Hw _]. exact (word_no_space q Hw Hq).
Qed.

(** A keyword text followed by a word is not touched by [trim]. *)
Lemma trimEnd_app_word (a w : jsstring) :
  isWord w -> trimEnd (a ++ w) = a ++ w.
Proof.
  intros [Hne Hw]. unfold trimEnd. rewrite rev_app_distr.
  destruct (rev w) as [|x r] eqn:E.
  - exfalso. apply Hne. rewrite <- (rev_involutive w), E. reflexivity.
  - assert (Hx : isWhiteSpace x = false).
    { apply negb_true_iff.
      apply (proj1 (forallb_forall _ w) Hw x).
      apply in_rev. rewrite E. left. reflexivity. }
    cbn [app dropWhile]. rewrite Hx.
    change (x :: r ++ rev a) with ((x :: r) ++ rev a).
    rewrite <- E, <- rev_app_distr. apply rev_involutive.
Qed.

Lemma trim_app_word (c : N) (a w : jsstring) :
  isWhiteSpace c = false -> isWord w ->
  trim ((c :: a) ++ w) = (c :: a) ++ w.
Proof.
  intros Hc Hw. unfold trim, trimStart. cbn [app dropWhile]. rewrite Hc.
  exact (trimEnd_app_word (c :: a) w Hw).
Qed.

Lemma toLowerCase_app (a b : jsstring) :
  toLowerCase (a ++ b) = toLowerCase a ++ toLowerCase b.
Proof. apply map_app. Qed.

Lemma isWord_toLowerCase (w : jsstring) : isWord w -> isWord (toLowerCase w).
Proof.
  intros [Hne Hw]. split.
  - destruct w; [congruence | discriminate].
  - unfold toLowerCase. rewrite forallb_forall in Hw |- *.
    intros x Hx. apply in_map_iff in Hx as [y [<- Hy]].
    rewrite isWhiteSpace_lowerUnit. exact (Hw y Hy).
Qed.

Lemma startsWith_cons (x : N) (s : jsstring) (y : N) (p : jsstring) :
  startsWith (x :: s) (y :: p) = N.eqb x y && startsWith s p.
Proof. reflexivity. Qed.

(** The tests of [applyFilter] for the connectives, on a text that begins
    with keywords and ends with the word [w]. *)
Ltac no_connective Hw :=
  eval_js; cbn [app];
  repeat (rewrite includes_cons; apply orb_false_intro;
          [first [ reflexivity
                 | rewrite !startsWith_cons; cbn [N.eqb Pos.eqb andb];
                   apply (startsWith_word _ _ Hw); reflexivity ]|]);
  apply (includes_word _ _ Hw); reflexivity.

Lemma streq_length_neq (a b : jsstring) :
  List.length a <> List.length b -> streq a b = false.
Proof.
  intros H. apply streq_neq. intros E. apply H. rewrite E. reflexivity.
Qed.

(** ** The filters on the due date *)

Lemma dateAt_shape (s d r : jsstring) :
  TaskRegex.dateAt s = Some (d, r) ->
  exists y q, d = y :: q /\ isDigit y = true
              /\ forall c, In c d -> isDigit c = true \/ c = 45%N.
Proof.
  intros H.
  destruct s as [|y1 s]; [discriminate H|].
  destruct s as [|y2 s]; [discriminate H|].
  destruct s as [|y3 s]; [discriminate H|].
  destruct s as [|y4 s]; [discriminate H|].
  destruct s as [|h1 s]; [discriminate H|].
  code_unit_is H h1 45%N.
  destruct s as [|m1 s]; [discriminate H|].
  destruct s as [|m2 s]; [discriminate H|].
  destruct s as [|h2 s]; [discriminate H|].
  code_unit_is H h2 45%N.
  destruct s as [|d1 s]; [discriminate H|].
  destruct s as [|d2 s]; [discriminate H|].
  cbn [TaskRegex.dateAt] in H.
  destruct (forallb isDigit [y1; y2; y3; y4; m1; m2; d1; d2]) eqn:E;
    [|discriminate H].
  injection H as <- <-. eexists _, _. split; [reflexivity|].
  rewrite forallb_forall in E. split; [apply E; simpl; tauto|].
  intros c Hc. simpl in Hc.
  repeat (destruct Hc as [<- | Hc];
          [first [right; reflexivity | left; apply E; simpl; tauto]|]).
  destruct Hc.
Qed.

Lemma isDateText_shape (d : jsstring) :
  isDateText d ->
  exists y q, d = y :: q /\ isDigit y = true
              /\ forall c, In c d -> (45 <= c <= 57)%N.
Proof.
  unfold isDateText, dateEnd. intros H.
  destruct (TaskRegex.dateAt d) as [[d' r]|] eqn:E; [|discriminate].
  destruct r; [|discriminate]. injection H as ->.
  apply dateAt_shape in E as [y [q [E [Hy Hall]]]].
  exists y, q. split; [exact E|]. split; [exact Hy|].
  intros c Hc. destruct (Hall c Hc) as [Hd | ->]; [|lia].
  unfold isDigit in Hd. apply andb_true_iff in Hd as [H1 H2].
  apply N.leb_le in H1, H2. lia.
Qed.

Lemma isDateText_word (d : jsstring) : isDateText d -> isWord d.
Proof.
  intros H. destruct (isDateText_shape d H) as [y [q [E [_ Hall]]]].
  split; [rewrite E; discriminate|].
  apply forallb_forall. intros c Hc. apply negb_true_iff.
  apply isWhiteSpace_false_range. pose proof (Hall c Hc). lia.
Qed.

Lemma isDateText_lower (d : jsstring) : isDateText d -> toLowerCase d = d.
Proof.
  intros H. destruct (isDateText_shape d H) as [_ [_ [_ [_ Hall]]]].
  unfold toLowerCase. rewrite <- (map_id d) at 2. apply map_ext_in.
  intros c Hc. pose proof (Hall c Hc).
  destruct (lowerUnit_cases c) as [[Hr _] | [_ E]]; [lia | exact E].
Qed.

Lemma isDateText_head (d : jsstring) :
  isDateText d ->
  dropWhile isWhiteSpace d = d
  /\ TaskRegex.literal (js "on") d = None.
Proof.
  intros H. destruct (isDateText_shape d H) as [y [q [-> [Hy _]]]].
  unfold isDigit in Hy. apply andb_true_iff in Hy as [H1 H2].
  apply N.leb_le in H1, H2. split.
  - cbn [dropWhile]. rewrite isWhiteSpace_false_range by lia. reflexivity.
  - eval_js. cbn [TaskRegex.literal].
    replace (N.eqb y 111) with false
      by (symmetry; apply N.eqb_neq; lia).
    reflexivity.
Qed.

Lemma dateEnd_head_none (c : N) (s : jsstring) :
  isDigit c = false -> dateEnd (c :: s) = None.
Proof.
  intros Hc. unfold dateEnd.
  destruct (TaskRegex.dateAt (c :: s)) as [[d r]|] eqn:E; [|reflexivity].
  exfalso. pose proof (dateAt_inv _ _ _ E) as [Es _].
  apply dateAt_shape in E as [y [q [-> [Hy _]]]].
  injection Es as -> _. rewrite Hy in Hc. discriminate Hc.
Qed.

Lemma spaces1_space_date (d : jsstring) :
  isDateText d -> spaces1 (32%N :: d) = Some d.
Proof.
  intros H. cbn [spaces1]. change (isWhiteSpace 32) with true. cbv iota.
  rewrite (proj1 (isDateText_head d H)). reflexivity.
Qed.

Section DuePatterns.

Variable d : jsstring.
Hypothesis Hd : isDateText d.

Lemma dueDatePattern_plain : dueDatePattern (js "due " ++ d) = Some d.
Proof.
  unfold dueDatePattern.
  change (js "due " ++ d) with (js "due" ++ 32%N :: d).
  rewrite literal_app, spaces1_space_date by exact Hd.
  rewrite (proj2 (isDateText_head d Hd)). exact Hd.
Qed.

Lemma dueDatePattern_on : dueDatePattern (js "due on " ++ d) = Some d.
Proof.
  unfold dueDatePattern.
  change (js "due on " ++ d) with (js "due" ++ 32%N :: js "on" ++ 32%N :: d).
  rewrite literal_app.
  change (spaces1 (32%N :: js "on" ++ 32%N :: d))
    with (Some (js "on" ++ 32%N :: d)).
  cbv iota. rewrite literal_app, spaces1_space_date by exact Hd. exact Hd.
Qed.

Lemma dueDatePattern_word (word : jsstring) :
  word = js "before" \/ word = js "after" ->
  dueDatePattern (js "due " ++ word ++ 32%N :: d) = None.
Proof.
  intros Hw. unfold dueDatePattern.
  change (js "due " ++ word ++ 32%N :: d)
    with (js "due" ++ 32%N :: word ++ 32%N :: d).
  rewrite literal_app.
  destruct Hw as [-> | ->].
  - change (spaces1 (32%N :: js "before" ++ 32%N :: d))
      with (Some (js "before" ++ 32%N :: d)).
    cbv iota.
    change (TaskRegex.literal (js "on") (js "before" ++ 32%N :: d))
      with (@None jsstring).
    cbv iota. apply dateEnd_head_none. reflexivity.
  - change (spaces1 (32%N :: js "after" ++ 32%N :: d))
      with (Some (js "after" ++ 32%N :: d)).
    cbv iota.
    change (TaskRegex.literal (js "on") (js "after" ++ 32%N :: d))
      with (@None jsstring).
    cbv iota. apply dateEnd_head_none. reflexivity.
Qed.

Lemma dueWordPattern_same (word : jsstring) :
  word = js "before" \/ word = js "after" ->
  dueWordPattern word (js "due " ++ word ++ 32%N :: d) = Some d.
Proof.
  intros Hw. unfold dueWordPattern.
  change (js "due " ++ word ++ 32%N :: d)
    with (js "due" ++ 32%N :: word ++ 32%N :: d).
  rewrite literal_app.
  assert (E : spaces1 (32%N :: word ++ 32%N :: d)
              = Some (word ++ 32%N :: d))
    by (destruct Hw as [-> | ->]; reflexivity).
  rewrite E, literal_app, spaces1_space_date by exact Hd. exact Hd.
Qed.

Lemma dueWordPattern_before_after :
  dueWordPattern (js "before") (js "due after " ++ d) = None.
Proof. reflexivity. Qed.

End DuePatterns.

Lemma applyPredicate_long (today : jsstring) (task : Task)
      (f : jsstring) (b : bool) :
  11 < List.length f ->
  dueFilters today task f = Some b ->
  applyPredicate today task f = Ok b.
Proof.
  intros Hlen H. unfold applyPredicate.
  rewrite !streq_length_neq by (vm_compute List.length at 2; lia).
  rewrite H. reflexivity.
Qed.

Lemma dueFilters_patterns (today : jsstring) (task : Task) (f : jsstring) :
  startsWith f (js "due") = true ->
  In (List.length f) [14; 17; 20; 21] ->
  dueFilters today task f
  = match dueDatePattern f with
    | Some targetDate => Some (optEq (dueDate task) targetDate)
    | None =>
        match dueWordPattern (js "before") f with
        | Some targetDate => Some (optLt (dueDate task) targetDate)
        | None =>
            match dueWordPattern (js "after") f with
            | Some targetDate => Some (optGt (dueDate task) targetDate)
            | None => None
            end
        end
    end.
Proof.
  intros Hs Hlen. unfold dueFilters. rewrite Hs. cbn [orb].
  rewrite !streq_length_neq; [reflexivity | ..];
    simpl in Hlen; vm_compute List.length at 2; lia.
Qed.

(** The value of the four filters on a given date. *)
Lemma due_filter_values (today : jsstring) (task : Task) (d : jsstring) :
  isDateText d ->
  applyFilter today task (js "due " ++ d) = Ok (optEq (dueDate task) d)
  /\ applyFilter today task (js "due on " ++ d)
     = Ok (optEq (dueDate task) d)
  /\ applyFilter today task (js "due before " ++ d)
     = Ok (optLt (dueDate task) d)
  /\ applyFilter today task (js "due after " ++ d)
     = Ok (optGt (dueDate task) d).
Proof.
  intros Hd.
  pose proof (isDateText_word d Hd) as Hw.
  pose proof (proj2 Hw) as Hws.
  pose proof (isDateText_length d Hd) as Hlen.
  pose proof (isDateText_lower d Hd) as Hlow.
  assert (Hval : forall pre : jsstring,
             In pre [js "due "; js "due on "; js "due before ";
                     js "due after "] ->
             applyFilter today task (pre ++ d)
             = applyPredicate today task (pre ++ d)).
  { intros pre Hpre.
    apply (applyFilter_predicate today task (pre ++ d) (pre ++ d)).
    - rewrite toLowerCase_app, Hlow.
      simpl in Hpre.
      repeat (destruct Hpre as [<- | Hpre];
              [exact (trim_app_word 100%N _ d eq_refl Hw)|]).
      destruct Hpre.
    - simpl in Hpre.
      repeat (destruct Hpre as [<- | Hpre]; [no_connective Hws|]).
      destruct Hpre.
    - simpl in Hpre.
      repeat (destruct Hpre as [<- | Hpre]; [no_connective Hws|]).
      destruct Hpre.
    - simpl in Hpre.
      repeat (destruct Hpre as [<- | Hpre]; [reflexivity|]).
      destruct Hpre. }
  assert (Hdue : forall (pre : jsstring) (b : bool),
             In pre [js "due "; js "due on "; js "due before ";
                     js "due after "] ->
             match dueDatePattern (pre ++ d) with
             | Some targetDate => Some (optEq (dueDate task) targetDate)
             | None =>
                 match dueWordPattern (js "before") (pre ++ d) with
                 | Some targetDate => Some (optLt (dueDate task) targetDate)
                 | None =>
                     match dueWordPattern (js "after") (pre ++ d) with
                     | Some targetDate =>
                         Some (optGt (dueDate task) targetDate)
                     | None => None
                     end
                 end
             end = Some b ->
             applyFilter today task (pre ++ d) = Ok b).
  { intros pre b Hpre Hb. rewrite (Hval pre Hpre).
    apply applyPredicate_long.
    - rewrite length_app, Hlen. simpl in Hpre.
      repeat (destruct Hpre as [<- | Hpre];
              [vm_compute List.length; lia|]).
      destruct Hpre.
    - rewrite dueFilters_patterns; [exact Hb | |].
      + simpl in Hpre.
        repeat (destruct Hpre as [<- | Hpre]; [reflexivity|]).
        destruct Hpre.
      + rewrite length_app, Hlen. simpl in Hpre.
        repeat (destruct Hpre as [<- | Hpre];
                [vm_compute; tauto|]).
        destruct Hpre. }
  repeat split; apply Hdue; try (simpl; tauto).
  - rewrite (dueDatePattern_plain d Hd). reflexivity.
  - rewrite (dueDatePattern_on d Hd). reflexivity.
  - change (js "due before " ++ d) with (js "due " ++ js "before" ++ 32%N :: d).
    rewrite (dueDatePattern_word d (js "before")) by (left; reflexivity).
    rewrite (dueWordPattern_same d Hd (js "before")) by (left; reflexivity).
    reflexivity.
  - change (js "due after " ++ d) with (js "due " ++ js "after" ++ 32%N :: d).
    rewrite (dueDatePattern_word d (js "after")) by (right; reflexivity).
    change (js "due " ++ js "after" ++ 32%N :: d) with (js "due after " ++ d).
    rewrite (dueWordPattern_before_after d).
    change (js "due after " ++ d) with (js "due " ++ js "after" ++ 32%N :: d).
    rewrite (dueWordPattern_same d Hd (js "after")) by (right; reflexivity).
    reflexivity.
Qed.

Lemma str_trichotomy (a b : jsstring) :
  exactlyOne (streq a b) (strlt a b) (strlt b a).
Proof.
  unfold exactlyOne. revert b.
  induction a as [|x a IH]; intros [|y b]; cbn [streq strlt];
    [simpl; tauto ..|].
  destruct (N.compare_spec x y) as [-> | H | H].
  - rewrite N.eqb_refl, N.ltb_irrefl. cbn [andb]. apply IH.
  - replace (N.eqb x y) with false by (symmetry; apply N.eqb_neq; lia).
    replace (N.eqb y x) with false by (symmetry; apply N.eqb_neq; lia).
    replace (N.ltb x y) with true by (symmetry; apply N.ltb_lt; lia).
    replace (N.ltb y x) with false by (symmetry; apply N.ltb_ge; lia).
    simpl; tauto.
  - replace (N.eqb x y) with false by (symmetry; apply N.eqb_neq; lia).
    replace (N.eqb y x) with false by (symmetry; apply N.eqb_neq; lia).
    replace (N.ltb x y) with false by (symmetry; apply N.ltb_ge; lia).
    replace (N.ltb y x) with true by (symmetry; apply N.ltb_lt; lia).
    simpl; tauto.
Qed.

(** X12.  For a date written [YYYY-MM-DD], the filters [due DATE] and
    [due on DATE] give the same answer, and they hold exactly for the tasks
    whose due date is that date. *)
Theorem due_on_a_date
        (today : jsstring) (task : Task) (date : jsstring) :
  isDateText date ->
  applyFilter today task (js "due on " ++ date)
  = applyFilter today task (js "due " ++ date)
  /\ (applyFilter today task (js "due " ++ date) = Ok true
      <-> dueDate task = Some date).
Proof.
  intros Hd.
  destruct (due_filter_values today task date Hd) as [H1 [H2 _]].
  rewrite H1, H2. split; [reflexivity|].
  destruct (dueDate task) as [d|]; cbn [optEq].
  - split.
    + intros [= H]. apply streq_eq in H. rewrite H. reflexivity.
    + intros [= ->]. rewrite streq_refl. reflexivity.
  - split; discriminate.
Qed.

Lemma due_on_a_date_witness :
  applyFilter (js "2025-04-18")
              (sampleDueTask (Some (js "2025-05-01")) [])
              (js "due 2025-05-01") = Ok true.
Proof.
  apply (due_on_a_date (js "2025-04-18") _ (js "2025-05-01") eq_refl).
  reflexivity.
Defined.

(** X13.  When the current date is written [YYYY-MM-DD], as the source
    formats it, [due today], [due before today] and [due after today]
    answer as the same filters with that date written out. *)
Theorem due_today_is_due_on_todays_date
        (today : jsstring) (task : Task) :
  isDateText today ->
  applyFilter today task (js "due today")
  = applyFilter today task (js "due " ++ today)
  /\ applyFilter today task (js "due before today")
     = applyFilter today task (js "due before " ++ today)
  /\ applyFilter today task (js "due after today")
     = applyFilter today task (js "due after " ++ today).
Proof.
  intros Hd.
  destruct (due_filter_values today task today Hd) as [H1 [_ [H3 H4]]].
  rewrite H1, H3, H4.
  rewrite (applyFilter_predicate today task (js "due today")
             (js "due today")) by reflexivity.
  rewrite (applyFilter_predicate today task (js "due before today")
             (js "due before today")) by reflexivity.
  rewrite (applyFilter_predicate today task (js "due after today")
             (js "due after today")) by reflexivity.
  repeat split; reflexivity.
Qed.

Lemma due_today_is_due_on_todays_date_witness :
  applyFilter (js "2025-04-18") (sampleDueTask (Some (js "2025-04-18")) [])
              (js "due today")
  = applyFilter (js "2025-04-18") (sampleDueTask (Some (js "2025-04-18")) [])
                (js "due 2025-04-18").
Proof.
  exact (proj1 (due_today_is_due_on_todays_date (js "2025-04-18")
                  (sampleDueTask (Some (js "2025-04-18")) []) eq_refl)).
Defined.

(** X14.  For a date written [YYYY-MM-DD], a task with a due date
    satisfies exactly one of [due DATE], [due before DATE] and
    [due after DATE]; a task without a due date satisfies none of them. *)
Theorem due_filters_partition
        (today : jsstring) (task : Task) (date : jsstring) :
  isDateText date ->
  exists a b c,
    applyFilter today task (js "due " ++ date) = Ok a
    /\ applyFilter today task (js "due before " ++ date) = Ok b
    /\ applyFilter today task (js "due after " ++ date) = Ok c
    /\ match dueDate task with
       | Some _ => exactlyOne a b c
       | None => a = false /\ b = false /\ c = false
       end.
Proof.
  intros Hd.
  destruct (due_filter_values today task date Hd) as [H1 [_ [H3 H4]]].
  eexists _, _, _. split; [exact H1|]. split; [exact H3|].
  split; [exact H4|].
  destruct (dueDate task) as [d|]; cbn [optEq optLt optGt].
  - apply str_trichotomy.
  - auto.
Qed.

Lemma due_filters_partition_witness :
  exists a b c,
    applyFilter (js "2025-04-18")
                (sampleDueTask (Some (js "2025-05-01")) [])
                (js "due 2025-04-18") = Ok a
    /\ applyFilter (js "2025-04-18")
                   (sampleDueTask (Some (js "2025-05-01")) [])
                   (js "due before 2025-04-18") = Ok b
    /\ applyFilter (js "2025-04-18")
                   (sampleDueTask (Some (js "2025-05-01")) [])
                   (js "due after 2025-04-18") = Ok c
    /\ exactlyOne a b c.
Proof.
  exact (due_filters_partition (js "2025-04-18")
           (sampleDueTask (Some (js "2025-05-01")) [])
           (js "2025-04-18") eq_refl).
Defined.

(* ------------------------------------------------------------------ *)
(** ** The filters on the tags *)

Lemma trim_word (w : jsstring) : isWord w -> trim w = w.
Proof.
  intros [Hne Hw]. destruct w as [|c a]; [congruence|].
  unfold trim, trimStart. cbn [dropWhile].
  pose proof Hw as Hc. cbn [forallb] in Hc.
  apply andb_true_iff in Hc as [Hc _]. apply negb_true_iff in Hc.
  rewrite Hc. apply trimEnd_clean, Hw.
Qed.

(** Without an occurrence of the separator there is one piece. *)
Lemma splitGo_none (sep : jsstring) (s cur : jsstring) :
  includes s sep = false -> splitGo sep 0 cur s = [rev cur ++ s].
Proof.
  revert cur. induction s as [|c r IH]; intros cur H.
  - cbn [splitGo]. rewrite app_nil_r. reflexivity.
  - rewrite includes_cons in H. apply orb_false_iff in H as [H1 H2].
    cbn [splitGo]. rewrite H1, (IH (c :: cur) H2). cbn [rev].
    rewrite <- app_assoc. reflexivity.
Qed.

Lemma toLowerCase_not_upper (s : jsstring) :
  existsb isUpper (toLowerCase s) = false.
Proof.
  destruct (existsb isUpper (toLowerCase s)) eqn:E; [|reflexivity].
  exfalso. apply existsb_exists in E as [c [Hc Hu]].
  unfold isUpper in Hu. apply andb_true_iff in Hu as [H1 H2].
  apply N.leb_le in H1, H2.
  apply (toLowerCase_no_upper s c Hc). lia.
Qed.

Lemma stripHash_not_upper (s : jsstring) :
  existsb isUpper s = false -> existsb isUpper (stripHash s) = false.
Proof.
  intros H. destruct s as [|c r]; [reflexivity|].
  pose proof H as H'. cbn [existsb] in H'.
  apply orb_false_iff in H' as [_ Hr].
  destruct (N.eq_dec c 35) as [-> | Hc]; [exact Hr|].
  replace (stripHash (c :: r)) with (c :: r); [exact H|].
  unfold stripHash. destruct c as [|p]; [reflexivity|].
  repeat (destruct p as [p|p|]; try reflexivity). congruence.
Qed.

(** The value of the two filters on one tag, given as a word. *)
Lemma tag_filter_values (today : jsstring) (task : Task) (w : jsstring) :
  isWord w ->
  applyFilter today task (js "has tag " ++ w)
  = Ok (existsb (fun tag => streq (stripHash tag)
                                  (stripHash (toLowerCase w)))
                (tags task))
  /\ applyFilter today task (js "tag includes " ++ w)
     = Ok (existsb (fun tag => includes (stripHash tag)
                                        (stripHash (toLowerCase w)))
                   (tags task)).
Proof.
  intros Hw. pose proof (isWord_toLowerCase w Hw) as Hlw.
  pose proof (proj2 Hlw) as Hws.
  set (lw := toLowerCase w) in *. split.
  - rewrite (applyFilter_predicate today task (js "has tag " ++ w)
               (js "has tag " ++ lw)).
    + change (applyPredicate today task (js "has tag " ++ lw))
        with (Ok (existsb (fun tag => streq (stripHash tag)
                                            (stripHash (trim lw)))
                          (tags task))).
      rewrite (trim_word lw Hlw). reflexivity.
    + rewrite toLowerCase_app.
      exact (trim_app_word 104%N _ lw eq_refl Hlw).
    + no_connective Hws.
    + no_connective Hws.
    + reflexivity.
  - rewrite (applyFilter_predicate today task (js "tag includes " ++ w)
               (js "tag includes " ++ lw)).
    + change (applyPredicate today task (js "tag includes " ++ lw))
        with (p <- second ([] :: splitGo (js "tag includes ") 0 [] lw) ;;
              Ok (existsb (fun tag => includes (stripHash tag)
                                               (stripHash (trim p)))
                          (tags task))).
      rewrite splitGo_none by (apply (includes_word _ _ Hws); reflexivity).
      change (second [[]; rev [] ++ lw]) with (Ok lw). cbn [bind].
      rewrite (trim_word lw Hlw). reflexivity.
    + rewrite toLowerCase_app.
      exact (trim_app_word 116%N _ lw eq_refl Hlw).
    + no_connective Hws.
    + no_connective Hws.
    + reflexivity.
Qed.

(** X15.  For a word [w] of Basic Latin (where [toLowerCase] is the
    lower-casing of the source), [has tag w] holds exactly for the tasks
    with a tag that, without its hash, is the lower-cased [w] without its
    hash; [tag includes w] holds exactly for the tasks with a tag in which
    that text is written; so every task found by [has tag w] is found by
    [tag includes w].  The tags are compared as they are, whatever their
    characters. *)
Theorem has_tag_is_exact_match
        (today : jsstring) (task : Task) (w : jsstring) :
  isWord w ->
  isBasicLatin w ->
  (applyFilter today task (js "has tag " ++ w) = Ok true
   <-> exists tag, In tag (tags task)
                   /\ stripHash tag = stripHash (toLowerCase w))
  /\ (applyFilter today task (js "tag includes " ++ w) = Ok true
      <-> exists tag, In tag (tags task)
                      /\ includes (stripHash tag)
                                  (stripHash (toLowerCase w)) = true)
  /\ (applyFilter today task (js "has tag " ++ w) = Ok true ->
      applyFilter today task (js "tag includes " ++ w) = Ok true).
Proof.
  intros Hw _. destruct (tag_filter_values today task w Hw) as [H1 H2].
  rewrite H1, H2.
  assert (A : Ok (existsb (fun tag => streq (stripHash tag)
                                            (stripHash (toLowerCase w)))
                          (tags task)) = Ok true
              <-> exists tag, In tag (tags task)
                              /\ stripHash tag = stripHash (toLowerCase w)).
  { split.
    - intros [= H]. apply existsb_exists in H as [tag [Hin H]].
      exists tag. split; [exact Hin | apply streq_eq, H].
    - intros [tag [Hin H]]. f_equal. apply existsb_exists.
      exists tag. split; [exact Hin | apply streq_eq, H]. }
  assert (B : Ok (existsb (fun tag => includes (stripHash tag)
                                               (stripHash (toLowerCase w)))
                          (tags task)) = Ok true
              <-> exists tag, In tag (tags task)
                              /\ includes (stripHash tag)
                                          (stripHash (toLowerCase w)) = true).
  { split.
    - intros [= H]. apply existsb_exists in H as [tag [Hin H]].
      exists tag. split; [exact Hin | exact H].
    - intros [tag [Hin H]]. f_equal. apply existsb_exists.
      exists tag. split; [exact Hin | exact H]. }
  split; [exact A|]. split; [exact B|].
  intros H. apply B. apply A in H as [tag [Hin H]].
  exists tag. split; [exact Hin|]. rewrite H.
  apply includes_iff. exists [], []. rewrite app_nil_r. reflexivity.
Qed.

Lemma has_tag_is_exact_match_witness :
  applyFilter (js "2025-04-18")
              (sampleDueTask None [js "#work"; js "#home"])
              (js "tag includes #Work") = Ok true.
Proof.
  apply (has_tag_is_exact_match (js "2025-04-18")
           (sampleDueTask None [js "#work"; js "#home"]) (js "#Work")).
  - split; [discriminate | reflexivity].
  - reflexivity.
  - reflexivity.
Defined.

(** X16.  The filter is lower-cased and the tags of the task are not: a
    task whose tags all hold one of the letters A-Z is found by no
    [has tag w], however [w] is written. *)
Theorem has_tag_misses_upper_case_tags
        (today : jsstring) (task : Task) (w : jsstring) :
  isWord w ->
  (forall tag, In tag (tags task) ->
               existsb isUpper (stripHash tag) = true) ->
  applyFilter today task (js "has tag " ++ w) = Ok false.
Proof.
  intros Hw Hup. destruct (tag_filter_values today task w Hw) as [H1 _].
  rewrite H1. f_equal.
  destruct (existsb _ (tags task)) eqn:E; [|reflexivity].
  exfalso. apply existsb_exists in E as [tag [Hin E]].
  apply streq_eq in E. pose proof (Hup tag Hin) as Hu.
  rewrite E, stripHash_not_upper in Hu; [discriminate Hu|].
  apply toLowerCase_not_upper.
Qed.

Lemma has_tag_misses_upper_case_tags_witness :
  applyFilter (js "2025-04-18") (sampleDueTask None [js "#Work"])
              (js "has tag Work") = Ok false.
Proof.
  apply (has_tag_misses_upper_case_tags (js "2025-04-18")
           (sampleDueTask None [js "#Work"]) (js "Work")).
  - split; [discriminate | reflexivity].
  - intros tag [<- | []]. reflexivity.
Defined.

(* ------------------------------------------------------------------ *)
(** ** Queries *)

(** Splitting at a separator of one code unit, around an occurrence of
    it. *)
Lemma splitGo_unit_app (c : N) (a b cur : jsstring) :
  splitGo [c] 0 cur (a ++ c :: b)
  = splitGo [c] 0 cur a ++ splitGo [c] 0 [] b.
Proof.
  revert cur. induction a as [|x a IH]; intros cur.
  - cbn [app splitGo startsWith List.length Nat.sub].
    rewrite N.eqb_refl. reflexivity.
  - cbn [app splitGo startsWith List.length Nat.sub].
    destruct (N.eqb x c); cbn [andb].
    + rewrite IH. reflexivity.
    + apply IH.
Qed.

Lemma parseQuery_queryAnd (q1 q2 : jsstring) :
  parseQuery (queryAnd q1 q2) = parseQuery q1 ++ parseQuery q2.
Proof.
  unfold parseQuery, queryAnd, split. cbn [app].
  rewrite splitGo_unit_app, map_app, filter_app. reflexivity.
Qed.

Lemma filter_andb (A : Type) (p q : A -> bool) (l : list A) :
  filter (fun x => p x && q x) l = filter q (filter p l).
Proof.
  induction l as [|x l IH]; [reflexivity|]. cbn [filter].
  destruct (p x); cbn [andb filter]; [|destruct (q x)]; rewrite IH;
    reflexivity.
Qed.

(** X17.  The lines of a query that are blank, or that begin with a hash
    after trimming, count for nothing: a query made of such lines only
    returns all the tasks, in their order. *)
Theorem idle_query_keeps_all_tasks
        (today : jsstring) (tasks : list Task) (queryText : jsstring) :
  (forall raw, In raw (split queryText [10%N]) -> isIdleLine raw) ->
  parseQuery queryText = [] /\ queryTasks today tasks queryText = Ok tasks.
Proof.
  intros Hidle.
  assert (Hq : parseQuery queryText = []).
  { destruct (parseQuery queryText) as [|line rest] eqn:E; [reflexivity|].
    exfalso.
    assert (Hin : In line (parseQuery queryText))
      by (rewrite E; left; reflexivity).
    unfold parseQuery in Hin.
    apply filter_In in Hin as [Hin Hline].
    apply in_map_iff in Hin as [raw [<- Hraw]].
    apply andb_true_iff in Hline as [Hne Hc].
    apply negb_true_iff in Hne, Hc.
    destruct (Hidle raw Hraw) as [Hb | Hb].
    - rewrite Hb in Hne. discriminate Hne.
    - rewrite Hb in Hc. discriminate Hc. }
  split; [exact Hq|].
  rewrite queryTasks_filter, Hq. cbn [forallb]. f_equal.
  induction tasks as [|t l IH]; [reflexivity|].
  cbn [filter]. rewrite IH. reflexivity.
Qed.

Lemma idle_query_keeps_all_tasks_witness :
  queryTasks (js "2025-04-18")
             [sampleDueTask None []; sampleDueTask None [js "#work"]]
             (js "# open tasks" ++ [10%N] ++ js "   " ++ [10%N])
  = Ok [sampleDueTask None []; sampleDueTask None [js "#work"]].
Proof.
  apply (idle_query_keeps_all_tasks (js "2025-04-18")).
  intros raw H.
  change (In raw [js "# open tasks"; js "   "; []]) in H.
  destruct H as [<- | [<- | [<- | []]]].
  - right. reflexivity.
  - left. reflexivity.
  - left. reflexivity.
Defined.

(** X18.  Two queries written one below the other give the tasks that the
    second query keeps among those that the first one keeps. *)
Theorem queryTasks_of_two_queries
        (today : jsstring) (tasks : list Task) (q1 q2 : jsstring) :
  queryTasks today tasks (queryAnd q1 q2)
  = (kept <- queryTasks today tasks q1 ;; queryTasks today kept q2).
Proof.
  rewrite !queryTasks_filter. cbn [bind]. rewrite queryTasks_filter.
  rewrite parseQuery_queryAnd. f_equal.
  rewrite <- filter_andb. apply filter_ext. intros t.
  apply forallb_app.
Qed.

(** X19.  A query judges each task on its own: the answer for a list of
    tasks is made of the answers for its parts, and querying the answer
    again with the same query changes nothing. *)
Theorem queryTasks_judges_each_task_alone
        (today : jsstring) (tasks1 tasks2 : list Task)
        (queryText : jsstring) :
  queryTasks today (tasks1 ++ tasks2) queryText
  = (kept1 <- queryTasks today tasks1 queryText ;;
     kept2 <- queryTasks today tasks2 queryText ;;
     Ok (kept1 ++ kept2))
  /\ (kept <- queryTasks today tasks1 queryText ;;
      queryTasks today kept queryText)
     = queryTasks today tasks1 queryText.
Proof.
  rewrite !queryTasks_filter. cbn [bind]. rewrite queryTasks_filter.
  split; f_equal.
  - apply filter_app.
  - rewrite <- filter_andb. apply filter_ext. intros t.
    apply andb_diag.
Qed.

(* ------------------------------------------------------------------ *)
(** ** The callers in [index.ts] *)

(** Every piece of a split text is written in the text. *)
Lemma splitGo_piece (sep : jsstring) (s : jsstring) :
  forall (k : nat) (cur piece : jsstring),
    k = 0 \/ cur = [] ->
    In piece (splitGo sep k cur s) ->
    (exists a b, s = a ++ b /\ piece = rev cur ++ a /\ k = 0)
    \/ includes s piece = true.
Proof.
  induction s as [|c r IH]; intros k cur piece Hk Hin.
  - destruct k as [|k]; cbn [splitGo] in Hin;
      destruct Hin as [<- | []].
    + left. exists [], []. rewrite !app_nil_r. repeat split.
    + destruct Hk as [Hk | ->]; [discriminate Hk|]. right. reflexivity.
  - assert (Hright : forall k', In piece (splitGo sep k' [] r) ->
                                includes (c :: r) piece = true).
    { intros k' H. rewrite includes_cons. apply orb_true_iff. right.
      destruct (IH k' [] piece (or_intror eq_refl) H)
        as [[a [b [E [-> _]]]] | H']; [|exact H'].
      apply includes_iff. exists [], b. exact E. }
    destruct k as [|k]; cbn [splitGo] in Hin.
    + destruct (startsWith (c :: r) sep).
      * destruct Hin as [<- | Hin].
        -- left. exists [], (c :: r). rewrite !app_nil_r. repeat split.
        -- right. exact (Hright _ Hin).
      * destruct (IH 0 (c :: cur) piece (or_introl eq_refl) Hin)
          as [[a [b [E [-> _]]]] | H'].
        -- left. exists (c :: a), b. rewrite E. cbn [rev].
           rewrite <- app_assoc. auto.
        -- right. rewrite includes_cons, H'. apply orb_true_r.
    + destruct Hk as [Hk | ->]; [discriminate Hk|].
      right. exact (Hright _ Hin).
Qed.

Lemma split_piece (s sep piece : jsstring) :
  sep <> [] -> In piece (split s sep) -> includes s piece = true.
Proof.
  intros Hsep Hin. destruct sep as [|y sep]; [congruence|].
  unfold split in Hin.
  destruct (splitGo_piece (y :: sep) s 0 [] piece (or_introl eq_refl) Hin)
    as [[a [b [E [-> _]]]] | H]; [|exact H].
  apply includes_iff. exists [], b. exact E.
Qed.

(** X20.  [validateRelativePath] returns exactly for the paths in which
    two dots in a row are nowhere written; in a path that it lets through,
    no component, whatever the separator, is the parent directory [..]
    or holds two dots in a row; a refused path is named at the end of the
    message. *)
Theorem validateRelativePath_lets_no_parent_through
        (relativePath : jsstring) :
  (Index.validateRelativePath relativePath = Index.Returned tt
   <-> includes relativePath (js "..") = false)
  /\ (Index.validateRelativePath relativePath = Index.Returned tt ->
      forall sep component,
        sep <> [] -> In component (split relativePath sep) ->
        component <> js ".."
        /\ includes component (js "..") = false)
  /\ (forall message,
         Index.validateRelativePath relativePath = Index.Thrown message ->
         message
         = js "Access denied - directory traversal detected in path: "
              ++ relativePath).
Proof.
  unfold Index.validateRelativePath.
  destruct (includes relativePath (js "..")) eqn:E.
  - split; [split; discriminate|]. split; [discriminate|].
    intros message [= <-]. reflexivity.
  - split; [split; reflexivity|]. split; [|discriminate].
    intros _ sep component Hsep Hin.
    assert (H : includes component (js "..") = false).
    { destruct (includes component (js "..")) eqn:E'; [|reflexivity].
      rewrite <- E. symmetry.
      eapply includes_trans; [|exact E'].
      exact (split_piece _ _ _ Hsep Hin). }
    split; [|exact H]. intros ->. discriminate H.
Qed.


Lemma collectTasks_flat_map (readFile : jsstring -> option jsstring)
      (files : list jsstring) :
  Index.collectTasks readFile files
  = (flat_map (fun fp => fst (Index.extractTasksFromFile readFile fp)) files,
     flat_map (fun fp => snd (Index.extractTasksFromFile readFile fp)) files).
Proof.
  induction files as [|fp rest IH]; [reflexivity|].
  cbn [Index.collectTasks flat_map]. rewrite IH.
  destruct (Index.extractTasksFromFile readFile fp). reflexivity.
Qed.

(** X22.  [findAllTasks] returns the tasks of the files that could be
    read, and nothing else; it logs the files that could not be read, and
    nothing else. *)
Theorem findAllTasks_reads_every_file
        (findAllMarkdownFiles : jsstring -> list jsstring)
        (readFile : jsstring -> option jsstring)
        (directoryPath : jsstring) :
  (forall t,
      In t (fst (Index.findAllTasks findAllMarkdownFiles readFile
                                    directoryPath))
      <-> exists fp content,
            In fp (findAllMarkdownFiles directoryPath)
            /\ readFile fp = Some content
            /\ In t (parseTasks content fp))
  /\ (forall e,
         In e (snd (Index.findAllTasks findAllMarkdownFiles readFile
                                       directoryPath))
         <-> exists fp,
               e = Index.ErrorProcessingFile fp
               /\ In fp (findAllMarkdownFiles directoryPath)
               /\ readFile fp = None).
Proof.
  unfold Index.findAllTasks. rewrite collectTasks_flat_map. cbn [fst snd].
  split; [intros t | intros e]; rewrite in_flat_map;
    unfold Index.extractTasksFromFile.
  - split.
    + intros [fp [Hfp H]]. destruct (readFile fp) as [content|] eqn:E;
        [|destruct H].
      exists fp, content. auto.
    + intros [fp [content [Hfp [E H]]]]. exists fp. rewrite E. auto.
  - split.
    + intros [fp [Hfp H]]. destruct (readFile fp) as [content|] eqn:E;
        [destruct H|].
      destruct H as [<- | []]. exists fp. auto.
    + intros [fp [-> [Hfp E]]]. exists fp. rewrite E.
      split; [exact Hfp | left; reflexivity].
Qed.

(** X23.  When no file is listed twice, no two tasks that [findAllTasks]
    returns have the same [id]. *)
Theorem findAllTasks_ids_unique
        (findAllMarkdownFiles : jsstring -> list jsstring)
        (readFile : jsstring -> option jsstring)
        (directoryPath : jsstring) :
  NoDup (findAllMarkdownFiles directoryPath) ->
  NoDup (map id (fst (Index.findAllTasks findAllMarkdownFiles readFile
                                         directoryPath))).
Proof.
  unfold Index.findAllTasks. rewrite collectTasks_flat_map. cbn [fst].
  set (tasksOf := fun fp => fst (Index.extractTasksFromFile readFile fp)).
  assert (Hid : forall fp t, In t (tasksOf fp) ->
                             id t = fp ++ js ":" ++ ofNat (lineNumber t)).
  { intros fp t. unfold tasksOf, Index.extractTasksFromFile.
    destruct (readFile fp) as [content|]; [|intros []].
    cbn [fst]. unfold parseTasks. intros H.
    destruct (parseLines_numbers (split content [10%N]) fp 0) as [_ Hf].
    rewrite Forall_forall in Hf. apply (Hf t H). }
  assert (Hone : forall fp, NoDup (map id (tasksOf fp))).
  { intros fp. unfold tasksOf, Index.extractTasksFromFile.
    destruct (readFile fp) as [content|]; [|constructor].
    apply parseLines_ids_NoDup. }
  induction (findAllMarkdownFiles directoryPath) as [|fp rest IH];
    intros Hnd; [constructor|].
  apply NoDup_cons_iff in Hnd as [Hfp Hnd].
  cbn [flat_map]. rewrite map_app. apply NoDup_app.
  - apply Hone.
  - apply IH, Hnd.
  - intros i H1 H2.
    apply in_map_iff in H1 as [t1 [E1 H1]].
    apply in_map_iff in H2 as [t2 [E2 H2]].
    apply in_flat_map in H2 as [fp' [Hfp' H2]].
    rewrite (Hid fp t1 H1) in E1. rewrite (Hid fp' t2 H2) in E2.
    rewrite <- E2 in E1. apply id_inj in E1 as [E1 _].
    apply Hfp. rewrite E1. exact Hfp'.
Qed.

Lemma findAllTasks_ids_unique_witness :
  NoDup (map id
             (fst (Index.findAllTasks
                     (fun _ => [js "a.md"; js "b.md"; js "c.md"])
                     (fun fp => if streq fp (js "c.md") then None
                                else Some (js "- [ ] one" ++ [10%N]
                                           ++ js "- [x] two"))
                     (js "vault")))).
Proof.
  apply findAllTasks_ids_unique.
  repeat constructor; simpl; intuition discriminate.
Defined.

(* ------------------------------------------------------------------ *)
(** ** The filters on the path and on the description *)

Lemma trim_space_word (w : jsstring) : isWord w -> trim (32%N :: w) = w.
Proof.
  intros Hw. change (trim (32%N :: w)) with (trim w). apply trim_word, Hw.
Qed.

(** The value of the four filters for a word in which [includes] is not
    written. *)
Lemma text_filter_values (today : jsstring) (task : Task) (w : jsstring) :
  isWord w ->
  (includes (toLowerCase w) (js "includes") = false ->
   applyFilter today task (js "path includes " ++ w)
   = Ok (includes (toLowerCase (filePath task)) (toLowerCase w)))
  /\ applyFilter today task (js "path does not include " ++ w)
     = Ok (negb (includes (toLowerCase (filePath task)) (toLowerCase w)))
  /\ (includes (toLowerCase w) (js "includes") = false ->
      applyFilter today task (js "description includes " ++ w)
      = Ok (includes (toLowerCase (description task)) (toLowerCase w)))
  /\ applyFilter today task (js "description does not include " ++ w)
     = Ok (negb (includes (toLowerCase (description task))
                          (toLowerCase w))).
Proof.
  intros Hw. pose proof (isWord_toLowerCase w Hw) as Hlw.
  pose proof (proj2 Hlw) as Hws.
  pose proof (toLowerCase_idem w) as Hidem.
  set (lw := toLowerCase w) in *.
  split; [|split; [|split]].
  - intros Hinc.
    rewrite (applyFilter_predicate today task (js "path includes " ++ w)
               (js "path includes " ++ lw)).
    + change (applyPredicate today task (js "path includes " ++ lw))
        with (p <- second (js "path "
                           :: splitGo (js "includes") 0 [32%N] lw) ;;
              Ok (includes (toLowerCase (filePath task))
                           (toLowerCase (trim p)))).
      rewrite splitGo_none by exact Hinc.
      change (second [js "path "; rev [32%N] ++ lw]) with (Ok (32%N :: lw)).
      cbn [bind]. rewrite (trim_space_word lw Hlw), Hidem. reflexivity.
    + rewrite toLowerCase_app.
      exact (trim_app_word 112%N _ lw eq_refl Hlw).
    + no_connective Hws.
    + no_connective Hws.
    + reflexivity.
  - rewrite (applyFilter_predicate today task
               (js "path does not include " ++ w)
               (js "path does not include " ++ lw)).
    + change (applyPredicate today task (js "path does not include " ++ lw))
        with (p <- second (js "path "
                           :: splitGo (js "does not include") 0 [32%N] lw) ;;
              Ok (negb (includes (toLowerCase (filePath task))
                                 (toLowerCase (trim p))))).
      rewrite splitGo_none by (apply (includes_word _ _ Hws); reflexivity).
      change (second [js "path "; rev [32%N] ++ lw]) with (Ok (32%N :: lw)).
      cbn [bind]. rewrite (trim_space_word lw Hlw), Hidem. reflexivity.
    + rewrite toLowerCase_app.
      exact (trim_app_word 112%N _ lw eq_refl Hlw).
    + no_connective Hws.
    + no_connective Hws.
    + reflexivity.
  - intros Hinc.
    rewrite (applyFilter_predicate today task
               (js "description includes " ++ w)
               (js "description includes " ++ lw)).
    + change (applyPredicate today task (js "description includes " ++ lw))
        with (p <- second (js "description "
                           :: splitGo (js "includes") 0 [32%N] lw) ;;
              Ok (includes (toLowerCase (description task))
                           (toLowerCase (trim p)))).
      rewrite splitGo_none by exact Hinc.
      change (second [js "description "; rev [32%N] ++ lw])
        with (Ok (32%N :: lw)).
      cbn [bind]. rewrite (trim_space_word lw Hlw), Hidem. reflexivity.
    + rewrite toLowerCase_app.
      exact (trim_app_word 100%N _ lw eq_refl Hlw).
    + no_connective Hws.
    + no_connective Hws.
    + reflexivity.
  - rewrite (applyFilter_predicate today task
               (js "description does not include " ++ w)
               (js "description does not include " ++ lw)).
    + change (applyPredicate today task
                (js "description does not include " ++ lw))
        with (p <- second (js "description "
                           :: splitGo (js "does not include") 0 [32%N] lw) ;;
              Ok (negb (includes (toLowerCase (description task))
                                 (toLowerCase (trim p))))).
      rewrite splitGo_none by (apply (includes_word _ _ Hws); reflexivity).
      change (second [js "description "; rev [32%N] ++ lw])
        with (Ok (32%N :: lw)).
      cbn [bind]. rewrite (trim_space_word lw Hlw), Hidem. reflexivity.
    + rewrite toLowerCase_app.
      exact (trim_app_word 100%N _ lw eq_refl Hlw).
    + no_connective Hws.
    + no_connective Hws.
    + reflexivity.
Qed.

(** X24.  On Basic Latin text (where [toLowerCase] is the lower-casing of
    the source): for a task whose path and description are Basic Latin and
    a Basic Latin word [w] in which [includes] is not written, the filters
    [path includes w] and [description includes w] look for [w] in the path
    and in the description without regard to the case of the letters, and
    [path does not include w] and [description does not include w] answer
    the opposite. *)
Theorem path_and_description_filters
        (today : jsstring) (task : Task) (w : jsstring) :
  isWord w ->
  isBasicLatin w ->
  isBasicLatin (filePath task) ->
  isBasicLatin (description task) ->
  includes (toLowerCase w) (js "includes") = false ->
  exists inPath inDescription,
    inPath = includes (toLowerCase (filePath task)) (toLowerCase w)
    /\ inDescription
       = includes (toLowerCase (description task)) (toLowerCase w)
    /\ applyFilter today task (js "path includes " ++ w) = Ok inPath
    /\ applyFilter today task (js "path does not include " ++ w)
       = Ok (negb inPath)
    /\ applyFilter today task (js "description includes " ++ w)
       = Ok inDescription
    /\ applyFilter today task (js "description does not include " ++ w)
       = Ok (negb inDescription).
Proof.
  intros Hw _ _ _ Hinc.
  destruct (text_filter_values today task w Hw) as [H1 [H2 [H3 H4]]].
  eexists _, _. split; [reflexivity|]. split; [reflexivity|].
  split; [exact (H1 Hinc)|]. split; [exact H2|].
  split; [exact (H3 Hinc) | exact H4].
Qed.

Lemma path_and_description_filters_witness :
  applyFilter (js "2025-04-18") (sampleDueTask None [])
              (js "path includes Notes") = Ok true
  /\ applyFilter (js "2025-04-18") (sampleDueTask None [])
                 (js "description does not include RENT") = Ok false.
Proof.
  destruct (path_and_description_filters (js "2025-04-18")
              (sampleDueTask None []) (js "Notes"))
    as [b [c [Hb [_ [H1 _]]]]];
    [split; [discriminate | reflexivity]
    | reflexivity | reflexivity | reflexivity | reflexivity |].
  destruct (path_and_description_filters (js "2025-04-18")
              (sampleDueTask None []) (js "RENT"))
    as [b' [c' [_ [Hc [_ [_ [_ H4]]]]]]];
    [split; [discriminate | reflexivity]
    | reflexivity | reflexivity | reflexivity | reflexivity |].
  rewrite Hb in H1. rewrite Hc in H4. split; [exact H1 | exact H4].
Defined.

(** When [includes] is written in the word, [path includes] looks for the
    part of the word before it only, and the two forms are no longer
    opposite. *)
Example path_includes_cuts_the_word :
  applyFilter (js "2025-04-18") (sampleDueTask None [])
              (js "path includes notes.includes") = Ok true
  /\ applyFilter (js "2025-04-18") (sampleDueTask None [])
                 (js "path does not include notes.includes") = Ok true.
Proof. split; reflexivity. Qed.

(* ------------------------------------------------------------------ *)
(** ** What stands around a task on its line *)

Section Scanners.

Variable p : N -> bool.

Lemma takeWhile_run (a b : jsstring) :
  forallb p a = true -> takeWhile p (a ++ b) = a ++ takeWhile p b.
Proof.
  induction a as [|x a IH]; cbn [app forallb takeWhile]; [reflexivity|].
  intros H. apply andb_true_iff in H as [Hx Ha]. rewrite Hx, IH by exact Ha.
  reflexivity.
Qed.

Lemma dropWhile_run (a b : jsstring) :
  forallb p a = true -> dropWhile p (a ++ b) = dropWhile p b.
Proof.
  induction a as [|x a IH]; cbn [app forallb dropWhile]; [reflexivity|].
  intros H. apply andb_true_iff in H as [Hx Ha]. rewrite Hx. exact (IH Ha).
Qed.

Lemma takeWhile_cut (a : jsstring) (x : N) (b : jsstring) :
  p x = false -> takeWhile p (a ++ x :: b) = takeWhile p a.
Proof.
  intros Hx. induction a as [|y a IH]; cbn [app takeWhile].
  - rewrite Hx. reflexivity.
  - destruct (p y); [rewrite IH|]; reflexivity.
Qed.

(** A scan that stops inside [s] stops at the same place when text is
    added after [s]. *)
Lemma scan_extend (s : jsstring) (c : N) (r t : jsstring) :
  dropWhile p s = c :: r ->
  takeWhile p (s ++ t) = takeWhile p s
  /\ dropWhile p (s ++ t) = (c :: r) ++ t.
Proof.
  intros H. pose proof (dropWhile_head p s c r H) as Hc.
  pose proof (takeWhile_dropWhile p s) as E. rewrite H in E.
  pose proof (takeWhile_forallb p s) as Hf.
  remember (takeWhile p s) as tw eqn:Htw. clear Htw H. subst s.
  rewrite <- app_assoc. cbn [app]. split.
  - apply takeWhile_app; [exact Hf | exact Hc].
  - apply dropWhile_app; [exact Hf | exact Hc].
Qed.

End Scanners.

Lemma isListMarker_cons (mk : jsstring) :
  isListMarker mk -> exists c q, mk = c :: q.
Proof.
  intros [[c [-> _]] | [ds [d [-> [Hne _]]]]].
  - exists c, []. reflexivity.
  - destruct ds as [|x ds]; [congruence|]. exists x, (ds ++ [d]).
    reflexivity.
Qed.

Lemma taskRegex_indented (ind line : jsstring) :
  forallb TaskRegex.isIndentChar ind = true ->
  TaskRegex.taskRegex (ind ++ line)
  = option_map (fun m => TaskRegex.mkTaskMatch
                           (ind ++ TaskRegex.indentation m)
                           (TaskRegex.marker m) (TaskRegex.statusChar m)
                           (TaskRegex.body m))
               (TaskRegex.taskRegex line).
Proof.
  intros H. unfold TaskRegex.taskRegex, TaskRegex.indentationRegex.
  rewrite takeWhile_run, dropWhile_run by exact H.
  destruct (TaskRegex.listMarkerRegex _) as [[mk r2]|]; [|reflexivity].
  destruct (TaskRegex.spacesPlus r2) as [r3|]; [|reflexivity].
  destruct (TaskRegex.checkboxRegex r3) as [[c r4]|]; reflexivity.
Qed.

(** X25.  White space and [>] put before a line change nothing in what is
    read from it but [originalMarkdown]: the line is a task as before or no
    task as before, with the same description, status, tags, dates,
    priority and recurrence. *)
Theorem indentation_is_ignored
        (ind line fp : jsstring) (n : nat) :
  forallb TaskRegex.isIndentChar ind = true ->
  parseTaskLine (ind ++ line) fp n
  = option_map (fun t => withMarkdown t (ind ++ line))
               (parseTaskLine line fp n).
Proof.
  intros H. unfold parseTaskLine. rewrite (taskRegex_indented ind line H).
  destruct (TaskRegex.taskRegex line); reflexivity.
Qed.

Lemma indentation_is_ignored_witness :
  option_map description
             (parseTaskLine (js "  > " ++ js "- [x] Pay rent #home")
                            (js "notes.md") 3)
  = Some (js "Pay rent #home").
Proof.
  rewrite (indentation_is_ignored (js "  > ") (js "- [x] Pay rent #home")
             (js "notes.md") 3 eq_refl).
  reflexivity.
Defined.

Lemma taskRegex_cut (line : jsstring) (lt : N) (rest : jsstring)
      (m : TaskRegex.TaskMatch) :
  isLineTerminator lt = true ->
  TaskRegex.taskRegex line = Some m ->
  TaskRegex.taskRegex (line ++ lt :: rest) = Some m.
Proof.
  intros Hlt. unfold TaskRegex.taskRegex, TaskRegex.indentationRegex.
  destruct (TaskRegex.listMarkerRegex (dropWhile _ line))
    as [[mk r2]|] eqn:E1; [|discriminate].
  destruct (TaskRegex.spacesPlus r2) as [r3|] eqn:E2; [|discriminate].
  destruct (TaskRegex.checkboxRegex r3) as [[c r4]|] eqn:E3; [|discriminate].
  intros [= <-].
  apply listMarker_sound in E1 as [Hmk E1].
  destruct (isListMarker_cons mk Hmk) as [x [q Hx]].
  assert (E1' : dropWhile TaskRegex.isIndentChar line = x :: (q ++ r2))
    by (rewrite E1, Hx; reflexivity).
  destruct (scan_extend TaskRegex.isIndentChar line x (q ++ r2)
              (lt :: rest) E1') as [Ht Hd].
  rewrite Ht, Hd.
  cbn [app]. rewrite <- app_assoc.
  change (x :: q ++ r2 ++ lt :: rest) with ((x :: q) ++ r2 ++ lt :: rest).
  rewrite <- Hx, (listMarker_complete mk _ Hmk).
  apply checkboxRegex_sound in E3 as [Hc E3].
  apply spacesPlus_sound in E2 as [sp [Hne [Hsp E2]]].
  rewrite E2, <- app_assoc, spacesPlus_complete;
    [| exact Hne | exact Hsp | rewrite E3; reflexivity].
  rewrite E3. cbn [app]. rewrite <- !app_assoc.
  change (91%N :: c ++ (93%N :: r4) ++ lt :: rest)
    with ([91%N] ++ c ++ [93%N] ++ (r4 ++ lt :: rest)).
  rewrite (checkboxRegex_complete c _ Hc). f_equal. f_equal.
  unfold TaskRegex.afterCheckboxRegex.
  assert (H32 : N.eqb 32 lt = false).
  { unfold isLineTerminator, inSet in Hlt. cbn [existsb] in Hlt.
    destruct (N.eqb 32 lt) eqn:E; [|reflexivity].
    apply N.eqb_eq in E. subst lt. discriminate Hlt. }
  rewrite dropWhile_app_stop by exact H32.
  apply takeWhile_cut. rewrite Hlt. reflexivity.
Qed.

(** X26.  What follows a line terminator on the line of a task (a carriage
    return before the line feed, for one) is not read: the task is the one
    read from the line without it, but for [originalMarkdown]. *)
Theorem text_after_line_terminator_is_not_read
        (line : jsstring) (lt : N) (rest fp : jsstring) (n : nat)
        (t : Task) :
  isLineTerminator lt = true ->
  parseTaskLine line fp n = Some t ->
  parseTaskLine (line ++ lt :: rest) fp n
  = Some (withMarkdown t (line ++ lt :: rest)).
Proof.
  intros Hlt. unfold parseTaskLine.
  destruct (TaskRegex.taskRegex line) as [m|] eqn:E; [|discriminate].
  rewrite (taskRegex_cut line lt rest m Hlt E).
  intros [= <-]. reflexivity.
Qed.

Lemma text_after_line_terminator_is_not_read_witness :
  option_map description
             (parseTaskLine (js "- [ ] Pay rent" ++ [13%N])
                            (js "notes.md") 0)
  = Some (js "Pay rent").
Proof.
  rewrite (text_after_line_terminator_is_not_read
             (js "- [ ] Pay rent") 13%N [] (js "notes.md") 0 _
             eq_refl eq_refl).
  reflexivity.
Defined.

(* ------------------------------------------------------------------ *)
(** ** The filters on the presence of tags and of a due date *)

(** X27.  [has tags] holds exactly for the tasks with at least one tag and
    [has due date] exactly for the tasks with a due date; [no tags] and
    [no due date] answer the opposite. *)
Theorem presence_filters (today : jsstring) (task : Task) :
  exists hasTags hasDue,
    applyFilter today task (js "has tags") = Ok hasTags
    /\ applyFilter today task (js "no tags") = Ok (negb hasTags)
    /\ applyFilter today task (js "has due date") = Ok hasDue
    /\ applyFilter today task (js "no due date") = Ok (negb hasDue)
    /\ (hasTags = true <-> tags task <> [])
    /\ (hasDue = true <-> dueDate task <> None).
Proof.
  exists (Nat.ltb 0 (List.length (tags task))),
         (negb (isUndefined (dueDate task))).
  rewrite (applyFilter_predicate today task (js "has tags") (js "has tags"))
    by reflexivity.
  rewrite (applyFilter_predicate today task (js "no tags") (js "no tags"))
    by reflexivity.
  rewrite (applyFilter_predicate today task (js "has due date")
             (js "has due date")) by reflexivity.
  rewrite (applyFilter_predicate today task (js "no due date")
             (js "no due date")) by reflexivity.
  change (applyPredicate today task (js "no tags"))
    with (Ok (Nat.eqb (List.length (tags task)) 0)).
  change (applyPredicate today task (js "no due date"))
    with (Ok (isUndefined (dueDate task))).
  split; [reflexivity|].
  split; [destruct (tags task); reflexivity|].
  split; [reflexivity|].
  split; [destruct (dueDate task); reflexivity|].
  split.
  - destruct (tags task); cbn; split; congruence.
  - destruct (dueDate task); cbn; split; congruence.
Qed.

(* ------------------------------------------------------------------ *)
(** ** From the checkbox to the status filters *)

Lemma iff_both_false (P Q : Prop) : (P -> False) -> (Q -> False) -> (P <-> Q).
Proof. tauto. Qed.

Lemma statusOf_cases (sc : jsstring) :
  (statusOf sc = complete <-> sc = js "x" \/ sc = js "X")
  /\ (statusOf sc = cancelled <-> sc = js "-")
  /\ (statusOf sc = in_progress <-> sc = js "/").
Proof.
  unfold statusOf, arrayIncludes. cbn [existsb]. rewrite !orb_false_r.
  destruct (streq sc (js "x")) eqn:E1.
  { apply streq_eq in E1. subst sc. cbn [orb].
    split; [split; auto|].
    split; apply iff_both_false; intros H; vm_compute in H; discriminate H. }
  destruct (streq sc (js "X")) eqn:E2.
  { apply streq_eq in E2. subst sc. cbn [orb].
    split; [split; auto|].
    split; apply iff_both_false; intros H; vm_compute in H; discriminate H. }
  apply streq_neq in E1, E2. cbn [orb].
  destruct (streq sc (js "-")) eqn:E3.
  { apply streq_eq in E3. subst sc.
    split; [apply iff_both_false; [discriminate | intros [H | H]; auto]|].
    split; [split; auto|].
    apply iff_both_false; intros H; vm_compute in H; discriminate H. }
  destruct (streq sc (js "/")) eqn:E4.
  { apply streq_eq in E4. subst sc.
    split; [apply iff_both_false; [discriminate | intros [H | H]; auto]|].
    split; [|split; auto].
    apply iff_both_false; intros H; vm_compute in H; discriminate H. }
  apply streq_neq in E3, E4.
  destruct (streq sc (js " ") || (streq sc (js ">") || streq sc (js "<")));
    (split; [|split]); apply iff_both_false; try discriminate;
    try (intros [H | H]; congruence); intros H; congruence.
Qed.

(** X28.  A task read from a line is found by [done] exactly when its
    checkbox holds [x] or [X], by [cancelled] exactly when it holds [-],
    and by [in progress] exactly when it holds [/]. *)
Theorem status_filters_follow_the_checkbox
        (today line fp : jsstring) (n : nat) (t : Task) :
  parseTaskLine line fp n = Some t ->
  (applyFilter today t (js "done") = Ok true
   <-> statusSymbol t = js "x" \/ statusSymbol t = js "X")
  /\ (applyFilter today t (js "cancelled") = Ok true
      <-> statusSymbol t = js "-")
  /\ (applyFilter today t (js "in progress") = Ok true
      <-> statusSymbol t = js "/").
Proof.
  intros Ht.
  destruct (parseTaskLine_inv _ _ _ _ Ht) as [m [_ [Hs [Hst _]]]].
  rewrite <- Hs in Hst.
  destruct (statusOf_cases (statusSymbol t)) as [H1 [H2 H3]].
  rewrite <- H1, <- H2, <- H3, <- Hst.
  rewrite (applyFilter_predicate today t (js "done") (js "done"))
    by reflexivity.
  rewrite (applyFilter_predicate today t (js "cancelled") (js "cancelled"))
    by reflexivity.
  rewrite (applyFilter_predicate today t (js "in progress")
             (js "in progress")) by reflexivity.
  change (applyPredicate today t (js "done"))
    with (Ok (Status_eqb (status t) complete)).
  change (applyPredicate today t (js "cancelled"))
    with (Ok (Status_eqb (status t) cancelled)).
  change (applyPredicate today t (js "in progress"))
    with (Ok (Status_eqb (status t) in_progress)).
  destruct (status t); cbn [Status_eqb];
    repeat split; intros H; first [reflexivity | discriminate H].
Qed.

Lemma status_filters_follow_the_checkbox_witness :
  exists t,
    parseTaskLine (js "- [/] Write report") (js "notes.md") 0 = Some t
    /\ applyFilter (js "2025-04-18") t (js "in progress") = Ok true.
Proof.
  eexists. split; [reflexivity|].
  apply (status_filters_follow_the_checkbox (js "2025-04-18")
           (js "- [/] Write report") (js "notes.md") 0 _ eq_refl).
  reflexivity.
Defined.

(* ================================================================== *)
(** * The evaluator on the engine: what it answers and when *)

Section NoTypeError.

Variable A : Type.
Variable cb : A -> result bool.

Lemma every_no_TypeError (l : list A) :
  (forall x, In x l -> cb x <> TypeError) -> every cb l <> TypeError.
Proof.
  induction l as [|x l IH]; intros H; cbn [every]; [discriminate|].
  pose proof (H x (or_introl eq_refl)) as Hx.
  destruct (cb x) as [b| |]; cbn [bind]; [|congruence|discriminate].
  destruct b; [|discriminate].
  apply IH. intros y Hy. apply H. right; assumption.
Qed.

Lemma some_no_TypeError (l : list A) :
  (forall x, In x l -> cb x <> TypeError) -> some cb l <> TypeError.
Proof.
  induction l as [|x l IH]; intros H; cbn [some]; [discriminate|].
  pose proof (H x (or_introl eq_refl)) as Hx.
  destruct (cb x) as [b| |]; cbn [bind]; [|congruence|discriminate].
  destruct b; [discriminate|].
  apply IH. intros y Hy. apply H. right; assumption.
Qed.

Lemma filterR_no_TypeError (l : list A) :
  (forall x, In x l -> cb x <> TypeError) -> filterR cb l <> TypeError.
Proof.
  induction l as [|x l IH]; intros H; cbn [filterR]; [discriminate|].
  pose proof (H x (or_introl eq_refl)) as Hx.
  destruct (cb x) as [b| |]; cbn [bind]; [|congruence|discriminate].
  assert (Hl : filterR cb l <> TypeError)
    by (apply IH; intros y Hy; apply H; right; assumption).
  destruct (filterR cb l); cbn [bind]; [discriminate|congruence|discriminate].
Qed.

Lemma filterR_ok (l : list A) :
  (forall x, In x l -> exists b, cb x = Ok b) ->
  exists kept, filterR cb l = Ok kept.
Proof.
  induction l as [|x l IH]; intros H; cbn [filterR].
  - eexists; reflexivity.
  - destruct (H x (or_introl eq_refl)) as [b ->]. cbn [bind].
    destruct IH as [kept ->]; [intros y Hy; apply H; right; assumption|].
    eexists; reflexivity.
Qed.

End NoTypeError.

Section EngineFacts.

Variable lower : jsstring -> jsstring.

(** Every piece that is indexed exists: the predicates answer. *)
Lemma applyPredicateWith_ok (today : jsstring) (task : Task)
      (filter : jsstring) :
  exists b, applyPredicateWith lower today task filter = Ok b.
Proof.
  unfold applyPredicateWith.
  repeat lazymatch goal with
  | |- exists b, Ok _ = Ok b => eexists; reflexivity
  | |- exists b, match dueFilters ?x ?y ?z with _ => _ end = _ =>
      destruct (dueFilters x y z)
  | |- exists b, match priorityFilter ?x ?y with _ => _ end = _ =>
      destruct (priorityFilter x y)
  | H : startsWith _ (js "tag includes ") = true |- _ =>
      second_defined H (@nil N) (js "tag includes "); clear H
  | H : startsWith _ (js "path includes") = true |- _ =>
      second_defined H (js "path ") (js "includes"); clear H
  | H : startsWith _ (js "path does not include") = true |- _ =>
      second_defined H (js "path ") (js "does not include"); clear H
  | H : startsWith _ (js "description includes") = true |- _ =>
      second_defined H (js "description ") (js "includes"); clear H
  | H : startsWith _ (js "description does not include") = true |- _ =>
      second_defined H (js "description ") (js "does not include"); clear H
  | H : startsWith _ (js "priority is") = true |- _ =>
      second_defined H (@nil N) (js "priority is"); clear H
  | |- exists b, (if ?c then _ else _) = Ok b => destruct c eqn:?
  end.
Qed.

(** No call signals a [TypeError], whatever the room on the stack. *)
Lemma applyFilterWith_no_TypeError (depth : nat) :
  forall today task filter,
    applyFilterWith lower depth today task filter <> TypeError.
Proof.
  induction depth as [|depth IH]; intros today task filter;
    cbn [applyFilterWith]; [discriminate|].
  destruct (includes _ (js " AND ")).
  { apply every_no_TypeError. intros part _. apply IH. }
  destruct (includes _ (js " OR ")).
  { apply some_no_TypeError. intros part _. apply IH. }
  destruct (includes _ (js " and ")).
  { apply every_no_TypeError. intros part _. apply IH. }
  destruct (includes _ (js " or ")).
  { apply some_no_TypeError. intros part _. apply IH. }
  destruct (startsWith _ (js "not ")).
  { pose proof (IH today task
                   (substring (trim (lower filter)) 4)) as H.
    destruct (applyFilterWith lower depth today task _); cbn [bind];
      [discriminate | congruence | discriminate]. }
  destruct (applyPredicateWith_ok today task (trim (lower filter)))
    as [b ->].
  discriminate.
Qed.

Hypothesis lower_fixes : fixesLowered lower.

(** The texts handed to the nested calls are written in the lower-cased
    clause, so they are lower-cased already, and they are shorter. *)
Lemma nested_part_shorter (filter sep part : jsstring) :
  sep <> [] ->
  includes (trim (lower filter)) sep = true ->
  In part (split (trim (lower filter)) sep) ->
  List.length (trim (lower (trim part)))
  < List.length (trim (lower filter)).
Proof.
  intros Hsep Hin Hp.
  assert (Hfix : lower (trim part) = trim part).
  { apply (lower_fixes filter).
    eapply includes_trans; [apply trim_includes|].
    eapply includes_trans; [exact (split_piece _ _ _ Hsep Hp)|].
    apply trim_includes. }
  rewrite Hfix, trim_idem.
  pose proof (split_shorter _ _ _ Hsep Hin Hp).
  pose proof (trim_length part). lia.
Qed.

Lemma nested_subFilter_shorter (filter : jsstring) :
  startsWith (trim (lower filter)) (js "not ") = true ->
  List.length (trim (lower (substring (trim (lower filter)) 4)))
  < List.length (trim (lower filter)).
Proof.
  intros H.
  assert (Hfix : lower (substring (trim (lower filter)) 4)
                 = substring (trim (lower filter)) 4).
  { apply (lower_fixes filter).
    eapply includes_trans; [apply trim_includes|].
    apply includes_skipn_self. }
  rewrite Hfix.
  pose proof (trim_length (substring (trim (lower filter)) 4)) as Ht.
  rewrite substring_length in Ht.
  apply startsWith_length in H. cbn in H. lia.
Qed.

(** On a stack with room for more nested calls than the lower-cased,
    trimmed clause is long, [applyFilter] returns a boolean. *)
Lemma applyFilterWith_enough (depth : nat) :
  forall today task filter,
    List.length (trim (lower filter)) < depth ->
    exists b, applyFilterWith lower depth today task filter = Ok b.
Proof.
  induction depth as [|depth IH]; intros today task filter Hlen; [lia|].
  cbn [applyFilterWith].
  assert (Hpart : forall sep part,
             sep <> [] ->
             includes (trim (lower filter)) sep = true ->
             In part (split (trim (lower filter)) sep) ->
             exists b,
               applyFilterWith lower depth today task (trim part) = Ok b).
  { intros sep part Hs Hi Hp. apply IH.
    pose proof (nested_part_shorter filter sep part Hs Hi Hp). lia. }
  destruct (includes _ (js " AND ")) eqn:E1.
  { apply every_ok. intros part. apply Hpart; [discriminate | assumption]. }
  destruct (includes _ (js " OR ")) eqn:E2.
  { apply some_ok. intros part. apply Hpart; [discriminate | assumption]. }
  destruct (includes _ (js " and ")) eqn:E3.
  { apply every_ok. intros part. apply Hpart; [discriminate | assumption]. }
  destruct (includes _ (js " or ")) eqn:E4.
  { apply some_ok. intros part. apply Hpart; [discriminate | assumption]. }
  destruct (startsWith _ (js "not ")) eqn:E5.
  { destruct (IH today task (substring (trim (lower filter)) 4))
      as [b ->].
    - pose proof (nested_subFilter_shorter filter E5). lia.
    - eexists; reflexivity. }
  apply applyPredicateWith_ok.
Qed.

End EngineFacts.

(** The lower-casing of Basic Latin leaves a lower-cased text as it is. *)
Lemma toLowerCase_fixesLowered : fixesLowered toLowerCase.
Proof.
  intros s t H. unfold toLowerCase at 1.
  rewrite <- (map_id t) at 2. apply map_ext_in. intros c Hc.
  destruct (lowerUnit_cases c) as [[Hr _] | [_ E]]; [|exact E].
  exfalso. apply (toLowerCase_no_upper s c); [|exact Hr].
  exact (includes_In _ _ c H Hc).
Qed.

(** With the lower-casing of Basic Latin the evaluator on the engine is
    [applyFilter_fuel]. *)
Lemma applyFilterWith_toLowerCase (depth : nat) (today : jsstring)
      (task : Task) (filter : jsstring) :
  applyFilterWith toLowerCase depth today task filter
  = applyFilter_fuel depth today task filter.
Proof. reflexivity. Qed.

(** ** Negations nested deeper than the stack *)

Lemma nestedNot_In (m : nat) (c : N) :
  In c (nestedNot m (js "done")) -> In c (js "not done").
Proof.
  induction m as [|m IH]; cbn [nestedNot]; intros H.
  - simpl in H |- *. tauto.
  - apply in_app_or in H as [H | H]; [|exact (IH H)].
    simpl in H |- *. tauto.
Qed.

Lemma nestedNot_no (m : nat) (sep : jsstring) (c : N) :
  In c sep -> ~ In c (js "not done") ->
  includes (nestedNot m (js "done")) sep = false.
Proof.
  intros Hc Hn.
  destruct (includes (nestedNot m (js "done")) sep) eqn:E; [|reflexivity].
  exfalso. apply Hn, (nestedNot_In m), (includes_In _ _ c E Hc).
Qed.

Lemma nestedNot_app (m : nat) (f : jsstring) :
  nestedNot m f = nestedNot m [] ++ f.
Proof.
  induction m as [|m IH]; cbn [nestedNot]; [reflexivity|].
  rewrite IH, app_assoc. reflexivity.
Qed.

Lemma nestedNot_lower (m : nat) :
  toLowerCase (nestedNot m (js "done")) = nestedNot m (js "done").
Proof.
  unfold toLowerCase. rewrite <- (map_id (nestedNot m (js "done"))) at 2.
  apply map_ext_in. intros c Hc. apply nestedNot_In in Hc.
  simpl in Hc.
  repeat (destruct Hc as [<- | Hc]; [reflexivity|]). destruct Hc.
Qed.

Lemma nestedNot_trim (m : nat) :
  trim (nestedNot m (js "done")) = nestedNot m (js "done").
Proof.
  assert (Hw : isWord (js "done")) by (split; [discriminate | reflexivity]).
  destruct m as [|m]; [reflexivity|].
  rewrite nestedNot_app.
  exact (trim_app_word 110%N (js "ot " ++ nestedNot m []) (js "done")
           eq_refl Hw).
Qed.

(** On a stack with room for [depth] nested calls, a clause under [depth]
    negations or more is not answered: the stack is full before the
    innermost clause is reached.  The lower-casing leaves these clauses,
    which are lower-cased, as they are. *)
Lemma nested_not_overflows (lower : jsstring -> jsstring) (depth : nat) :
  (forall k, lower (nestedNot k (js "done")) = nestedNot k (js "done")) ->
  forall (m : nat) (today : jsstring) (task : Task),
    depth <= m ->
    applyFilterWith lower depth today task (nestedNot m (js "done"))
    = OutOfFuel.
Proof.
  intros Hl.
  induction depth as [|depth IH]; intros m today task Hm; [reflexivity|].
  destruct m as [|m]; [lia|].
  cbn [applyFilterWith]. rewrite Hl, nestedNot_trim.
  rewrite (nestedNot_no (S m) (js " AND ") 65%N)
    by (simpl; intuition discriminate).
  rewrite (nestedNot_no (S m) (js " OR ") 79%N)
    by (simpl; intuition discriminate).
  rewrite (nestedNot_no (S m) (js " and ") 97%N)
    by (simpl; intuition discriminate).
  rewrite (nestedNot_no (S m) (js " or ") 114%N)
    by (simpl; intuition discriminate).
  change (startsWith (nestedNot (S m) (js "done")) (js "not ")) with true.
  change (substring (nestedNot (S m) (js "done")) 4)
    with (nestedNot m (js "done")).
  cbv iota. rewrite IH by lia. reflexivity.
Qed.

(* ------------------------------------------------------------------ *)
(** ** What [applyFilter] answers, and when *)

(** C6 as it is stated fails: no stack has room for every clause.
    Whatever the number of nested calls it has room for, that number of
    negations in a row overflows it.  (Evaluated with the lower-casing of
    Basic Latin, which is exact on these clauses.) *)
Lemma C6_no_stack_answers_every_clause :
  ~ exists depth,
      forall filter,
      exists b,
        applyFilterWith toLowerCase depth (js "2025-04-18")
                        (sampleTask incomplete (js "Buy milk") []) filter
        = Ok b.
Proof.
  intros [depth H].
  destruct (H (nestedNot depth (js "done"))) as [b Hb].
  rewrite (nested_not_overflows toLowerCase depth nestedNot_lower depth)
    in Hb by lia.
  discriminate Hb.
Qed.

(** C6.  Whatever the lower-casing [lower] of the engine and the room
    [depth] on the call stack: [applyFilter] signals no [TypeError]; it
    returns a boolean when the stack has room for more nested calls than
    the lower-cased, trimmed clause is long (the texts of the nested calls
    get strictly shorter); and when the lower-cased, trimmed clause holds
    no connective and is no predicate of the filter language, the answer
    is the search of that text in the lower-cased description. *)
Theorem C6_applyFilter_answers_within_stack_with_fallback
        (lower : jsstring -> jsstring) (depth : nat)
        (today : jsstring) (task : Task) (filter : jsstring) :
  applyFilterWith lower depth today task filter <> TypeError
  /\ (fixesLowered lower ->
      List.length (trim (lower filter)) < depth ->
      exists b, applyFilterWith lower depth today task filter = Ok b)
  /\ (0 < depth ->
      isAnyConnective (trim (lower filter)) = false ->
      isPredicate (trim (lower filter)) = false ->
      applyFilterWith lower depth today task filter
      = Ok (includes (lower (description task)) (trim (lower filter)))).
Proof.
  split; [apply applyFilterWith_no_TypeError|].
  split; [intros Hfix; apply applyFilterWith_enough, Hfix|].
  intros Hd Hc Hp. destruct depth as [|depth]; [lia|].
  unfold isAnyConnective, isConnective in Hc.
  apply orb_false_iff in Hc as [Hc Hlow].
  apply orb_false_iff in Hc as [HAND HOR].
  apply orb_false_iff in Hlow as [Hlow Hnot].
  apply orb_false_iff in Hlow as [Hand Hor].
  cbn [applyFilterWith]. rewrite HAND, HOR, Hand, Hor, Hnot.
  apply applyPredicateWith_fallback, Hp.
Qed.

Lemma C6_applyFilter_answers_within_stack_with_fallback_witness :
  (exists b,
      applyFilterWith toLowerCase 16 (js "2025-04-18")
                      (sampleTask incomplete (js "Buy MILK today") [])
                      (js "not  Milk ") = Ok b)
  /\ applyFilterWith toLowerCase 16 (js "2025-04-18")
                     (sampleTask incomplete (js "Buy MILK today") [])
                     (js "  Milk ")
     = Ok true.
Proof.
  split.
  - apply (proj1 (proj2 (C6_applyFilter_answers_within_stack_with_fallback
                           toLowerCase 16 (js "2025-04-18")
                           (sampleTask incomplete (js "Buy MILK today") [])
                           (js "not  Milk ")))).
    + exact toLowerCase_fixesLowered.
    + vm_compute. lia.
  - apply (proj2 (proj2 (C6_applyFilter_answers_within_stack_with_fallback
                           toLowerCase 16 (js "2025-04-18")
                           (sampleTask incomplete (js "Buy MILK today") [])
                           (js "  Milk ")))).
    + lia.
    + reflexivity.
    + reflexivity.
Defined.

(* ------------------------------------------------------------------ *)
(** ** The wrapper of [index.ts] around the query *)

Section QueryOnEngine.

Variable lower : jsstring -> jsstring.

Lemma passesAllWith_no_TypeError (depth : nat) (today : jsstring)
      (task : Task) (filters : list jsstring) :
  passesAllWith lower depth today task filters <> TypeError.
Proof.
  induction filters as [|f fs IH]; cbn [passesAllWith]; [discriminate|].
  pose proof (applyFilterWith_no_TypeError lower depth today task f) as H.
  destruct (applyFilterWith lower depth today task f) as [b| |];
    cbn [bind]; [|congruence|discriminate].
  destruct b; cbn [negb]; [exact IH | discriminate].
Qed.

Lemma passesAllWith_ok (depth : nat) (today : jsstring) (task : Task)
      (filters : list jsstring) :
  (forall f, In f filters ->
             exists b, applyFilterWith lower depth today task f = Ok b) ->
  exists b, passesAllWith lower depth today task filters = Ok b.
Proof.
  induction filters as [|f fs IH]; intros H; cbn [passesAllWith].
  - eexists; reflexivity.
  - destruct (H f (or_introl eq_refl)) as [b ->]. cbn [bind].
    destruct b; cbn [negb]; [|eexists; reflexivity].
    apply IH. intros g Hg. apply H. right; assumption.
Qed.

End QueryOnEngine.

Lemma parseQuery_nestedNot (m : nat) :
  parseQuery (nestedNot m (js "done")) = [nestedNot m (js "done")].
Proof.
  unfold parseQuery, split.
  rewrite splitGo_none
    by (apply (nestedNot_no m [10%N] 10%N); simpl; intuition discriminate).
  cbn [rev app map]. rewrite nestedNot_trim. cbn [filter].
  destruct m; reflexivity.
Qed.

(** X21.  Whatever the lower-casing of the engine and the room on the call
    stack: the wrapper of [index.ts] either returns what [queryTasks] of
    the parser returns and logs nothing, or the stack was full and it
    returns the empty list and logs the error; no [TypeError] brings it
    there.  It returns what the parser returns when the stack has room for
    more nested calls than any filter line, lower-cased and trimmed, is
    long.  It falls back on a query of [depth] negations in a row or
    more, when there is a task to judge. *)
Theorem index_queryTasks_falls_back_on_full_stack_only
        (lower : jsstring -> jsstring) (depth : nat)
        (today : jsstring) (tasks : list Task) (queryText : jsstring) :
  ((exists kept,
       queryTasksWith lower depth today tasks queryText = Ok kept
       /\ Index.queryTasks lower depth today tasks queryText = (kept, []))
   \/ (queryTasksWith lower depth today tasks queryText = OutOfFuel
       /\ Index.queryTasks lower depth today tasks queryText
          = ([], [Index.ErrorQueryingTasks])))
  /\ (fixesLowered lower ->
      (forall line, In line (parseQuery queryText) ->
                    List.length (trim (lower line)) < depth) ->
      exists kept,
        queryTasksWith lower depth today tasks queryText = Ok kept
        /\ Index.queryTasks lower depth today tasks queryText = (kept, []))
  /\ ((forall k, lower (nestedNot k (js "done")) = nestedNot k (js "done")) ->
      forall m,
        tasks <> [] -> depth <= m ->
        Index.queryTasks lower depth today tasks (nestedNot m (js "done"))
        = ([], [Index.ErrorQueryingTasks])).
Proof.
  split; [|split].
  - unfold Index.queryTasks.
    assert (H : queryTasksWith lower depth today tasks queryText
                <> TypeError).
    { unfold queryTasksWith. apply filterR_no_TypeError.
      intros task _. apply passesAllWith_no_TypeError. }
    destruct (queryTasksWith lower depth today tasks queryText)
      as [kept| |]; [left | congruence | right].
    + exists kept. split; reflexivity.
    + split; reflexivity.
  - intros Hfix Hlen. unfold Index.queryTasks.
    destruct (filterR_ok Task
                (fun task => passesAllWith lower depth today task
                               (parseQuery queryText)) tasks)
      as [kept Hk].
    { intros task _. apply passesAllWith_ok. intros f Hf.
      apply (applyFilterWith_enough lower Hfix), Hlen, Hf. }
    unfold queryTasksWith. rewrite Hk. exists kept. split; reflexivity.
  - intros Hl m Hne Hm. unfold Index.queryTasks, queryTasksWith.
    rewrite parseQuery_nestedNot.
    destruct tasks as [|task rest]; [congruence|].
    cbn [filterR passesAllWith].
    rewrite (nested_not_overflows lower depth Hl m today task Hm).
    reflexivity.
Qed.

Lemma index_queryTasks_falls_back_on_full_stack_only_witness :
  Index.queryTasks toLowerCase 3 (js "2025-04-18")
                   [sampleDueTask None []] (js "not not not done")
  = ([], [Index.ErrorQueryingTasks])
  /\ exists kept,
       Index.queryTasks toLowerCase 32 (js "2025-04-18")
                        [sampleDueTask None []] (js "not not not done")
       = (kept, []).
Proof.
  split.
  - apply (proj2 (proj2 (index_queryTasks_falls_back_on_full_stack_only
                           toLowerCase 3 (js "2025-04-18")
                           [sampleDueTask None []] []))
             nestedNot_lower 3); [discriminate | lia].
  - destruct (proj1 (proj2 (index_queryTasks_falls_back_on_full_stack_only
                              toLowerCase 32 (js "2025-04-18")
                              [sampleDueTask None []]
                              (js "not not not done")))
                toLowerCase_fixesLowered) as [kept [_ H]].
    + intros line [<- | []]. vm_compute. lia.
    + exists kept. exact H.
Defined.
